(** * CareerBoost job-scraping service: a shallow embedding of
    [backend/services/scrapingService.js] and the properties of its
    normalisation pipeline and run orchestration.

    Conventions of the embedding.
    - A JavaScript string is a [string]; its characters are read as the code
      units U+0000..U+00FF (Latin-1), on which [toLowerCase], [trim] and the
      regular-expression classes [\s] and [\d] are written out.
    - A field that may hold [undefined] or [null] is a [jsval].
    - A number is an IEEE-754 binary64 value. The amounts [parseInt] reads
      from text are values of [spec_float], the specification of binary64
      with its computable rounding, on which the order is proved; the
      success rate is computed with the primitive [float]s, which [Prim2SF]
      maps to the same specification.
    - Asynchronous calls are sequenced as the [await]s sequence them; the
      browser, the pages and the job store are external and enter through an
      explicit environment. *)

From Stdlib Require Import ZArith Ascii String Bool Lia Floats.
From stdpp Require Import base list strings gmap.

Local Open Scope string_scope.
#[local] Set Warnings "-clear-no-such-hyp".

(** ** JavaScript strings and values *)

Module JS.

(** [String.prototype.toLowerCase], one code unit at a time: A..Z and the
    Latin-1 capitals U+00C0..U+00DE (except the multiplication sign U+00D7)
    move up by 32. *)
Definition lower_char (c : ascii) : ascii :=
  let n := nat_of_ascii c in
  if (((65 <=? n) && (n <=? 90)) || ((192 <=? n) && (n <=? 222) && negb (n =? 215)))%nat
  then ascii_of_nat (n + 32)
  else c.

Fixpoint toLowerCase (s : string) : string :=
  match s with
  | EmptyString => EmptyString
  | String c s' => String (lower_char c) (toLowerCase s')
  end.

(** [s.startsWith(k)] *)
Fixpoint startsWith (s k : string) : bool :=
  match k, s with
  | EmptyString, _ => true
  | String _ _, EmptyString => false
  | String a k', String b s' => if Ascii.eqb a b then startsWith s' k' else false
  end.

(** [s.includes(k)]: [k] starts at some position of [s]. *)
Fixpoint includes (s k : string) : bool :=
  startsWith s k ||
  match s with
  | EmptyString => false
  | String _ s' => includes s' k
  end.

(** [\s] on Latin-1: TAB, LF, VT, FF, CR, space and the no-break space. *)
Definition is_space (c : ascii) : bool :=
  let n := nat_of_ascii c in
  (((9 <=? n) && (n <=? 13)) || (n =? 32) || (n =? 160))%nat.

(** [\d] *)
Definition is_digit (c : ascii) : bool :=
  let n := nat_of_ascii c in ((48 <=? n) && (n <=? 57))%nat.

Fixpoint trimStart (s : string) : string :=
  match s with
  | String c s' => if is_space c then trimStart s' else s
  | EmptyString => EmptyString
  end.

(** Characters of a string, and back. *)
Fixpoint chars (s : string) : list ascii :=
  match s with
  | EmptyString => []
  | String c s' => c :: chars s'
  end.

Fixpoint unchars (l : list ascii) : string :=
  match l with
  | [] => EmptyString
  | c :: l' => String c (unchars l')
  end.

Definition trimEnd (s : string) : string :=
  unchars (reverse (chars (trimStart (unchars (reverse (chars s)))))).

(** [s.trim()] *)
Definition trim (s : string) : string := trimEnd (trimStart s).

(** [s.replace(/[\n\t]/g, ' ')] *)
Fixpoint replaceNewlinesTabs (s : string) : string :=
  match s with
  | EmptyString => EmptyString
  | String c s' =>
      String (if ((nat_of_ascii c =? 10) || (nat_of_ascii c =? 9))%nat then " "%char else c)
             (replaceNewlinesTabs s')
  end.

(** [s.replace(/,/g, '')] *)
Fixpoint stripCommas (s : string) : string :=
  match s with
  | EmptyString => EmptyString
  | String c s' =>
      if Ascii.eqb c ","%char then stripCommas s' else String c (stripCommas s')
  end.

(** A value that is a string, [null] or [undefined]. *)
Inductive jsval : Type :=
  | JUndefined
  | JNull
  | JStr (s : string).

(** Truthiness: [undefined], [null] and the empty string are falsy. *)
Definition truthy (v : jsval) : bool :=
  match v with
  | JStr s => negb (String.eqb s "")
  | _ => false
  end.

(** Interpolation in a template literal. *)
Definition tpl (v : jsval) : string :=
  match v with
  | JUndefined => "undefined"
  | JNull => "null"
  | JStr s => s
  end.

(** [a || b] on values. *)
Definition orElse (a b : jsval) : jsval := if truthy a then a else b.

(** A number: a binary64 value. *)
Definition number : Type := spec_float.

(** The number an integer converts to: the nearest binary64 value, ties to
    even, and an infinity beyond the largest finite value. *)
Definition ofZ (z : Z) : number := binary_normalize prec emax z 0 false.

(** The value of the longest run of decimal digits at the start of a
    string, and of hexadecimal digits. *)
Fixpoint digitsValue (acc : Z) (s : string) : Z :=
  match s with
  | String c s' =>
      if is_digit c
      then digitsValue (10 * acc + (Z.of_nat (nat_of_ascii c) - 48)) s'
      else acc
  | EmptyString => acc
  end.

Definition startsWithDigit (s : string) : bool :=
  match s with
  | String c _ => is_digit c
  | EmptyString => false
  end.

Definition is_hex_digit (c : ascii) : bool :=
  let n := nat_of_ascii c in
  (is_digit c || ((97 <=? n) && (n <=? 102)) || ((65 <=? n) && (n <=? 70)))%nat.

Definition hexDigit (c : ascii) : Z :=
  let n := Z.of_nat (nat_of_ascii c) in
  (if is_digit c then n - 48 else if (97 <=? n)%Z then n - 87 else n - 55)%Z.

Fixpoint hexValue (acc : Z) (s : string) : Z :=
  match s with
  | String c s' => if is_hex_digit c then hexValue (16 * acc + hexDigit c) s' else acc
  | EmptyString => acc
  end.

(** The number read after the white space and the sign: in base 16 after a
    prefix [0x] or [0X], in base 10 otherwise, and [NaN] without a digit. *)
Definition unsignedInt (r : string) : number :=
  match r with
  | String "0" (String x r') =>
      if Ascii.eqb x "x" || Ascii.eqb x "X"
      then match r' with
           | String h _ => if is_hex_digit h then ofZ (hexValue 0 r') else S754_nan
           | EmptyString => S754_nan
           end
      else ofZ (digitsValue 0 r)
  | _ => if startsWithDigit r then ofZ (digitsValue 0 r) else S754_nan
  end.

(** [parseInt(s)] without a radix: leading white space, an optional sign,
    then the longest run of digits, converted to the nearest number. *)
Definition parseInt (s : string) : number :=
  match trimStart s with
  | String "-" r => SFopp (unsignedInt r)
  | String "+" r => unsignedInt r
  | r => unsignedInt r
  end.

(** [n || d] on numbers: [NaN] and the two zeros are falsy. *)
Definition numOr (n d : number) : number :=
  match n with
  | S754_nan | S754_zero _ => d
  | _ => n
  end.

(** [Math.min(a, b)] and [Math.max(a, b)]: [NaN] if an argument is [NaN];
    of the two zeros, -0 is the smaller. *)
Definition mathMin (a b : number) : number :=
  match SFcompare a b with
  | None => S754_nan
  | Some Lt => a
  | Some Gt => b
  | Some Eq => match a with S754_zero true => a | _ => b end
  end.

Definition mathMax (a b : number) : number :=
  match SFcompare a b with
  | None => S754_nan
  | Some Lt => b
  | Some Gt => a
  | Some Eq => match a with S754_zero false => a | _ => b end
  end.

(** A number other than [NaN], and a number that is neither [NaN] nor
    below zero. *)
Definition isNumber (x : number) : bool :=
  match x with
  | S754_nan => false
  | _ => true
  end.

Definition notNegative (x : number) : bool :=
  match x with
  | S754_zero _ | S754_infinity false | S754_finite false _ _ => true
  | _ => false
  end.

End JS.

(** ** Regular expressions of the salary formats

    The fragment of JavaScript regular expressions the service uses, with the
    backtracking semantics of the language: greedy repetition of a character
    class, concatenation, alternation (left first) and capturing groups;
    [exec] tries every start position from the left. *)

Module Regex.

Inductive re : Type :=
  | Eps
  | Chr (p : ascii -> bool)
  | Star (p : ascii -> bool)
  | Cat (r1 r2 : re)
  | Alt (r1 r2 : re)
  | Grp (i : nat) (r : re).

(** Captures, most recent first. *)
Definition caps : Type := list (nat * string).

Fixpoint group (i : nat) (c : caps) : option string :=
  match c with
  | [] => None
  | (j, s) :: c' => if (i =? j)%nat then Some s else group i c'
  end.

(** The part of [s] consumed when [rest] is what remains of it. *)
Definition consumed (s rest : string) : string :=
  JS.unchars (take (String.length s - String.length rest) (JS.chars s)).

Fixpoint star {A : Type} (p : ascii -> bool) (s : string)
    (k : string -> option A) : option A :=
  match s with
  | String a s' =>
      if p a
      then match star p s' k with
           | Some x => Some x
           | None => k s
           end
      else k s
  | EmptyString => k s
  end.

Fixpoint run (r : re) (s : string) (c : caps)
    (k : string -> caps -> option caps) : option caps :=
  match r with
  | Eps => k s c
  | Chr p =>
      match s with
      | String a s' => if p a then k s' c else None
      | EmptyString => None
      end
  | Star p => star p s (fun s' => k s' c)
  | Cat r1 r2 => run r1 s c (fun s' c' => run r2 s' c' k)
  | Alt r1 r2 =>
      match run r1 s c k with
      | Some x => Some x
      | None => run r2 s c k
      end
  | Grp i r' => run r' s c (fun s' c' => k s' ((i, consumed s s') :: c'))
  end.

(** [text.match(r)] for a regular expression without the [g] flag. *)
Fixpoint exec (r : re) (s : string) : option caps :=
  match run r s [] (fun _ c => Some c) with
  | Some c => Some c
  | None =>
      match s with
      | String _ s' => exec r s'
      | EmptyString => None
      end
  end.

(** A literal character; under the [i] flag a letter matches in both cases. *)
Definition lit (c : ascii) : re := Chr (fun a => Ascii.eqb a c).
Definition lit_i (c : ascii) : re := Chr (fun a => Ascii.eqb (JS.lower_char a) c).

Fixpoint word_i (w : string) : re :=
  match w with
  | EmptyString => Eps
  | String c EmptyString => lit_i c
  | String c w' => Cat (lit_i c) (word_i w')
  end.

Definition spaces : re := Star JS.is_space.

(** [\d+[\d,]*] *)
Definition amount : re :=
  Cat (Chr JS.is_digit)
      (Cat (Star JS.is_digit)
           (Star (fun a => JS.is_digit a || Ascii.eqb a ","%char))).

Fixpoint cat (rs : list re) : re :=
  match rs with
  | [] => Eps
  | [r] => r
  | r :: rs' => Cat r (cat rs')
  end.

End Regex.

(** ** Records *)

(** The record [scrapeSite] builds for one listing card. *)
Module Raw.
Record t : Type := mk {
  title : JS.jsval;
  company : JS.jsval;
  location : JS.jsval;
  salary : JS.jsval;
  summary : JS.jsval;
  datePosted : JS.jsval;
  link : JS.jsval;
  source : JS.jsval;
  scrapedAt : JS.jsval
}.
End Raw.

(** The [jobData] object the normaliser functions read: the raw fields and
    the optional [description], [skills] and [categories]. *)
Record JobData : Type := mkJobData {
  title : JS.jsval;
  company : JS.jsval;
  location : JS.jsval;
  salary : JS.jsval;
  summary : JS.jsval;
  datePosted : JS.jsval;
  link : JS.jsval;
  source : JS.jsval;
  scrapedAt : JS.jsval;
  description : JS.jsval;
  skills : option (list string);
  categories : option (list string)
}.

Module SalaryRange.
Record t : Type := mk {
  min : JS.number;
  max : JS.number;
  currency : option string;
  period : option string;
  isDisclosed : bool
}.
End SalaryRange.

(** ** Normaliser *)

Module Normalizer.
Import JS.

(** The three salary formats, in the order of the [formats] array. *)
Definition rangeFormat : Regex.re :=
  Regex.cat [Regex.lit_i "r"; Regex.spaces; Regex.Grp 1 Regex.amount; Regex.spaces;
             Regex.lit "-"; Regex.spaces; Regex.lit_i "r"; Regex.spaces;
             Regex.Grp 2 Regex.amount].

Definition singleFormat : Regex.re :=
  Regex.cat [Regex.lit_i "r"; Regex.spaces; Regex.Grp 1 Regex.amount; Regex.spaces;
             Regex.word_i "per"; Regex.spaces;
             Regex.Grp 2 (Regex.Alt (Regex.word_i "month")
                            (Regex.Alt (Regex.word_i "year") (Regex.word_i "annum")))].

Definition bareFormat : Regex.re :=
  Regex.cat [Regex.Grp 1 Regex.amount; Regex.spaces; Regex.lit "-"; Regex.spaces;
             Regex.Grp 2 Regex.amount; Regex.spaces; Regex.word_i "zar"].

Definition formats : list Regex.re := [rangeFormat; singleFormat; bareFormat].

Definition undisclosed : SalaryRange.t :=
  SalaryRange.mk (ofZ 0) (ofZ 0) None None false.

(** The body of the [if (match)] branch: the two operands, the period and
    the returned object. [match[1].replace] on a missing group raises, which
    the surrounding [try] turns into the undisclosed result. *)
Definition salaryOfMatch (salaryText : string) (c : Regex.caps) : SalaryRange.t :=
  match Regex.group 1 c with
  | None => undisclosed
  | Some g1 =>
      let min := numOr (parseInt (stripCommas g1)) (ofZ 0) in
      let max := numOr (match Regex.group 2 c with
                        | Some g2 => parseInt (stripCommas g2)
                        | None => parseInt "undefined"
                        end) min in
      let period :=
        if includes (toLowerCase salaryText) "year"
           || includes (toLowerCase salaryText) "annum"
        then "yearly" else "monthly" in
      SalaryRange.mk (mathMin min max) (mathMax min max) (Some "ZAR") (Some period) true
  end.

(** The [for (const format of formats)] loop: the first format that matches
    returns. *)
Fixpoint tryFormats (fs : list Regex.re) (salaryText : string) : SalaryRange.t :=
  match fs with
  | [] => undisclosed
  | f :: fs' =>
      match Regex.exec f salaryText with
      | Some c => salaryOfMatch salaryText c
      | None => tryFormats fs' salaryText
      end
  end.

Definition parseSalary (salaryText : jsval) : SalaryRange.t :=
  match salaryText with
  | JStr text => if truthy salaryText then tryFormats formats text else undisclosed
  | _ => undisclosed
  end.

(** [`${jobData.title} ${jobData.description}`] *)
Definition titleAndDescription (jobData : JobData) : string :=
  tpl (title jobData) ++ " " ++ tpl (description jobData).

Definition detectJobType (jobData : JobData) : string :=
  let text := toLowerCase (titleAndDescription jobData) in
  if includes text "part-time" || includes text "part time" then "part-time"
  else if includes text "contract" then "contract"
  else if includes text "temporary" || includes text "temp" then "temporary"
  else if includes text "intern" || includes text "graduate" then "internship"
  else if includes text "remote" || includes text "work from home" then "remote"
  else if includes text "hybrid" then "hybrid"
  else "full-time".

Definition detectExperienceLevel (jobData : JobData) : string :=
  let text := toLowerCase (titleAndDescription jobData) in
  if includes text "junior" || includes text "entry level" || includes text "graduate"
  then "entry"
  else if includes text "senior" || includes text "lead" || includes text "principal"
          || includes text "head of"
  then "senior"
  else if includes text "executive" || includes text "director" || includes text "vp"
          || includes text "c-level"
  then "executive"
  else if includes text "mid" || includes text "intermediate" then "mid"
  else "not-specified".

Definition isRemoteJob (jobData : JobData) : bool :=
  let text := toLowerCase (titleAndDescription jobData ++ " " ++ tpl (location jobData)) in
  includes text "remote" || includes text "work from home" || includes text "wfh"
  || includes text "virtual" || includes text "anywhere".

(** The [categoryKeywords] table, in the order of its keys. *)
Definition itKeywords : list string :=
  ["software"; "developer"; "programmer"; "IT"; "tech"; "engineer"; "system"; "network"].

Definition categoryKeywords : list (string * list string) :=
  [("IT", itKeywords);
   ("Finance", ["finance"; "accounting"; "bank"; "financial"; "audit"; "tax"]);
   ("Marketing", ["marketing"; "digital"; "social media"; "brand"; "advertising"]);
   ("Sales", ["sales"; "account manager"; "business development"]);
   ("Healthcare", ["health"; "medical"; "nurse"; "doctor"; "hospital"]);
   ("Education", ["education"; "teacher"; "lecturer"; "academic"; "school"]);
   ("Engineering", ["engineer"; "technical"; "manufacturing"; "production"])].

(** [keywords.some(keyword => text.includes(keyword))] *)
Definition someIncluded (text : string) (keywords : list string) : bool :=
  existsb (includes text) keywords.

(** The categories pushed by the loop over the table. *)
Fixpoint matchedCategories (text : string) (table : list (string * list string))
    : list string :=
  match table with
  | [] => []
  | (category, keywords) :: table' =>
      if someIncluded text keywords
      then category :: matchedCategories text table'
      else matchedCategories text table'
  end.

Definition detectCategories (jobData : JobData) : list string :=
  let text := toLowerCase (titleAndDescription jobData) in
  let categories := matchedCategories text categoryKeywords in
  if (0 <? List.length categories)%nat then categories else ["General"].

(** [skill.charAt(0).toUpperCase() + skill.slice(1)] on the lower-case
    ASCII keywords of [extractSkillsFromText]. *)
Definition upper_char (c : ascii) : ascii :=
  let n := nat_of_ascii c in
  if ((97 <=? n) && (n <=? 122))%nat then ascii_of_nat (n - 32) else c.

Definition capitalize (s : string) : string :=
  match s with
  | EmptyString => EmptyString
  | String c s' => String (upper_char c) s'
  end.

Definition commonSkills : list string :=
  ["JavaScript"; "Python"; "Java"; "C#"; "PHP"; "SQL"; "React"; "Angular"; "Vue";
   "Node.js"; "Spring"; "Django"; "Laravel"; "AWS"; "Azure"; "Docker"; "Kubernetes";
   "Machine Learning"; "Data Analysis"; "Project Management"; "Agile"; "Scrum";
   "SEO"; "Digital Marketing"; "Social Media"; "Content Writing"; "Graphic Design";
   "Accounting"; "Financial Analysis"; "Risk Management"; "Sales"; "Negotiation";
   "Customer Service"; "Communication"; "Leadership"; "Teamwork"; "Problem Solving"].

(** [skills.add(skill)] on a [Set] read back in insertion order. *)
Definition setAdd (skills : list string) (skill : string) : list string :=
  if existsb (String.eqb skill) skills then skills else (skills ++ [skill])%list.

Definition extractSkills (jobData : JobData) : list string :=
  let text := titleAndDescription jobData in
  fold_left
    (fun (skills : list string) (skill : string) =>
       if includes (toLowerCase text) (toLowerCase skill) then setAdd skills skill
       else skills)
    commonSkills [].

Definition skillKeywords : list string :=
  ["javascript"; "python"; "java"; "react"; "angular"; "node"; "sql"; "aws";
   "marketing"; "sales"; "management"; "analysis"; "development"; "design"].

Definition extractSkillsFromText (text : string) : list string :=
  fold_left
    (fun (skills : list string) (skill : string) =>
       if includes (toLowerCase text) skill then (skills ++ [capitalize skill])%list
       else skills)
    skillKeywords [].

(** [{ ...jobData }] and the two clean-up steps. *)
Definition enhanceJobData (jobData : Raw.t) : JobData :=
  let company :=
    match Raw.company jobData with
    | JStr s => if truthy (JStr s) then JStr (trim (replaceNewlinesTabs s)) else JStr s
    | v => v
    end in
  let description :=
    if truthy (Raw.summary jobData) then Raw.summary jobData else JUndefined in
  let skills :=
    match Raw.summary jobData with
    | JStr s =>
        if truthy (JStr s)
        then let skills := extractSkillsFromText s in
             if (0 <? List.length skills)%nat then Some skills else None
        else None
    | _ => None
    end in
  mkJobData (Raw.title jobData) company (Raw.location jobData) (Raw.salary jobData)
            (Raw.summary jobData) (Raw.datePosted jobData) (Raw.link jobData)
            (Raw.source jobData) (Raw.scrapedAt jobData)
            description skills None.

(** [v.length] of a string value that passed the truthiness test. *)
Definition strLength (v : jsval) : nat :=
  match v with
  | JStr s => String.length s
  | _ => 0
  end.

(** [arr && arr.length > 0] *)
Definition nonEmpty (arr : option (list string)) : bool :=
  match arr with
  | Some l => (0 <? List.length l)%nat
  | None => false
  end.

Definition calculateQualityScore (jobData : JobData) : Z :=
  let score := 0%Z in
  let score :=
    if truthy (title jobData) && truthy (company jobData) then (score + 30)%Z else score in
  let score :=
    if truthy (description jobData) && (100 <? strLength (description jobData))%nat
    then (score + 25)%Z else score in
  let score := if truthy (salary jobData) then (score + 20)%Z else score in
  let score := if nonEmpty (skills jobData) then (score + 15)%Z else score in
  let score := if nonEmpty (categories jobData) then (score + 10)%Z else score in
  Z.min score 100.

(** A [Date]: the current instant, or the instant a string parses to. *)
Inductive jsdate : Type :=
  | DateNow
  | DateOf (s : string).

(** [parseDate]; [valid s] says whether [new Date(s)] is a valid date. *)
Definition parseDate (valid : string -> bool) (dateString : jsval) : jsdate :=
  match dateString with
  | JStr s =>
      if negb (truthy dateString) then DateNow
      else if includes s "ago" || includes s "today" || includes s "just" then DateNow
      else if valid s then DateOf s else DateNow
  | _ => DateNow
  end.

(** The key of [deduplicateJobs]. *)
Definition dedupKey (job : Raw.t) : string :=
  toLowerCase (tpl (Raw.title job) ++ "-" ++ tpl (Raw.company job) ++ "-"
               ++ tpl (Raw.location job)).

(** [jobs.filter(...)] with the [seen] set threaded through the calls of the
    callback. *)
Fixpoint dedupFrom (seen : gset string) (jobs : list Raw.t) : list Raw.t :=
  match jobs with
  | [] => []
  | job :: rest =>
      let key := dedupKey job in
      if decide (key ∈ seen) then dedupFrom seen rest
      else job :: dedupFrom ({[ key ]} ∪ seen) rest
  end.

Definition deduplicateJobs (jobs : list Raw.t) : list Raw.t := dedupFrom ∅ jobs.

End Normalizer.

(** ** Job documents and the environment of a run *)

(** The fields of a [Job] document that the service sets or reads;
    [isActive] is the schema field read on a document found in the store
    (default [true]). *)
Module Job.
Record Source : Type := mkSource {
  website : JS.jsval;
  url : JS.jsval;
  scrapedId : string
}.
Record Metadata : Type := mkMetadata {
  qualityScore : Z;
  scrapedAccuracy : Z
}.
Record t : Type := mk {
  title : JS.jsval;
  company : JS.jsval;
  description : JS.jsval;
  location : JS.jsval;
  salaryRange : SalaryRange.t;
  jobType : string;
  experienceLevel : string;
  applicationUrl : JS.jsval;
  source : Source;
  isRemote : bool;
  categories : list string;
  skills : list string;
  postedDate : Normalizer.jsdate;
  metadata : Metadata;
  isActive : bool
}.
End Job.

(** The outcome of a call that may raise. *)
Inductive Result (A : Type) : Type :=
  | Return (a : A)
  | Throw (message : string).
Arguments Return {A} a.
Arguments Throw {A} message.

(** One entry of [jobSites]. *)
Record Selectors : Type := mkSelectors {
  sel_jobCard : string;
  sel_title : string;
  sel_company : string;
  sel_location : string;
  sel_salary : string;
  sel_summary : string;
  sel_date : string;
  sel_link : string
}.

Record SiteConfig : Type := mkSiteConfig {
  name : string;
  url : string;
  searchPath : string;
  selectors : Selectors
}.

(** What the selectors of a site find in one listing card: the trimmed text
    of each element ([JNull] when the element is missing) and the [href] of
    the link. *)
Record Card : Type := mkCard {
  card_title : JS.jsval;
  card_company : JS.jsval;
  card_location : JS.jsval;
  card_salary : JS.jsval;
  card_summary : JS.jsval;
  card_date : JS.jsval;
  card_href : JS.jsval
}.

(** A browser handle. *)
Definition Browser : Type := nat.

(** Everything outside the service that a run talks to. The store answers
    are indexed by the position of the record in the batch being processed,
    which stands for the state of the store at that moment. *)
Record World : Type := mkWorld {
  (** [puppeteer.launch(...)] *)
  launch : Result Browser;
  (** [browser.close()] *)
  closeBrowser : Result unit;
  encodeURIComponent : string -> string;
  (** [browser.newPage()], [setUserAgent] and [setExtraHTTPHeaders] in the
      call of [scrapeSite] for a site *)
  openPage : string -> Result unit;
  (** [goto], [waitForSelector], reading the cards and [page.close()] for a
      site configuration and a search URL *)
  readCards : SiteConfig -> string -> Result (list Card);
  (** [new URL(link, base).href] *)
  resolveUrl : string -> string -> Result string;
  (** [new Date().toISOString().split('T')[0]] and [new Date().toISOString()] *)
  today : string;
  nowISO : string;
  (** whether [new Date(s)] is a valid date *)
  validDate : string -> bool;
  (** [SecurityManager.generateSignature(jobData, 'scraping_salt')] *)
  generateSignature : JobData -> string;
  (** [Job.findOne({title, company, location})] *)
  findOne : nat -> JS.jsval -> JS.jsval -> JS.jsval -> Result (option Job.t);
  (** [new Job(fields)], [job.save()] and [job.calculateQualityScore()]:
      the document as the model and the store leave it *)
  persist : nat -> Job.t -> Result Job.t
}.

(** ** The scraping service *)

Module ScrapingService.
Import JS Normalizer.

(** The [scrapingStats] object. *)
Module Stats.
Record t : Type := mk {
  totalJobsScraped : nat;
  lastScrapingRun : option jsdate;
  errors : nat;
  successRate : float
}.
End Stats.

(** Calls that leave the service, in the order they are made. *)
Inductive Event : Type :=
  | EvLaunch
  | EvBrowserClose
  | EvScrapeSite (site : string)
  | EvAudit (action : string).

(** The fields of the service object, and the log of its external calls. *)
Record State : Type := mkState {
  browser : option Browser;
  isInitialized : bool;
  scrapingStats : Stats.t;
  events : list Event
}.

(** The state the constructor builds. *)
Definition initial : State :=
  mkState None false (Stats.mk 0 None 0 0%float) [].

(** Computations on the service: a state and an outcome. *)
Definition M (A : Type) : Type := State -> Result A * State.

Definition ret {A : Type} (a : A) : M A := fun st => (Return a, st).
Definition throw {A : Type} (message : string) : M A := fun st => (Throw message, st).
Definition bind {A B : Type} (m : M A) (k : A -> M B) : M B :=
  fun st =>
    match m st with
    | (Return a, st') => k a st'
    | (Throw e, st') => (Throw e, st')
    end.
(** [try { m } catch (error) { handler(error) }] *)
Definition tryCatch {A : Type} (m : M A) (handler : string -> M A) : M A :=
  fun st =>
    match m st with
    | (Return a, st') => (Return a, st')
    | (Throw e, st') => handler e st'
    end.
Definition get : M State := fun st => (Return st, st).
Definition modify (f : State -> State) : M unit := fun st => (Return tt, f st).
(** An external call whose outcome the world decides. *)
Definition lift {A : Type} (r : Result A) : M A := fun st => (r, st).
Definition emit (e : Event) : M unit :=
  modify (fun st => mkState (browser st) (isInitialized st) (scrapingStats st)
                            (events st ++ [e])).

Notation "x <- m ;; k" := (bind m (fun x => k))
  (at level 90, m at level 80, right associativity).
Notation "m ;;; k" := (bind m (fun _ => k))
  (at level 90, right associativity).

Definition setBrowser (b : option Browser) : M unit :=
  modify (fun st => mkState b (isInitialized st) (scrapingStats st) (events st)).
Definition setInitialized (i : bool) : M unit :=
  modify (fun st => mkState (browser st) i (scrapingStats st) (events st)).
Definition setStats (s : Stats.t) : M unit :=
  modify (fun st => mkState (browser st) (isInitialized st) s (events st)).

(** [AuditLogger.log] catches every failure of the log store itself. *)
Definition auditLog (action : string) : M unit := emit (EvAudit action).

Definition jobSites : gmap string SiteConfig :=
  {[ "indeed" :=
       mkSiteConfig "Indeed South Africa" "https://www.indeed.co.za" "/jobs"
         (mkSelectors ".jobsearch-SerpJobCard" ".title a" ".company" ".location"
                      ".salary-snippet" ".summary" ".date" ".title a");
     "careerjet" :=
       mkSiteConfig "CareerJet South Africa" "https://www.careerjet.co.za" "/search/jobs"
         (mkSelectors ".job" ".title a" ".company" ".location"
                      ".salary" ".description" ".date" ".title a");
     "pnet" :=
       mkSiteConfig "PNet South Africa" "https://www.pnet.co.za" "/jobs.html"
         (mkSelectors ".job-element" ".job-title a" ".company" ".location"
                      ".salary" ".description" ".date" ".job-title a");
     "careers24" :=
       mkSiteConfig "Careers24" "https://www.careers24.com" "/jobs"
         (mkSelectors ".job-card" ".job-title a" ".company-name" ".job-location"
                      ".salary" ".job-description" ".post-date" ".job-title a") ]}.

Definition initialize (w : World) : M Browser :=
  st <- get ;;
  match (if isInitialized st then browser st else None) with
  | Some b => ret b
  | None =>
      tryCatch
        (emit EvLaunch ;;; b <- lift (launch w) ;; setBrowser (Some b) ;;;
         setInitialized true ;;; ret b)
        (fun error => setInitialized false ;;; throw error)
  end.

Definition close (w : World) : M unit :=
  st <- get ;;
  match browser st with
  | Some _ =>
      emit EvBrowserClose ;;; lift (closeBrowser w) ;;;
      setBrowser None ;;; setInitialized false
  | None => ret tt
  end.

Definition buildSearchUrl (w : World) (siteConfig : SiteConfig)
    (keywords location : string) : string :=
  let encodedKeywords := encodeURIComponent w keywords in
  let encodedLocation := encodeURIComponent w location in
  let base := url siteConfig ++ searchPath siteConfig in
  if String.eqb (name siteConfig) "Indeed South Africa"
  then base ++ "?q=" ++ encodedKeywords ++ "&l=" ++ encodedLocation ++ "&sort=date"
  else if String.eqb (name siteConfig) "PNet South Africa"
  then base ++ "?keywords=" ++ encodedKeywords ++ "&location=" ++ encodedLocation
  else if String.eqb (name siteConfig) "CareerJet South Africa"
  then base ++ "?s=" ++ encodedKeywords ++ "&l=" ++ encodedLocation
  else if String.eqb (name siteConfig) "Careers24"
  then base ++ "?keywords=" ++ encodedKeywords ++ "&location=" ++ encodedLocation
  else base ++ "?q=" ++ encodedKeywords ++ "&l=" ++ encodedLocation.

(** The callback of [jobElements.forEach]: the record pushed for a card, or
    nothing when the card lacks a title or company or its handling raises. *)
Definition extractCard (w : World) (config : SiteConfig) (card : Card) : option Raw.t :=
  let link :=
    match card_href card with
    | JStr l =>
        if truthy (JStr l) && negb (startsWith l "http")
        then match resolveUrl w l (url config) with
             | Return l' => Return (JStr l')
             | Throw e => Throw e
             end
        else Return (JStr l)
    | v => Return v
    end in
  match link with
  | Throw _ => None
  | Return link =>
      if truthy (card_title card) && truthy (card_company card)
      then Some (Raw.mk (card_title card) (card_company card)
                        (orElse (card_location card) (JStr "South Africa"))
                        (card_salary card) (card_summary card)
                        (orElse (card_date card) (JStr (today w)))
                        link (JStr (name config)) (JStr (nowISO w)))
      else None
  end.

Definition extractJobs (w : World) (config : SiteConfig) (cards : list Card)
    : list Raw.t :=
  omap (extractCard w config) cards.

(** [arr.slice(0, end)] for an integer [end]. *)
Definition slice0 {A : Type} (arr : list A) (finish : Z) : list A :=
  if (finish <? 0)%Z
  then take (Z.to_nat (Z.max (Z.of_nat (List.length arr) + finish) 0)) arr
  else take (Z.to_nat finish) arr.

(** [Math.ceil(a / b)] for integers [a] and [b > 0]. *)
Definition ceilDiv (a b : Z) : Z := (- ((- a) / b))%Z.

(** [scrapeSite]. The page is opened on [this.browser]; without a browser
    that is a [TypeError], and so is reading the name of a site that
    [jobSites] does not have, when the search URL is built. Every error is
    logged and raised again. *)
Definition scrapeSite (w : World) (site keywords location : string) (limit : Z)
    : M (list Raw.t) :=
  emit (EvScrapeSite site) ;;;
  st <- get ;;
  match browser st with
  | None => throw "Cannot read properties of null (reading 'newPage')"
  | Some _ =>
      lift (openPage w site) ;;;
      match jobSites !! site with
      | None => throw "Cannot read properties of undefined (reading 'name')"
      | Some siteConfig =>
          let searchUrl := buildSearchUrl w siteConfig keywords location in
          cards <- lift (readCards w siteConfig searchUrl) ;;
          ret (slice0 (extractJobs w siteConfig cards) limit)
      end
  end.

(** The fields [new Job({...})] is given for an enhanced record, as the
    object literal computes them, with the default of [isActive]; what the
    schema makes of them (its [trim] setters and the defaults of
    [salaryRange]) is [JobSchema.cast]. *)
Definition createJob (w : World) (enhancedJob : JobData) : Job.t :=
  Job.mk (title enhancedJob)
         (company enhancedJob)
         (orElse (description enhancedJob)
                 (orElse (summary enhancedJob) (JStr "No description available")))
         (location enhancedJob)
         (parseSalary (salary enhancedJob))
         (detectJobType enhancedJob)
         (detectExperienceLevel enhancedJob)
         (link enhancedJob)
         (Job.mkSource (source enhancedJob) (link enhancedJob)
                       (generateSignature w enhancedJob))
         (isRemoteJob enhancedJob)
         (detectCategories enhancedJob)
         (extractSkills enhancedJob)
         (parseDate (validDate w) (datePosted enhancedJob))
         (Job.mkMetadata (calculateQualityScore enhancedJob) 85)
         true.

(** One iteration of the loop of [processAndStoreJobs] on the [i]-th record:
    the document pushed, if any. Every failure is caught and skips the
    record. *)
Definition processJob (w : World) (i : nat) (jobData : Raw.t) : option Job.t :=
  match findOne w i (Raw.title jobData) (Raw.company jobData) (Raw.location jobData) with
  | Throw _ => None
  | Return (Some existingJob) =>
      if Job.isActive existingJob then Some existingJob else None
  | Return None =>
      let enhancedJob := enhanceJobData jobData in
      match persist w i (createJob w enhancedJob) with
      | Return job => Some job
      | Throw _ => None
      end
  end.

Fixpoint processFrom (w : World) (i : nat) (jobs : list Raw.t) : list Job.t :=
  match jobs with
  | [] => []
  | jobData :: rest =>
      match processJob w i jobData with
      | Some job => job :: processFrom w (S i) rest
      | None => processFrom w (S i) rest
      end
  end.

Definition processAndStoreJobs (w : World) (jobs : list Raw.t) : list Job.t :=
  processFrom w 0 jobs.

(** An entry of [errors]: [{ site, error }] on the normal path, the bare
    message on the failure path. *)
Inductive ErrorEntry : Type :=
  | SiteError (site : string) (error : string)
  | ErrorMessage (message : string).

Record RunResult : Type := mkRunResult {
  success : bool;
  error : option string;
  jobsFound : nat;
  jobs : list Job.t;
  errors : list ErrorEntry;
  statistics : option Stats.t
}.

(** Array lengths as numbers. *)
Definition ofLength (n : nat) : float :=
  PrimFloat.of_uint63 (Uint63.of_Z (Z.of_nat n)).

(** [x || 0]: [NaN] and the zeros are falsy. *)
Definition orZero (x : float) : float :=
  if PrimFloat.is_nan x || PrimFloat.is_zero x then 0%float else x.

(** [((processed / found) * 100) || 0] *)
Definition computeSuccessRate (processed found : nat) : float :=
  orZero (PrimFloat.mul (PrimFloat.div (ofLength processed) (ofLength found)) 100%float).

(** The [for (const site of sitesToScrape)] loop; [count] is
    [sitesToScrape.length]. *)
Fixpoint scrapeSites (w : World) (keywords location : string) (limit : Z)
    (count : nat) (sites : list string)
    (allJobs : list Raw.t) (errors : list ErrorEntry)
    : M (list Raw.t * list ErrorEntry) :=
  match sites with
  | [] => ret (allJobs, errors)
  | site :: rest =>
      acc <- tryCatch
               (siteJobs <- scrapeSite w site keywords location
                                       (ceilDiv limit (Z.of_nat count)) ;;
                ret ((allJobs ++ siteJobs)%list, errors))
               (fun siteError => ret (allJobs, (errors ++ [SiteError site siteError])%list)) ;;
      scrapeSites w keywords location limit count rest (fst acc) (snd acc)
  end.

Definition sitesToScrape : list string := ["indeed"; "pnet"; "careerjet"].

Definition scrapeJobs (w : World) (keywords location : string) (limit : Z)
    : M RunResult :=
  initialize w ;;;
  tryCatch
    (acc <- scrapeSites w keywords location limit (List.length sitesToScrape)
                        sitesToScrape [] [] ;;
     let allJobs := fst acc in
     let errors := snd acc in
     let uniqueJobs := deduplicateJobs allJobs in
     let processedJobs := processAndStoreJobs w (slice0 uniqueJobs limit) in
     st <- get ;;
     setStats (Stats.mk (Stats.totalJobsScraped (scrapingStats st) + List.length processedJobs)
                       (Some DateNow)
                       (List.length errors)
                       (computeSuccessRate (List.length processedJobs)
                                           (List.length allJobs))) ;;;
     auditLog "JOB_SCRAPING_COMPLETED" ;;;
     st' <- get ;;
     ret (mkRunResult true None (List.length processedJobs) processedJobs errors
                      (Some (scrapingStats st'))))
    (fun error =>
       auditLog "JOB_SCRAPING_FAILED" ;;;
       ret (mkRunResult false (Some error) 0 [] [ErrorMessage error] None)).

End ScrapingService.

(** ** Tables, readings of the specification and sample runs

    The tables and predicates the properties are stated with, the
    definitions that follow the words of the specification where the code is
    compared with them, and the concrete environments of the examples. *)

Module Spec.
Import JS Normalizer ScrapingService.

(** The categories of the job-type classifier in their priority order,
    each with the keywords the [if] chain of [detectJobType] tests for it. *)
Definition jobTypePriority : list (string * list string) :=
  [("part-time", ["part-time"; "part time"]);
   ("contract", ["contract"]);
   ("temporary", ["temporary"; "temp"]);
   ("internship", ["intern"; "graduate"]);
   ("remote", ["remote"; "work from home"]);
   ("hybrid", ["hybrid"])].

(** The same order with the keywords as the specification writes them:
    part-time, contract, temporary/temp, intern/graduate,
    remote/work-from-home, hybrid. *)
Definition claimedJobTypePriority : list (string * list string) :=
  [("part-time", ["part-time"]);
   ("contract", ["contract"]);
   ("temporary", ["temporary"; "temp"]);
   ("internship", ["intern"; "graduate"]);
   ("remote", ["remote"; "work-from-home"]);
   ("hybrid", ["hybrid"])].

(** The first category of a priority list with a keyword in the text. *)
Fixpoint firstCategory (text : string) (rules : list (string * list string))
    (default : string) : string :=
  match rules with
  | [] => default
  | (category, keywords) :: rest =>
      if someIncluded text keywords then category
      else firstCategory text rest default
  end.

(** The weights of the quality score. *)
Definition weight (b : bool) (points : Z) : Z := if b then points else 0%Z.

(** The sum of the weights, before the cap. *)
Definition weightSum (jobData : JobData) : Z :=
  (weight (truthy (title jobData) && truthy (company jobData)) 30
   + weight (truthy (description jobData)
             && (100 <? strLength (description jobData))%nat) 25
   + weight (truthy (salary jobData)) 20
   + weight (nonEmpty (skills jobData)) 15
   + weight (nonEmpty (categories jobData)) 10)%Z.

(** A field that is present: a string with at least one character. *)
Definition present (v : jsval) : bool :=
  match v with
  | JStr (String _ _) => true
  | _ => false
  end.

(** A description of more than 100 characters. *)
Definition longDescription (v : jsval) : bool :=
  match v with
  | JStr s => (101 <=? String.length s)%nat
  | _ => false
  end.

(** A list with at least one element. *)
Definition atLeastOne (arr : option (list string)) : bool :=
  match arr with
  | Some (_ :: _) => true
  | _ => false
  end.

(** The score as the specification states it: the salary weight is given
    for a salary that is disclosed. *)
Definition claimedScore (jobData : JobData) : Z :=
  Z.min (weight (present (title jobData) && present (company jobData)) 30
         + weight (longDescription (description jobData)) 25
         + weight (SalaryRange.isDisclosed (parseSalary (salary jobData))) 20
         + weight (atLeastOne (skills jobData)) 15
         + weight (atLeastOne (categories jobData)) 10)%Z
        100.


(** Two records have the same title, company and location up to case. *)
Definition sameTriple (a b : Raw.t) : Prop :=
  toLowerCase (tpl (Raw.title a)) = toLowerCase (tpl (Raw.title b))
  /\ toLowerCase (tpl (Raw.company a)) = toLowerCase (tpl (Raw.company b))
  /\ toLowerCase (tpl (Raw.location a)) = toLowerCase (tpl (Raw.location b)).

(** The fingerprint of a record: its title, company and location in lower
    case, joined by hyphens. *)
Definition fingerprint (job : Raw.t) : string :=
  toLowerCase (tpl (Raw.title job)) ++ "-" ++ toLowerCase (tpl (Raw.company job))
  ++ "-" ++ toLowerCase (tpl (Raw.location job)).

(** A field without a hyphen. *)
Definition hyphenFree (v : jsval) : Prop := ~ In "-"%char (chars (tpl v)).

(** The fingerprints of a batch. *)
Definition keysOf (jobs : list Raw.t) : gset string :=
  list_to_set (dedupKey <$> jobs).

(** What one source yields in a run, where the session is open: the records
    [scrapeSite] returns, or the message it raises. *)
Definition siteOutcome (w : World) (keywords location : string) (limit : Z)
    (site : string) : Result (list Raw.t) :=
  match openPage w site with
  | Throw e => Throw e
  | Return _ =>
      match jobSites !! site with
      | None => Throw "Cannot read properties of undefined (reading 'name')"
      | Some siteConfig =>
          match readCards w siteConfig
                          (buildSearchUrl w siteConfig keywords location) with
          | Return cards =>
              Return (slice0 (extractJobs w siteConfig cards)
                             (ceilDiv limit (Z.of_nat (List.length sitesToScrape))))
          | Throw e => Throw e
          end
      end
  end.

(** The raw records gathered across the sources, in source order. *)
Fixpoint gathered (w : World) (keywords location : string) (limit : Z)
    (sites : list string) : list Raw.t :=
  match sites with
  | [] => []
  | site :: rest =>
      match siteOutcome w keywords location limit site with
      | Return siteJobs => siteJobs ++ gathered w keywords location limit rest
      | Throw _ => gathered w keywords location limit rest
      end
  end.


(** One error entry per failing source, in source order. *)
Fixpoint failures (w : World) (keywords location : string) (limit : Z)
    (sites : list string) : list ErrorEntry :=
  match sites with
  | [] => []
  | site :: rest =>
      match siteOutcome w keywords location limit site with
      | Return _ => failures w keywords location limit rest
      | Throw e => SiteError site e :: failures w keywords location limit rest
      end
  end.

(** The service after it has logged further external calls. *)
Definition logged (st : State) (evs : list Event) : State :=
  mkState (browser st) (isInitialized st) (scrapingStats st) (events st ++ evs)%list.

(** The result and the final state of a run whose session started in state
    [st1]. *)
Definition completedStats (w : World) (keywords location : string) (limit : Z)
    (st1 : State) : Stats.t :=
  let allJobs := gathered w keywords location limit sitesToScrape in
  let processedJobs := processAndStoreJobs w (slice0 (deduplicateJobs allJobs) limit) in
  Stats.mk (Stats.totalJobsScraped (scrapingStats st1) + List.length processedJobs)
          (Some DateNow)
          (List.length (failures w keywords location limit sitesToScrape))
          (computeSuccessRate (List.length processedJobs) (List.length allJobs)).

Definition completedResult (w : World) (keywords location : string) (limit : Z)
    (st1 : State) : RunResult :=
  let allJobs := gathered w keywords location limit sitesToScrape in
  let processedJobs := processAndStoreJobs w (slice0 (deduplicateJobs allJobs) limit) in
  mkRunResult true None (List.length processedJobs) processedJobs
              (failures w keywords location limit sitesToScrape)
              (Some (completedStats w keywords location limit st1)).

Definition completedState (w : World) (keywords location : string) (limit : Z)
    (st1 : State) : State :=
  mkState (browser st1) (isInitialized st1)
          (completedStats w keywords location limit st1)
          (events st1 ++ [EvScrapeSite "indeed"; EvScrapeSite "pnet";
                          EvScrapeSite "careerjet"; EvAudit "JOB_SCRAPING_COMPLETED"])%list.

(** [foundCount]: the number of raw records gathered in a run. *)
Definition foundCount (w : World) (keywords location : string) (limit : Z) : nat :=
  List.length (gathered w keywords location limit sitesToScrape).

(** The success rate as the specification states it. *)
Definition ratio (processedCount foundCount : nat) : float :=
  if (foundCount =? 0)%nat then 0%float
  else PrimFloat.div (ofLength processedCount) (ofLength foundCount).

(** A card with a title and a company only. *)
Definition plainCard (t c : string) : Card :=
  mkCard (JStr t) (JStr c) JNull JNull JNull JNull JNull.

(** A run in which the browser starts, Indeed lists two jobs, PNet times
    out and CareerJet lists one job; the store knows none of them, saves the
    first and the third and fails on the second. *)
Definition partialWorld : World :=
  mkWorld (Return 7) (Return tt) (fun s => s) (fun _ => Return tt)
    (fun config _ =>
       if String.eqb (name config) "Indeed South Africa"
       then Return [plainCard "Developer" "Acme"; plainCard "Nurse" "Clinic"]
       else if String.eqb (name config) "PNet South Africa"
       then Throw "Navigation timeout of 30000 ms exceeded"
       else Return [plainCard "Teacher" "School"])
    (fun l _ => Return l) "2024-01-01" "2024-01-01T00:00:00.000Z"
    (fun _ => false) (fun _ => "c0ffee")
    (fun _ _ _ _ => Return None)
    (fun i job => if (i =? 1)%nat then Throw "validation failed" else Return job).

(** A run in which Indeed lists two jobs, the other sources none, and the
    store saves only the first. *)
Definition halfWorld : World :=
  mkWorld (Return 7) (Return tt) (fun s => s) (fun _ => Return tt)
    (fun config _ =>
       if String.eqb (name config) "Indeed South Africa"
       then Return [plainCard "Developer" "Acme"; plainCard "Nurse" "Clinic"]
       else Return [])
    (fun l _ => Return l) "2024-01-01" "2024-01-01T00:00:00.000Z"
    (fun _ => false) (fun _ => "c0ffee")
    (fun _ _ _ _ => Return None)
    (fun i job => if (i =? 0)%nat then Return job else Throw "validation failed").

(** A run in which the browser process cannot be started. *)
Definition launchFailsWorld : World :=
  mkWorld (Throw "Failed to launch the browser process") (Return tt) (fun s => s)
    (fun _ => Return tt)
    (fun _ _ => Return [])
    (fun l _ => Return l) "2024-01-01" "2024-01-01T00:00:00.000Z"
    (fun _ => false) (fun _ => "c0ffee")
    (fun _ _ _ _ => Return None)
    (fun _ job => Return job).

(** The same posting scraped from two sources in different letter case, and
    another posting. *)
Definition developerIndeed : Raw.t :=
  Raw.mk (JStr "Software Developer") (JStr "Acme") (JStr "Cape Town")
         (JStr "R 20,000 - R 30,000") (JStr "Build web applications with React and SQL.")
         (JStr "2 days ago") JNull (JStr "Indeed South Africa")
         (JStr "2024-01-01T00:00:00.000Z").

Definition developerPnet : Raw.t :=
  Raw.mk (JStr "SOFTWARE DEVELOPER") (JStr "ACME") (JStr "cape town")
         JNull JNull (JStr "today") JNull (JStr "PNet South Africa")
         (JStr "2024-01-01T00:00:00.000Z").

Definition nurseCareerjet : Raw.t :=
  Raw.mk (JStr "Nurse") (JStr "Clinic") (JStr "Durban")
         JNull JNull (JStr "today") JNull (JStr "CareerJet South Africa")
         (JStr "2024-01-01T00:00:00.000Z").

(** Two postings whose titles and companies split one hyphenated text
    differently. *)
Definition salesRepAtAcme : Raw.t :=
  Raw.mk (JStr "Sales-Rep") (JStr "Acme") (JStr "Durban")
         JNull JNull (JStr "today") JNull (JStr "Indeed South Africa")
         (JStr "2024-01-01T00:00:00.000Z").

Definition salesAtRepAcme : Raw.t :=
  Raw.mk (JStr "Sales") (JStr "Rep-Acme") (JStr "Durban")
         JNull JNull (JStr "today") JNull (JStr "PNet South Africa")
         (JStr "2024-01-01T00:00:00.000Z").

(** The developer posting at another company and in another town. *)
Definition developerAtBeta : Raw.t :=
  Raw.mk (JStr "Software Developer") (JStr "Beta") (JStr "Cape Town")
         JNull JNull (JStr "today") JNull (JStr "Indeed South Africa")
         (JStr "2024-01-01T00:00:00.000Z").

Definition developerInDurban : Raw.t :=
  Raw.mk (JStr "Software Developer") (JStr "Acme") (JStr "Durban")
         JNull JNull (JStr "today") JNull (JStr "Indeed South Africa")
         (JStr "2024-01-01T00:00:00.000Z").

(** A record whose only words for the job type are in its description. *)
Definition accountantPartTime : JobData :=
  mkJobData (JStr "Accountant") (JStr "Acme") (JStr "Durban") JNull JNull
            (JStr "today") JNull (JStr "PNet South Africa")
            (JStr "2024-01-01T00:00:00.000Z")
            (JStr "This is a part time position, three days a week") None None.

(** A title with the hyphenated keyword of the specification, and a title
    with the keyword the specification does not list. *)
Definition workFromHomeConsultant : JobData :=
  mkJobData (JStr "Work-From-Home Consultant") (JStr "Acme") (JStr "Durban") JNull
            JNull (JStr "today") JNull (JStr "PNet South Africa")
            (JStr "2024-01-01T00:00:00.000Z") JUndefined None None.

Definition partTimeCashier : JobData :=
  mkJobData (JStr "Part Time Cashier") (JStr "Acme") (JStr "Durban") JNull
            JNull (JStr "today") JNull (JStr "PNet South Africa")
            (JStr "2024-01-01T00:00:00.000Z") JUndefined None None.

(** A posting whose salary text names no amount. *)
Definition marketRelated : JobData :=
  mkJobData (JStr "Accountant") (JStr "Acme") (JStr "Durban") (JStr "Market related")
            JNull (JStr "today") JNull (JStr "PNet South Africa")
            (JStr "2024-01-01T00:00:00.000Z") JUndefined None None.



(** A record with every scored field filled in. *)
Definition fullRecord : JobData :=
  mkJobData (JStr "Senior Developer") (JStr "Acme") (JStr "Cape Town")
            (JStr "R 20,000 - R 30,000") JNull (JStr "today") JNull
            (JStr "Indeed South Africa") (JStr "2024-01-01T00:00:00.000Z")
            (JStr (JS.unchars (replicate 150 "x"%char)))
            (Some ["React"; "Sql"]) (Some ["IT"]).

End Spec.

(** ** Health check and continuous scraping *)

(** The object [healthCheck] returns. *)
Module Health.
Record t : Type := mk {
  status : string;
  browser : option string;
  error : option string;
  timestamp : Normalizer.jsdate
}.
End Health.

(** An entry of the [errors] array of [continuousScraping], and the object it
    returns. *)
Module Continuous.
Record Failure : Type := mkFailure {
  keyword : string;
  location : string;
  error : option string
}.
Record t : Type := mk {
  totalJobs : nat;
  errors : list Failure;
  statistics : ScrapingService.Stats.t
}.
End Continuous.

Module Drivers.
Import JS Normalizer ScrapingService.

(** [healthCheck]; [probe] is the outcome of opening a page, loading the
    probe URL and closing the page. *)
Definition healthCheck (w : World) (probe : Result unit) : M Health.t :=
  tryCatch
    (initialize w ;;; lift probe ;;;
     ret (Health.mk "healthy" (Some "connected") None DateNow))
    (fun error => ret (Health.mk "unhealthy" None (Some error) DateNow)).

Definition popularKeywords : list string :=
  ["software developer"; "data analyst"; "project manager"; "marketing specialist";
   "sales representative"; "customer service"; "accountant"; "engineer"; "teacher";
   "nurse"; "graphic designer"; "administrator"].

Definition locations : list string :=
  ["Johannesburg"; "Cape Town"; "Durban"; "Pretoria"; "Port Elizabeth";
   "Bloemfontein"; "East London"; "South Africa"].

(** The body of the inner loop for one keyword and location; [worlds] gives
    the environment in which the run for that pair takes place. *)
Definition scrapePair (worlds : string -> string -> World) (keyword location : string)
    (allJobs : list Job.t) (errors : list Continuous.Failure)
    : M (list Job.t * list Continuous.Failure) :=
  tryCatch
    (result <- scrapeJobs (worlds keyword location) keyword location 10 ;;
     if success result
     then ret ((allJobs ++ jobs result)%list, errors)
     else ret (allJobs,
               (errors ++ [Continuous.mkFailure keyword location (error result)])%list))
    (fun message =>
       ret (allJobs,
            (errors ++ [Continuous.mkFailure keyword location (Some message)])%list)).

Fixpoint scanLocations (worlds : string -> string -> World) (keyword : string)
    (locs : list string) (allJobs : list Job.t) (errors : list Continuous.Failure)
    : M (list Job.t * list Continuous.Failure) :=
  match locs with
  | [] => ret (allJobs, errors)
  | location :: rest =>
      acc <- scrapePair worlds keyword location allJobs errors ;;
      scanLocations worlds keyword rest (fst acc) (snd acc)
  end.

Fixpoint scanKeywords (worlds : string -> string -> World) (keywords locs : list string)
    (allJobs : list Job.t) (errors : list Continuous.Failure)
    : M (list Job.t * list Continuous.Failure) :=
  match keywords with
  | [] => ret (allJobs, errors)
  | keyword :: rest =>
      acc <- scanLocations worlds keyword locs allJobs errors ;;
      scanKeywords worlds rest locs (fst acc) (snd acc)
  end.

Definition continuousScraping (worlds : string -> string -> World) : M Continuous.t :=
  acc <- scanKeywords worlds popularKeywords locations [] [] ;;
  auditLog "CONTINUOUS_SCRAPING_COMPLETED" ;;;
  st <- get ;;
  ret (Continuous.mk (List.length (fst acc)) (snd acc) (scrapingStats st)).

End Drivers.

(** ** The job schema *)

(** The parts of [models/Job.js] that meet the documents the service
    creates: the enumerations of the schema, the quality score the model
    computes and the remote detection of the pre-save hook. *)
Module JobSchema.
Import JS Normalizer.

Definition jobTypeEnum : list string :=
  ["full-time"; "part-time"; "contract"; "temporary"; "internship"; "remote"; "hybrid"].

Definition experienceLevelEnum : list string :=
  ["entry"; "mid"; "senior"; "executive"; "not-specified"].

Definition periodEnum : list string :=
  ["hourly"; "daily"; "weekly"; "monthly"; "yearly"].

(** The fields the model's score reads that [new Job] in the service does
    not set. *)
Record Details : Type := mkDetails {
  requirements : list string;
  responsibilities : list string;
  benefits : list string;
  contactEmail : jsval;
  contactPhone : jsval
}.

Definition noDetails : Details := mkDetails [] [] [] JUndefined JUndefined.

(** The score [jobSchema.methods.calculateQualityScore] stores. *)
Definition calculateQualityScore (job : Job.t) (details : Details) : Z :=
  let score := 0%Z in
  let score :=
    if truthy (Job.title job) && truthy (Job.company job) && truthy (Job.description job)
    then (score + 30)%Z else score in
  let score :=
    if SalaryRange.isDisclosed (Job.salaryRange job) then (score + 20)%Z else score in
  let score :=
    if (0 <? List.length (requirements details))%nat then (score + 15)%Z else score in
  let score :=
    if (0 <? List.length (responsibilities details))%nat then (score + 15)%Z else score in
  let score :=
    if (0 <? List.length (benefits details))%nat then (score + 10)%Z else score in
  let score :=
    if truthy (contactEmail details) || truthy (contactPhone details)
    then (score + 10)%Z else score in
  Z.min score 100.

(** The setter [trim: true] of a string path: a string is trimmed, [null]
    and [undefined] are kept. *)
Definition trimValue (v : jsval) : jsval :=
  match v with
  | JStr s => JStr (trim s)
  | _ => v
  end.

(** The [salaryRange] paths without a value take their defaults. *)
Definition salaryDefaults (range : SalaryRange.t) : SalaryRange.t :=
  SalaryRange.mk (SalaryRange.min range) (SalaryRange.max range)
                 (Some (default "ZAR" (SalaryRange.currency range)))
                 (Some (default "monthly" (SalaryRange.period range)))
                 (SalaryRange.isDisclosed range).

(** What [new Job(fields)] holds for the fields the service passes: the
    paths declared with [trim: true] are trimmed and the defaults of
    [salaryRange] are filled in. The validators ([required], [enum], [min],
    [max]) run at [save]. *)
Definition cast (fields : Job.t) : Job.t :=
  Job.mk (trimValue (Job.title fields))
         (trimValue (Job.company fields))
         (trimValue (Job.description fields))
         (trimValue (Job.location fields))
         (salaryDefaults (Job.salaryRange fields))
         (Job.jobType fields)
         (Job.experienceLevel fields)
         (trimValue (Job.applicationUrl fields))
         (Job.mkSource (trimValue (Job.website (Job.source fields)))
                       (trimValue (Job.url (Job.source fields)))
                       (Job.scrapedId (Job.source fields)))
         (Job.isRemote fields)
         (trim <$> Job.categories fields)
         (trim <$> Job.skills fields)
         (Job.postedDate fields)
         (Job.metadata fields)
         (Job.isActive fields).

(** [isRemote] after the remote detection of the pre-save hook. *)
Definition remoteAfterSave (job : Job.t) : bool :=
  let location := toLowerCase (tpl (Job.location job)) in
  if truthy (Job.location job)
     && (includes location "remote" || includes location "anywhere"
         || includes location "virtual")
  then true
  else Job.isRemote job.

End JobSchema.

(** ** Further tables and predicates of the properties *)

Module Tables.
Import JS Normalizer ScrapingService.

(** The priority order of the experience-level classifier. *)
Definition experiencePriority : list (string * list string) :=
  [("entry", ["junior"; "entry level"; "graduate"]);
   ("senior", ["senior"; "lead"; "principal"; "head of"]);
   ("executive", ["executive"; "director"; "vp"; "c-level"]);
   ("mid", ["mid"; "intermediate"])].

(** Every character of a string satisfies a test. *)
Definition allChars (p : ascii -> bool) (s : string) : bool := forallb p (chars s).

(** A string with a character that is not white space. *)
Definition notBlank (v : jsval) : bool :=
  match v with
  | JStr s => negb (allChars is_space s)
  | _ => false
  end.

(** The description the service passes to [new Job]: the record's
    description, else its summary, else the fixed text. *)
Definition descriptionGiven (enhancedJob : JobData) : jsval :=
  orElse (description enhancedJob)
         (orElse (summary enhancedJob) (JStr "No description available")).

(** A posting whose summary is white space, as [enhanceJobData] returns
    it. *)
Definition blankSummary : JobData :=
  enhanceJobData
    (Raw.mk (JStr "Accountant") (JStr "Acme") (JStr "Durban") JNull (JStr "   ")
            (JStr "today") JNull (JStr "PNet South Africa")
            (JStr "2024-01-01T00:00:00.000Z")).

(** A captured amount: a digit followed by digits and commas. *)
Definition amountLike (g : string) : Prop :=
  exists d tail,
    g = String d tail /\ is_digit d = true
    /\ allChars (fun a => is_digit a || Ascii.eqb a ","%char) tail = true.

(** A captured period word: it starts with one of the letters m, y, a in
    either case. *)
Definition periodWordLike (g : string) : Prop :=
  exists a tail,
    g = String a tail
    /\ (lower_char a = "m"%char \/ lower_char a = "y"%char \/ lower_char a = "a"%char).

(** The last character of a string, if any. *)
Fixpoint lastChar (s : string) : option ascii :=
  match s with
  | EmptyString => None
  | String c EmptyString => Some c
  | String _ s' => lastChar s'
  end.

Definition firstChar (s : string) : option ascii :=
  match s with
  | EmptyString => None
  | String c _ => Some c
  end.

(** A regular expression without capturing groups. *)
Fixpoint groupFree (r : Regex.re) : bool :=
  match r with
  | Regex.Eps | Regex.Chr _ | Regex.Star _ => true
  | Regex.Cat r1 r2 | Regex.Alt r1 r2 => groupFree r1 && groupFree r2
  | Regex.Grp _ _ => false
  end.

(** The session is open: a browser is recorded and the service is
    initialised. *)
Definition sessionOpen (st : State) (b : Browser) : Prop :=
  browser st = Some b /\ isInitialized st = true.

(** The failures of a continuous scan in which every run fails with the same
    message. *)
Definition allPairsFail (keywords locs : list string) (message : string)
    : list Continuous.Failure :=
  flat_map (fun keyword =>
              map (fun location => Continuous.mkFailure keyword location (Some message))
                  locs)
           keywords.

(** An environment in which every source raises. *)
Definition allSourcesDownWorld : World :=
  mkWorld (Return 7) (Return tt) (fun s => s) (fun _ => Return tt)
    (fun _ _ => Throw "net::ERR_CONNECTION_REFUSED")
    (fun l _ => Return l) "2024-01-01" "2024-01-01T00:00:00.000Z"
    (fun _ => false) (fun _ => "c0ffee")
    (fun _ _ _ _ => Return None)
    (fun _ job => Return job).

(** An environment in which the browser starts but cannot be closed. *)
Definition stuckBrowserWorld : World :=
  mkWorld (Return 7) (Throw "Protocol error: Target closed") (fun s => s)
    (fun _ => Return tt)
    (fun _ _ => Return [])
    (fun l _ => Return l) "2024-01-01" "2024-01-01T00:00:00.000Z"
    (fun _ => false) (fun _ => "c0ffee")
    (fun _ _ _ _ => Return None)
    (fun _ job => Return job).

End Tables.

(** ** The audit logger's sanitisers *)

(** [AuditLogger.sanitizeRequestBody] and [sanitizeResponseBody], which
    [AuditLogger.log] applies to the bodies it is given. An object is a map
    from property names to values; the values are any type with the two
    tests the code makes on them. *)
Module AuditLogger.

Section Sanitizers.

Variable V : Type.
(** truthiness of a value, and whether it is [undefined] *)
Variable truthyV : V -> bool.
Variable isUndefined : V -> bool.
(** the string ['***REDACTED***'] as a value *)
Variable redacted : V.

Definition sensitiveFields : list string :=
  ["password"; "token"; "creditCard"; "cvv"; "apiKey"; "secret"; "authorization"].

(** The callback of [sensitiveFields.forEach]. *)
Definition redactField (sanitized : gmap string V) (field : string) : gmap string V :=
  match sanitized !! field with
  | Some v => if truthyV v then <[field := redacted]> sanitized else sanitized
  | None => sanitized
  end.

(** [sanitizeRequestBody] on a falsy body ([None], returned as it is) or on
    an object. *)
Definition sanitizeRequestBody (body : option (gmap string V))
    : option (gmap string V) :=
  match body with
  | None => None
  | Some fields => Some (fold_left redactField sensitiveFields fields)
  end.

Definition safeFields : list string := ["success"; "message"; "id"; "count"; "status"].

(** The callback of [safeFields.forEach]. *)
Definition copyField (body sanitized : gmap string V) (field : string)
    : gmap string V :=
  match body !! field with
  | Some v => if isUndefined v then sanitized else <[field := v]> sanitized
  | None => sanitized
  end.

(** A response body: falsy, an object, or another truthy value. *)
Inductive Body : Type :=
  | Falsy
  | Object (fields : gmap string V)
  | Other.

(** What [sanitizeResponseBody] returns: the falsy body itself, the object
    of the safe fields, or the string ['***RESPONSE_BODY***']. *)
Inductive Sanitized : Type :=
  | Unchanged
  | SafeObject (fields : gmap string V)
  | Placeholder.

Definition sanitizeResponseBody (body : Body) : Sanitized :=
  match body with
  | Falsy => Unchanged
  | Object fields => SafeObject (fold_left (copyField fields) safeFields ∅)
  | Other => Placeholder
  end.

(** The value of a property after redaction. *)
Definition redactValue (v : option V) : option V :=
  match v with
  | Some x => Some (if truthyV x then redacted else x)
  | None => None
  end.

End Sanitizers.

End AuditLogger.

(** * Properties *)

Import JS Normalizer ScrapingService Spec Drivers Tables.

(** ** Strings *)

Section Strings.

Lemma toLowerCase_app (a b : string) :
  toLowerCase (a ++ b) = toLowerCase a ++ toLowerCase b.
Proof.
  induction a as [|c a IH]; simpl; [reflexivity|].
  now rewrite IH.
Qed.

Lemma startsWith_app (s t k : string) :
  startsWith s k = true -> startsWith (s ++ t) k = true.
Proof.
  revert k; induction s as [|c s IH]; intros [|a k]; simpl.
  - intros _. destruct t; reflexivity.
  - discriminate.
  - reflexivity.
  - destruct (Ascii.eqb a c); [apply IH|discriminate].
Qed.

Lemma includes_app_l (s t k : string) :
  includes s k = true -> includes (s ++ t) k = true.
Proof.
  induction s as [|c s IH].
  - destruct k; [|discriminate]. intros _. destruct t; reflexivity.
  - change (String c s ++ t) with (String c (s ++ t)).
    cbn [includes]. intros [H|H]%orb_true_iff.
    + apply (startsWith_app _ t) in H.
      change (String c s ++ t) with (String c (s ++ t)) in H. now rewrite H.
    + rewrite (IH H). apply orb_true_r.
Qed.





Lemma string_app_assoc (a b c : string) : (a ++ b) ++ c = a ++ b ++ c.
Proof.
  induction a as [|x a IH]; [reflexivity|].
  change ((String x a ++ b) ++ c) with (String x ((a ++ b) ++ c)).
  now rewrite IH.
Qed.


Lemma string_app_nil_r (a : string) : a ++ "" = a.
Proof.
  induction a as [|x a IH]; [reflexivity|].
  change (String x a ++ "") with (String x (a ++ "")). now rewrite IH.
Qed.


Lemma chars_unchars (l : list ascii) : chars (unchars l) = l.
Proof. induction l as [|c l IH]; cbn; [reflexivity|now rewrite IH]. Qed.


Lemma unchars_chars (s : string) : unchars (chars s) = s.
Proof. induction s as [|c s IH]; cbn; [reflexivity|now rewrite IH]. Qed.


Lemma includes_app_r (s t k : string) :
  includes t k = true -> includes (s ++ t) k = true.
Proof.
  intros H. induction s as [|c s IH]; [exact H|].
  change (String c s ++ t) with (String c (s ++ t)). cbn [includes].
  rewrite IH. apply orb_true_r.
Qed.

End Strings.

(** ** Numbers *)

Section Numbers.

Lemma compare_cont_antisym (p q : positive) :
  Pos.compare_cont Eq q p = CompOpp (Pos.compare_cont Eq p q).
Proof. now rewrite (Pos.compare_cont_antisym p q Eq). Qed.

Lemma SFcompare_antisym (a b : number) (c : comparison) :
  SFcompare a b = Some c -> SFcompare b a = Some (CompOpp c).
Proof.
  destruct a as [sa|sa| |sa ma ea], b as [sb|sb| |sb mb eb]; cbn;
    try discriminate; intros [= <-]; try (destruct sa, sb; reflexivity);
    try (destruct sa; reflexivity); try (destruct sb; reflexivity).
  f_equal. destruct sa, sb; try reflexivity.
  - rewrite (Z.compare_antisym ea eb), (compare_cont_antisym ma mb).
    destruct (ea ?= eb)%Z; cbn; try reflexivity.
  - rewrite (Z.compare_antisym ea eb), (compare_cont_antisym ma mb).
    destruct (ea ?= eb)%Z; cbn; try reflexivity.
Qed.

Lemma SFcompare_refl (a : number) : isNumber a = true -> SFcompare a a = Some Eq.
Proof.
  destruct a as [s|s| |s m e]; cbn; try discriminate; intros _.
  - reflexivity.
  - now destruct s.
  - rewrite Z.compare_refl.
    change (Pos.compare_cont Eq m m) with (Pos.compare m m).
    rewrite Pos.compare_refl. now destruct s.
Qed.

Lemma SFcompare_isNumber (a b : number) :
  isNumber a = true -> isNumber b = true -> exists c, SFcompare a b = Some c.
Proof.
  destruct a, b; cbn; try discriminate; eauto.
Qed.

Lemma mathMin_le_mathMax (a b : number) :
  isNumber a = true -> isNumber b = true ->
  SFleb (mathMin a b) (mathMax a b) = true.
Proof.
  intros Ha Hb. destruct (SFcompare_isNumber a b Ha Hb) as [c Hc].
  pose proof (SFcompare_antisym a b c Hc) as Hc'.
  unfold mathMin, mathMax, SFleb. rewrite Hc. destruct c; cbn in Hc'.
  - destruct a as [[]|sa| |sa ma ea]; try discriminate Ha;
      rewrite ?Hc, ?Hc', ?(SFcompare_refl _ Hb); try reflexivity.
    all: rewrite ?SFcompare_refl; reflexivity.
  - now rewrite Hc.
  - now rewrite Hc'.
Qed.

Lemma mathMin_cases (a b : number) :
  isNumber a = true -> isNumber b = true -> mathMin a b = a \/ mathMin a b = b.
Proof.
  intros Ha Hb. destruct (SFcompare_isNumber a b Ha Hb) as [c Hc].
  unfold mathMin. rewrite Hc. destruct c; auto. destruct a as [[]| | |]; auto.
Qed.

Lemma mathMax_cases (a b : number) :
  isNumber a = true -> isNumber b = true -> mathMax a b = a \/ mathMax a b = b.
Proof.
  intros Ha Hb. destruct (SFcompare_isNumber a b Ha Hb) as [c Hc].
  unfold mathMax. rewrite Hc. destruct c; auto. destruct a as [[]| | |]; auto.
Qed.

Lemma mathMin_same (a : number) : isNumber a = true -> mathMin a a = a.
Proof.
  intros Ha. unfold mathMin. rewrite (SFcompare_refl a Ha). now destruct a as [[]| | |].
Qed.

Lemma mathMax_same (a : number) : isNumber a = true -> mathMax a a = a.
Proof.
  intros Ha. unfold mathMax. rewrite (SFcompare_refl a Ha). now destruct a as [[]| | |].
Qed.

Lemma notNegative_isNumber (x : number) : notNegative x = true -> isNumber x = true.
Proof. now destruct x. Qed.

Lemma zero_le_notNegative (x : number) :
  notNegative x = true -> SFleb (ofZ 0) x = true.
Proof. destruct x as [s|[]| |[] m e]; cbn; try discriminate; reflexivity. Qed.

Lemma numOr_notNegative (n d : number) :
  (isNumber n = true -> notNegative n = true) -> notNegative d = true ->
  notNegative (numOr n d) = true.
Proof.
  intros Hn Hd. destruct n as [s|s| |s m e]; cbn [numOr]; auto.
Qed.

(** Rounding an integer that is not negative gives a number that is not
    negative. *)
Lemma iter_pos_invariant {A : Type} (P : A -> Prop) (f : A -> A) :
  (forall x, P x -> P (f x)) -> forall n x, P x -> P (SpecFloat.iter_pos f n x).
Proof.
  intros Hf. induction n as [n IH|n IH|]; intros x Hx; cbn [SpecFloat.iter_pos]; auto.
Qed.

Lemma shr_1_nonneg (r : shr_record) : (0 <= shr_m r)%Z -> (0 <= shr_m (shr_1 r))%Z.
Proof.
  destruct r as [m r s]. cbn [shr_m]. intros H.
  destruct m as [|[p|p|]|p]; cbn; lia.
Qed.

Lemma shr_fexp_nonneg (m e : Z) (l : SpecFloat.location) :
  (0 <= m)%Z -> (0 <= shr_m (fst (shr_fexp prec emax m e l)))%Z.
Proof.
  intros H. unfold shr_fexp, shr.
  assert (H0 : (0 <= shr_m (shr_record_of_loc m l))%Z).
  { now destruct l as [|[]]. }
  destruct (fexp prec emax (Zdigits2 m + e) - e)%Z as [|p|p]; cbn [fst]; auto.
  apply (iter_pos_invariant (fun r => (0 <= shr_m r)%Z)); [apply shr_1_nonneg|exact H0].
Qed.

Lemma round_nearest_even_nonneg (m : Z) (l : SpecFloat.location) :
  (0 <= m)%Z -> (0 <= round_nearest_even m l)%Z.
Proof.
  intros H. destruct l as [|[]]; cbn; try lia. destruct (Z.even m); lia.
Qed.

Lemma binary_round_aux_notNegative (m e : Z) (l : SpecFloat.location) :
  (0 <= m)%Z -> notNegative (binary_round_aux prec emax false m e l) = true.
Proof.
  intros H. unfold binary_round_aux.
  pose proof (shr_fexp_nonneg m e l H) as H1.
  destruct (shr_fexp prec emax m e l) as [mrs' e'] eqn:E1. cbn [fst] in H1.
  pose proof (shr_fexp_nonneg _ e' loc_Exact
                (round_nearest_even_nonneg _ (loc_of_shr_record mrs') H1)) as H2.
  destruct (shr_fexp prec emax _ e' loc_Exact) as [mrs'' e''] eqn:E2. cbn [fst] in H2.
  destruct (shr_m mrs'') as [|p|p]; [reflexivity| |lia].
  now destruct (e'' <=? emax - prec)%Z.
Qed.

Lemma ofZ_notNegative (z : Z) : (0 <= z)%Z -> notNegative (ofZ z) = true.
Proof.
  intros H. unfold ofZ, binary_normalize. destruct z as [|p|p]; [reflexivity| |lia].
  unfold binary_round.
  destruct (shl_align p 0 (fexp prec emax (Z.pos (digits2_pos p) + 0))) as [mz ez].
  apply binary_round_aux_notNegative. lia.
Qed.

End Numbers.

(** ** Salary parser *)

Section SalaryParser.

Lemma tryFormats_disclosed (fs : list Regex.re) (text : string) :
  SalaryRange.isDisclosed (tryFormats fs text) = true ->
  exists f c, In f fs /\ Regex.exec f text = Some c
              /\ tryFormats fs text = salaryOfMatch text c.
Proof.
  induction fs as [|f fs IH]; simpl; [discriminate|].
  destruct (Regex.exec f text) as [c|] eqn:E.
  - intros _. exists f, c. auto.
  - intros H. destruct (IH H) as (f' & c & Hin & He & Ht). exists f', c. auto.
Qed.

End SalaryParser.

(** ** Captures of the salary formats *)

Section Captures.

Lemma allChars_app (p : ascii -> bool) (a b : string) :
  allChars p a = true -> allChars p b = true -> allChars p (a ++ b) = true.
Proof.
  unfold allChars. induction a as [|c a IH]; [intros _ H; exact H|].
  change (String c a ++ b) with (String c (a ++ b)). cbn [chars forallb].
  intros [Hc Ha]%andb_true_iff Hb. now rewrite Hc, IH.
Qed.

Lemma allChars_weaken (p q : ascii -> bool) (a : string) :
  (forall c, p c = true -> q c = true) -> allChars p a = true -> allChars q a = true.
Proof.
  intros Hpq. unfold allChars. induction a as [|c a IH]; [reflexivity|].
  cbn [chars forallb]. intros [Hc Ha]%andb_true_iff. now rewrite (Hpq c Hc), IH.
Qed.

Lemma string_length_app (a b : string) :
  String.length (a ++ b) = String.length a + String.length b.
Proof.
  induction a as [|c a IH]; [reflexivity|].
  change (String c a ++ b) with (String c (a ++ b)). cbn [String.length].
  now rewrite IH.
Qed.

Lemma chars_app (a b : string) : chars (a ++ b) = (chars a ++ chars b)%list.
Proof.
  induction a as [|c a IH]; [reflexivity|].
  change (String c a ++ b) with (String c (a ++ b)). cbn [chars app].
  now rewrite IH.
Qed.

Lemma chars_length (a : string) : List.length (chars a) = String.length a.
Proof. induction a as [|c a IH]; cbn; [reflexivity|now rewrite IH]. Qed.

Lemma consumed_app (pre rest : string) : Regex.consumed (pre ++ rest) rest = pre.
Proof.
  unfold Regex.consumed. rewrite string_length_app, chars_app.
  replace (String.length pre + String.length rest - String.length rest)
    with (List.length (chars pre)) by (rewrite chars_length; lia).
  now rewrite take_app_length, unchars_chars.
Qed.

Lemma star_inv {A : Type} (p : ascii -> bool) (s : string)
    (k : string -> option A) (x : A) :
  Regex.star p s k = Some x ->
  exists pre rest, s = pre ++ rest /\ allChars p pre = true /\ k rest = Some x.
Proof.
  induction s as [|a s IH]; cbn [Regex.star].
  - intros H. now exists "", "".
  - destruct (p a) eqn:Ea; [|intros H; now exists "", (String a s)].
    destruct (Regex.star p s k) as [y|] eqn:Es.
    + intros [= <-]. destruct (IH eq_refl) as (pre & rest & -> & Hp & Hk).
      exists (String a pre), rest. repeat split; [|exact Hk].
      unfold allChars in *. cbn [chars forallb]. now rewrite Ea, Hp.
    + intros H. now exists "", (String a s).
Qed.

Lemma chr_inv (p : ascii -> bool) (s : string) (c : Regex.caps)
    (k : string -> Regex.caps -> option Regex.caps) (x : Regex.caps) :
  Regex.run (Regex.Chr p) s c k = Some x ->
  exists a rest, s = String a rest /\ p a = true /\ k rest c = Some x.
Proof.
  cbn [Regex.run]. destruct s as [|a s]; [discriminate|].
  destruct (p a) eqn:E; [|discriminate]. intros H. now exists a, s.
Qed.

Lemma run_groupFree (r : Regex.re) (s : string) (c : Regex.caps)
    (k : string -> Regex.caps -> option Regex.caps) (x : Regex.caps) :
  Regex.run r s c k = Some x ->
  groupFree r = true ->
  exists pre rest, s = pre ++ rest /\ k rest c = Some x.
Proof.
  revert s c k x. induction r as [|p|p|r1 IH1 r2 IH2|r1 IH1 r2 IH2|i r IH];
    intros s c k x H Hg; cbn [Regex.run groupFree] in *.
  - now exists "", s.
  - apply chr_inv in H as (a & rest & -> & _ & H)
      || (destruct s as [|a s]; [discriminate|];
          destruct (p a); [|discriminate]; exists (String a ""), s; auto).
    exists (String a ""), rest. auto.
  - apply star_inv in H as (pre & rest & -> & _ & H). now exists pre, rest.
  - apply andb_true_iff in Hg as [Hg1 Hg2].
    apply IH1 in H as (pre1 & rest1 & -> & H); [|exact Hg1].
    apply IH2 in H as (pre2 & rest2 & -> & H); [|exact Hg2].
    exists (pre1 ++ pre2), rest2. now rewrite string_app_assoc.
  - apply andb_true_iff in Hg as [Hg1 Hg2].
    destruct (Regex.run r1 s c k) as [y|] eqn:E1.
    + injection H as ->. now apply IH1 in E1.
    + now apply IH2 in H.
  - discriminate Hg.
Qed.

Lemma cat_free (r1 r2 : Regex.re) (s : string) (c : Regex.caps)
    (k : string -> Regex.caps -> option Regex.caps) (x : Regex.caps) :
  Regex.run (Regex.Cat r1 r2) s c k = Some x ->
  groupFree r1 = true ->
  exists pre rest, s = pre ++ rest /\ Regex.run r2 rest c k = Some x.
Proof.
  cbn [Regex.run]. intros H Hg. exact (run_groupFree _ _ _ _ _ H Hg).
Qed.

Lemma grp_amount (i : nat) (s : string) (c : Regex.caps)
    (k : string -> Regex.caps -> option Regex.caps) (x : Regex.caps) :
  Regex.run (Regex.Grp i Regex.amount) s c k = Some x ->
  exists g rest, amountLike g /\ k rest ((i, g) :: c) = Some x.
Proof.
  unfold Regex.amount. cbn [Regex.run]. intros H.
  destruct s as [|a s]; [discriminate|].
  destruct (is_digit a) eqn:Ea; [|discriminate].
  apply star_inv in H as (p1 & r1 & -> & Hp1 & H).
  apply star_inv in H as (p2 & r2 & -> & Hp2 & H).
  exists (String a (p1 ++ p2)), r2. split.
  - exists a, (p1 ++ p2). split; [reflexivity|]. split; [exact Ea|].
    apply allChars_app; [|exact Hp2].
    apply (allChars_weaken is_digit); [|exact Hp1].
    intros ch Hc. now rewrite Hc.
  - rewrite <- H. do 3 f_equal.
    change (String a (p1 ++ p2 ++ r2)) with (String a "" ++ p1 ++ p2 ++ r2).
    rewrite <- !string_app_assoc. rewrite consumed_app.
    now rewrite string_app_assoc.
Qed.

Lemma cat_amount (i : nat) (r2 : Regex.re) (s : string) (c : Regex.caps)
    (k : string -> Regex.caps -> option Regex.caps) (x : Regex.caps) :
  Regex.run (Regex.Cat (Regex.Grp i Regex.amount) r2) s c k = Some x ->
  exists g rest, amountLike g /\ Regex.run r2 rest ((i, g) :: c) k = Some x.
Proof.
  intros H. change (Regex.run (Regex.Grp i Regex.amount) s c
                      (fun s' c' => Regex.run r2 s' c' k) = Some x) in H.
  now apply grp_amount in H.
Qed.

Lemma word_groupFree (w : string) : groupFree (Regex.word_i w) = true.
Proof.
  induction w as [|c w IH]; [reflexivity|].
  cbn [Regex.word_i]. destruct w; [reflexivity|].
  cbn [groupFree]. exact IH.
Qed.

Lemma word_inv (ch : ascii) (w s : string) (c : Regex.caps)
    (k : string -> Regex.caps -> option Regex.caps) (x : Regex.caps) :
  Regex.run (Regex.word_i (String ch w)) s c k = Some x ->
  exists a pre rest,
    s = String a (pre ++ rest) /\ lower_char a = ch /\ k rest c = Some x.
Proof.
  cbn [Regex.word_i]. destruct w as [|d w].
  - intros H. apply chr_inv in H as (a & rest & -> & Ha & H).
    exists a, "", rest. split; [reflexivity|]. split; [|exact H].
    now apply Ascii.eqb_eq.
  - intros H. cbn [Regex.run] in H.
    apply chr_inv in H as (a & rest & -> & Ha & H).
    apply run_groupFree in H as (pre & rest' & -> & H); [|apply word_groupFree].
    exists a, pre, rest'. split; [reflexivity|]. split; [|exact H].
    now apply Ascii.eqb_eq.
Qed.

Lemma grp_period (i : nat) (s : string) (c : Regex.caps)
    (k : string -> Regex.caps -> option Regex.caps) (x : Regex.caps) :
  Regex.run (Regex.Grp i (Regex.Alt (Regex.word_i "month")
                            (Regex.Alt (Regex.word_i "year") (Regex.word_i "annum"))))
            s c k = Some x ->
  exists g rest, periodWordLike g /\ k rest ((i, g) :: c) = Some x.
Proof.
  intros H.
  pose (k' := fun (s' : string) (c' : Regex.caps) =>
                k s' ((i, Regex.consumed s s') :: c')).
  change (match Regex.run (Regex.word_i "month") s c k' with
          | Some y => Some y
          | None =>
              match Regex.run (Regex.word_i "year") s c k' with
              | Some y => Some y
              | None => Regex.run (Regex.word_i "annum") s c k'
              end
          end = Some x) in H.
  assert (Hw : forall ch w y,
                 Regex.run (Regex.word_i (String ch w)) s c k' = Some y ->
                 (ch = "m"%char \/ ch = "y"%char \/ ch = "a"%char) ->
                 exists g rest, periodWordLike g /\ k rest ((i, g) :: c) = Some y).
  { clear H. intros ch w y H Hch.
    apply word_inv in H as (a & pre & rest & -> & Ha & H).
    exists (String a pre), rest. split.
    - exists a, pre. split; [reflexivity|]. now rewrite Ha.
    - rewrite <- H. unfold k'. do 3 f_equal.
      change (String a (pre ++ rest)) with (String a pre ++ rest).
      now rewrite consumed_app. }
  destruct (Regex.run (Regex.word_i "month") s c k') as [y|] eqn:E1.
  - injection H as ->. apply (Hw _ _ _ E1). now left.
  - destruct (Regex.run (Regex.word_i "year") s c k') as [y|] eqn:E2.
    + injection H as ->. apply (Hw _ _ _ E2). right. now left.
    + apply (Hw _ _ _ H). right. now right.
Qed.

Lemma exec_inv (r : Regex.re) (s : string) (x : Regex.caps) :
  Regex.exec r s = Some x ->
  exists s', Regex.run r s' [] (fun _ c => Some c) = Some x.
Proof.
  induction s as [|a s IH]; cbn [Regex.exec].
  - destruct (Regex.run r "" [] (fun _ c => Some c)) as [y|] eqn:E; [|discriminate].
    intros [= <-]. now exists "".
  - destruct (Regex.run r (String a s) [] (fun _ c => Some c)) as [y|] eqn:E.
    + intros [= <-]. now exists (String a s).
    + exact IH.
Qed.

Lemma rangeFormat_caps (text : string) (x : Regex.caps) :
  Regex.exec rangeFormat text = Some x ->
  exists g1 g2, x = [(2, g2); (1, g1)] /\ amountLike g1 /\ amountLike g2.
Proof.
  intros H. apply exec_inv in H as [s H].
  unfold rangeFormat in H. cbn [Regex.cat] in H.
  apply cat_free in H as (? & ? & _ & H); [|reflexivity].
  apply cat_free in H as (? & ? & _ & H); [|reflexivity].
  apply cat_amount in H as (g1 & ? & Hg1 & H).
  apply cat_free in H as (? & ? & _ & H); [|reflexivity].
  apply cat_free in H as (? & ? & _ & H); [|reflexivity].
  apply cat_free in H as (? & ? & _ & H); [|reflexivity].
  apply cat_free in H as (? & ? & _ & H); [|reflexivity].
  apply cat_free in H as (? & ? & _ & H); [|reflexivity].
  apply grp_amount in H as (g2 & ? & Hg2 & [= <-]).
  now exists g1, g2.
Qed.

Lemma singleFormat_caps (text : string) (x : Regex.caps) :
  Regex.exec singleFormat text = Some x ->
  exists g1 g2, x = [(2, g2); (1, g1)] /\ amountLike g1 /\ periodWordLike g2.
Proof.
  intros H. apply exec_inv in H as [s H].
  unfold singleFormat in H. cbn [Regex.cat] in H.
  apply cat_free in H as (? & ? & _ & H); [|reflexivity].
  apply cat_free in H as (? & ? & _ & H); [|reflexivity].
  apply cat_amount in H as (g1 & ? & Hg1 & H).
  apply cat_free in H as (? & ? & _ & H); [|reflexivity].
  apply cat_free in H as (? & ? & _ & H); [|reflexivity].
  apply cat_free in H as (? & ? & _ & H); [|reflexivity].
  apply grp_period in H as (g2 & ? & Hg2 & [= <-]).
  now exists g1, g2.
Qed.

Lemma bareFormat_caps (text : string) (x : Regex.caps) :
  Regex.exec bareFormat text = Some x ->
  exists g1 g2, x = [(2, g2); (1, g1)] /\ amountLike g1 /\ amountLike g2.
Proof.
  intros H. apply exec_inv in H as [s H].
  unfold bareFormat in H. cbn [Regex.cat] in H.
  apply cat_amount in H as (g1 & ? & Hg1 & H).
  apply cat_free in H as (? & ? & _ & H); [|reflexivity].
  apply cat_free in H as (? & ? & _ & H); [|reflexivity].
  apply cat_free in H as (? & ? & _ & H); [|reflexivity].
  apply cat_amount in H as (g2 & ? & Hg2 & H).
  apply cat_free in H as (? & ? & _ & H); [|reflexivity].
  apply run_groupFree in H as (? & ? & _ & [= <-]); [|reflexivity].
  now exists g1, g2.
Qed.

Lemma digitsValue_nonneg (s : string) (acc : Z) :
  (0 <= acc)%Z -> (0 <= digitsValue acc s)%Z.
Proof.
  revert acc; induction s as [|c s IH]; intros acc Ha; cbn [digitsValue];
    [exact Ha|].
  destruct (is_digit c) eqn:E; [|exact Ha].
  apply IH. unfold is_digit in E. apply andb_true_iff in E as [E1 _].
  apply Nat.leb_le in E1. lia.
Qed.

Lemma stripCommas_digits (s : string) :
  allChars (fun a => is_digit a || Ascii.eqb a ","%char) s = true ->
  allChars is_digit (stripCommas s) = true.
Proof.
  unfold allChars. induction s as [|c s IH]; [reflexivity|].
  cbn [chars forallb stripCommas]. intros [Hc Hs]%andb_true_iff.
  destruct (Ascii.eqb c ","%char); [now apply IH|].
  cbn [chars forallb]. rewrite orb_false_r in Hc. now rewrite Hc, IH.
Qed.

(** With its commas stripped, a captured amount is a run of digits. *)
Lemma stripCommas_amount (g : string) :
  amountLike g ->
  exists d rest,
    stripCommas g = String d rest /\ is_digit d = true /\ allChars is_digit rest = true.
Proof.
  intros (d & tail & -> & Hd & Ht). exists d, (stripCommas tail).
  split; [|split; [exact Hd|now apply stripCommas_digits]].
  cbn [stripCommas]. destruct (Ascii.eqb_spec d ","%char) as [->|]; [discriminate Hd|].
  reflexivity.
Qed.

(** A run of digits is read in base 10: its second character is no [x]. *)
Lemma parseInt_digits (d : ascii) (rest : string) :
  is_digit d = true -> allChars is_digit rest = true ->
  parseInt (String d rest) = ofZ (digitsValue 0 (String d rest)).
Proof.
  intros Hd Hr.
  destruct d as [[] [] [] [] [] [] [] []]; try discriminate Hd; try reflexivity.
  destruct rest as [|c r]; [reflexivity|].
  unfold allChars in Hr. cbn [chars forallb] in Hr. apply andb_true_iff in Hr as [Hc _].
  destruct c as [[] [] [] [] [] [] [] []]; try discriminate Hc; reflexivity.
Qed.

(** A captured amount converts to the number of its digits, which is not
    negative. *)
Lemma parseInt_amount (g : string) :
  amountLike g ->
  parseInt (stripCommas g) = ofZ (digitsValue 0 (stripCommas g))
  /\ notNegative (parseInt (stripCommas g)) = true.
Proof.
  intros H. destruct (stripCommas_amount g H) as (d & rest & -> & Hd & Hr).
  rewrite (parseInt_digits d rest Hd Hr). split; [reflexivity|].
  apply ofZ_notNegative, digitsValue_nonneg. lia.
Qed.

(** A captured period word converts to [NaN]. *)
Lemma parseInt_period (g : string) :
  periodWordLike g -> parseInt (stripCommas g) = S754_nan.
Proof.
  intros (a & tail & -> & Ha).
  destruct a as [[] [] [] [] [] [] [] []];
    try (exfalso; destruct Ha as [Ha|[Ha|Ha]]; vm_compute in Ha; discriminate Ha);
    reflexivity.
Qed.

Lemma formats_caps (f : Regex.re) (text : string) (c : Regex.caps) :
  In f formats -> Regex.exec f text = Some c ->
  exists g1 g2,
    c = [(2, g2); (1, g1)] /\ amountLike g1 /\ (amountLike g2 \/ periodWordLike g2).
Proof.
  unfold formats. cbn [In]. intros [<-|[<-|[<-|[]]]] He.
  - apply rangeFormat_caps in He as (g1 & g2 & -> & H1 & H2). exists g1, g2. auto.
  - apply singleFormat_caps in He as (g1 & g2 & -> & H1 & H2). exists g1, g2. auto.
  - apply bareFormat_caps in He as (g1 & g2 & -> & H1 & H2). exists g1, g2. auto.
Qed.

(** The two operands of a match are numbers that are not negative. *)
Lemma operands_notNegative (g1 g2 : string) :
  amountLike g1 ->
  amountLike g2 \/ periodWordLike g2 ->
  let a := numOr (parseInt (stripCommas g1)) (ofZ 0) in
  let b := numOr (parseInt (stripCommas g2)) a in
  notNegative a = true /\ notNegative b = true
  /\ (periodWordLike g2 -> b = a).
Proof.
  intros H1 H2. cbv zeta.
  assert (Ha : notNegative (numOr (parseInt (stripCommas g1)) (ofZ 0)) = true).
  { apply numOr_notNegative; [intros _; apply (parseInt_amount g1 H1)|reflexivity]. }
  split; [exact Ha|]. split.
  - apply numOr_notNegative; [|exact Ha]. destruct H2 as [H2|H2].
    + intros _. apply (parseInt_amount g2 H2).
    + rewrite (parseInt_period g2 H2). discriminate.
  - intros Hp. now rewrite (parseInt_period g2 Hp).
Qed.

Lemma salaryOfMatch_amounts (text g1 g2 : string) :
  amountLike g1 ->
  amountLike g2 \/ periodWordLike g2 ->
  let range := salaryOfMatch text [(2, g2); (1, g1)] in
  notNegative (SalaryRange.min range) = true
  /\ notNegative (SalaryRange.max range) = true
  /\ SFleb (SalaryRange.min range) (SalaryRange.max range) = true
  /\ (periodWordLike g2 -> SalaryRange.min range = SalaryRange.max range).
Proof.
  intros H1 H2. unfold salaryOfMatch. cbn [Regex.group Nat.eqb].
  cbn [SalaryRange.min SalaryRange.max].
  destruct (operands_notNegative g1 g2 H1 H2) as (Ha & Hb & Hp).
  set (a := numOr (parseInt (stripCommas g1)) (ofZ 0)) in *.
  set (b := numOr (parseInt (stripCommas g2)) a) in *.
  pose proof (notNegative_isNumber a Ha) as Na.
  pose proof (notNegative_isNumber b Hb) as Nb.
  split; [|split; [|split]].
  - destruct (mathMin_cases a b Na Nb) as [->| ->]; assumption.
  - destruct (mathMax_cases a b Na Nb) as [->| ->]; assumption.
  - now apply mathMin_le_mathMax.
  - intros Hg. rewrite (Hp Hg). now rewrite mathMin_same, mathMax_same.
Qed.

Lemma parseSalary_nonnegative_aux (salaryText : jsval) :
  SalaryRange.isDisclosed (parseSalary salaryText) = true ->
  notNegative (SalaryRange.min (parseSalary salaryText)) = true
  /\ notNegative (SalaryRange.max (parseSalary salaryText)) = true
  /\ SFleb (SalaryRange.min (parseSalary salaryText))
           (SalaryRange.max (parseSalary salaryText)) = true.
Proof.
  destruct salaryText as [| |text]; try discriminate.
  unfold parseSalary. destruct (truthy (JStr text)); [|discriminate].
  intros H. destruct (tryFormats_disclosed _ _ H) as (f & c & Hin & He & ->).
  destruct (formats_caps f text c Hin He) as (g1 & g2 & -> & H1 & H2).
  destruct (salaryOfMatch_amounts text g1 g2 H1 H2) as (Hmin & Hmax & Hle & _).
  auto.
Qed.

End Captures.

(** C4, as stated, fails: in "R 5000 - R 0" the range format captures the
    amounts 5000 and 0, whose minimum is 0, yet the parser returns 5000 for
    both bounds, because a second amount of 0 is replaced by the first. *)
Lemma parseSalary_second_amount_zero :
  Regex.exec rangeFormat "R 5000 - R 0" = Some [(2, "0"); (1, "5000")]
  /\ parseSalary (JStr "R 5000 - R 0")
     = SalaryRange.mk (ofZ 5000) (ofZ 5000) (Some "ZAR") (Some "monthly") true
  /\ mathMin (parseInt "5000") (parseInt "0") = ofZ 0
  /\ SalaryRange.min (parseSalary (JStr "R 5000 - R 0"))
     <> mathMin (parseInt "5000") (parseInt "0").
Proof.
  split; [vm_compute; reflexivity|]. split; [vm_compute; reflexivity|].
  split; [vm_compute; reflexivity|].
  vm_compute. discriminate.
Qed.

(** C4, amended. The salary parser tries the range, the single and the bare
    format in that order and the first one that matches decides the result.
    The first group of the match is an amount and the second an amount or
    the period word; their commas are stripped before they are converted.
    The first operand [a] is the first amount, the second operand [b] is the
    second amount when that is a number other than zero and [a] otherwise
    (as for the single format, whose second group is the period word); the
    bounds are the minimum and the maximum of [a] and [b], so a disclosed
    result has min <= max, and the currency is ZAR. The period is yearly
    when the lower-cased text mentions "year" or "annum" and monthly
    otherwise; absent, empty or non-matching text gives the undisclosed
    result. "R 20,000 - R 30,000", the same amounts in reverse order and
    "R 25,000 per annum" parse as expected. *)
Theorem parseSalary_contract :
  (forall v : jsval, truthy v = false -> parseSalary v = undisclosed)
  /\ (forall text : string, truthy (JStr text) = true ->
        parseSalary (JStr text) =
          match Regex.exec rangeFormat text with
          | Some c => salaryOfMatch text c
          | None =>
              match Regex.exec singleFormat text with
              | Some c => salaryOfMatch text c
              | None =>
                  match Regex.exec bareFormat text with
                  | Some c => salaryOfMatch text c
                  | None => undisclosed
                  end
              end
          end)
  /\ (forall text : string,
        Forall (fun f => Regex.exec f text = None) formats ->
        parseSalary (JStr text) = undisclosed)
  /\ (forall v : jsval, SalaryRange.isDisclosed (parseSalary v) = true ->
        exists text f g1 g2,
          v = JStr text /\ In f formats
          /\ Regex.exec f text = Some [(2, g2); (1, g1)]
          /\ amountLike g1 /\ (amountLike g2 \/ periodWordLike g2)
          /\ let a := numOr (parseInt (stripCommas g1)) (ofZ 0) in
             let b := numOr (parseInt (stripCommas g2)) a in
             SalaryRange.min (parseSalary v) = mathMin a b
             /\ SalaryRange.max (parseSalary v) = mathMax a b
             /\ SFleb (SalaryRange.min (parseSalary v)) (SalaryRange.max (parseSalary v))
                = true
             /\ (periodWordLike g2 -> b = a)
             /\ SalaryRange.currency (parseSalary v) = Some "ZAR"
             /\ SalaryRange.period (parseSalary v) =
                  Some (if includes (toLowerCase text) "year"
                           || includes (toLowerCase text) "annum"
                        then "yearly" else "monthly"))
  /\ parseSalary (JStr "R 20,000 - R 30,000")
     = SalaryRange.mk (ofZ 20000) (ofZ 30000) (Some "ZAR") (Some "monthly") true
  /\ parseSalary (JStr "R 30,000 - R 20,000")
     = SalaryRange.mk (ofZ 20000) (ofZ 30000) (Some "ZAR") (Some "monthly") true
  /\ parseSalary (JStr "R 25,000 per annum")
     = SalaryRange.mk (ofZ 25000) (ofZ 25000) (Some "ZAR") (Some "yearly") true
  /\ parseSalary (JStr "20000 - 30000 zar")
     = SalaryRange.mk (ofZ 20000) (ofZ 30000) (Some "ZAR") (Some "monthly") true.
Proof.
  split; [|split; [|split; [|split; [|split; [|split; [|split]]]]]].
  - intros [| |s] H; simpl in *; try reflexivity.
    unfold parseSalary. cbn [truthy]. now rewrite H.
  - intros text H. unfold parseSalary. rewrite H. unfold formats. cbn [tryFormats].
    reflexivity.
  - intros text H. unfold parseSalary.
    destruct (truthy (JStr text)); [|reflexivity].
    induction H as [|f fs Hf _ IH]; cbn [tryFormats]; [reflexivity|].
    now rewrite Hf.
  - intros v H. destruct v as [| |text]; try discriminate.
    pose proof (parseSalary_nonnegative_aux _ H) as (_ & _ & Hle).
    unfold parseSalary in *. destruct (truthy (JStr text)); [|discriminate].
    destruct (tryFormats_disclosed _ _ H) as (f & c & Hin & He & Ht).
    rewrite Ht in *.
    destruct (formats_caps f text c Hin He) as (g1 & g2 & -> & H1 & H2).
    exists text, f, g1, g2.
    split; [reflexivity|]. split; [exact Hin|]. split; [exact He|].
    split; [exact H1|]. split; [exact H2|]. cbv zeta.
    split; [reflexivity|]. split; [reflexivity|]. split; [exact Hle|].
    split; [apply (operands_notNegative g1 g2 H1 H2)|].
    split; reflexivity.
  - vm_compute. reflexivity.
  - vm_compute. reflexivity.
  - vm_compute. reflexivity.
  - vm_compute. reflexivity.
Qed.

(** The contract at a range written in reverse order and mentioning a
    year. *)
Lemma parseSalary_contract_witness :
  SalaryRange.isDisclosed (parseSalary (JStr "R 30,000 - R 20,000 per year")) = true
  /\ SFleb (SalaryRange.min (parseSalary (JStr "R 30,000 - R 20,000 per year")))
           (SalaryRange.max (parseSalary (JStr "R 30,000 - R 20,000 per year"))) = true
  /\ SalaryRange.period (parseSalary (JStr "R 30,000 - R 20,000 per year"))
     = Some "yearly".
Proof.
  split; [reflexivity|].
  destruct parseSalary_contract as (_ & _ & _ & H & _).
  destruct (H (JStr "R 30,000 - R 20,000 per year") eq_refl)
    as (text & f & g1 & g2 & E & _ & _ & _ & _ & _ & _ & Hle & _ & _ & Hp).
  split; [exact Hle|]. rewrite Hp. injection E as <-. reflexivity.
Defined.

(** The range format is tried first, even when a single amount comes
    earlier in the text. *)
Example parseSalary_range_before_single :
  parseSalary (JStr "R 5,000 per month or R 10,000 - R 20,000")
  = SalaryRange.mk (ofZ 10000) (ofZ 20000) (Some "ZAR") (Some "monthly") true.
Proof. vm_compute. reflexivity. Qed.

(** A text without an amount in one of the formats is undisclosed. *)
Example parseSalary_market_related :
  parseSalary (JStr "Market related") = undisclosed.
Proof. vm_compute. reflexivity. Qed.

(** An amount above 2^53 is rounded to the nearest number, and an amount
    beyond the largest number is an infinity; the bounds stay ordered. *)
Example parseSalary_large_amounts :
  parseSalary (JStr "R 9007199254740993 - R 1")
  = SalaryRange.mk (ofZ 1) (ofZ 9007199254740992) (Some "ZAR") (Some "monthly") true
  /\ SalaryRange.max (parseSalary (JStr ("R 1" ++ JS.unchars (replicate 400 "0"%char)
                                         ++ " - R 1")))
     = S754_infinity false.
Proof. split; vm_compute; reflexivity. Qed.

(** ** Job-type classifier *)

(** C5, as stated, fails on the keywords: the classifier looks for "work
    from home" written with spaces, so the title "Work-From-Home Consultant",
    which holds the keyword as the specification writes it, is full-time and
    not remote; and it also looks for "part time" written with a space, so
    "Part Time Cashier", which holds none of the keywords the specification
    lists, is part-time. *)
Lemma detectJobType_keywords_differ :
  firstCategory (toLowerCase (tpl (title workFromHomeConsultant) ++ " "
                              ++ tpl (description workFromHomeConsultant)))
                claimedJobTypePriority "full-time" = "remote"
  /\ detectJobType workFromHomeConsultant = "full-time"
  /\ firstCategory (toLowerCase (tpl (title partTimeCashier) ++ " "
                                 ++ tpl (description partTimeCashier)))
                   claimedJobTypePriority "full-time" = "full-time"
  /\ detectJobType partTimeCashier = "part-time".
Proof. repeat split; vm_compute; reflexivity. Qed.

(** C5, amended. The job type is the first category, in the order
    part-time ("part-time", "part time"), contract ("contract"), temporary
    ("temporary", "temp"), internship ("intern", "graduate"), remote
    ("remote", "work from home"), hybrid ("hybrid"), with a keyword in the
    lower-cased text made of the title, a space and the description, and
    full-time when there is none. A keyword found in the title or in the
    description selects its category when no earlier category has a keyword
    in the text; "Part-Time Accountant" is part-time, "Remote Backend
    Engineer" without a keyword of an earlier category is remote, and of two
    categories with a keyword in the text the earlier one is returned. *)
Theorem detectJobType_priority (jobData : JobData) :
  let text := toLowerCase (tpl (title jobData) ++ " " ++ tpl (description jobData)) in
  detectJobType jobData = firstCategory text jobTypePriority "full-time"
  /\ (Forall (fun rule => someIncluded text (snd rule) = false) jobTypePriority ->
      detectJobType jobData = "full-time")
  /\ (forall earlier category keywords later keyword,
        jobTypePriority = (earlier ++ (category, keywords) :: later)%list ->
        Forall (fun rule => someIncluded text (snd rule) = false) earlier ->
        In keyword keywords ->
        includes (toLowerCase (tpl (title jobData))) keyword = true
        \/ includes (toLowerCase (tpl (description jobData))) keyword = true ->
        detectJobType jobData = category)
  /\ (forall earlier first firstKeywords between second secondKeywords later,
        jobTypePriority
          = (earlier ++ (first, firstKeywords) :: between
               ++ (second, secondKeywords) :: later)%list ->
        Forall (fun rule => someIncluded text (snd rule) = false) earlier ->
        someIncluded text firstKeywords = true ->
        someIncluded text secondKeywords = true ->
        detectJobType jobData = first)
  /\ (title jobData = JStr "Part-Time Accountant" ->
      detectJobType jobData = "part-time")
  /\ (title jobData = JStr "Remote Backend Engineer" ->
      Forall (fun rule => someIncluded text (snd rule) = false)
             (take 4 jobTypePriority) ->
      detectJobType jobData = "remote").
Proof.
  intros text.
  assert (Hfirst : detectJobType jobData = firstCategory text jobTypePriority "full-time").
  { unfold detectJobType, titleAndDescription. fold text.
    unfold jobTypePriority, firstCategory, someIncluded.
    cbn [existsb]. rewrite !orb_false_r. reflexivity. }
  assert (Hskip : forall rules rest default,
             Forall (fun rule => someIncluded text (snd rule) = false) rules ->
             firstCategory text (rules ++ rest)%list default
             = firstCategory text rest default).
  { intros rules rest default H.
    induction H as [|[cat kws] rules Hr _ IH]; [reflexivity|].
    cbn [app firstCategory]. cbn [snd] in Hr. now rewrite Hr. }
  split; [exact Hfirst|]. split; [|split; [|split; [|split]]].
  - intros H. rewrite Hfirst.
    rewrite <- (app_nil_r jobTypePriority). now rewrite Hskip.
  - intros earlier category keywords later keyword E He Hin Hk.
    rewrite Hfirst, E, Hskip by exact He. cbn [firstCategory].
    assert (Ht : includes text keyword = true).
    { unfold text. rewrite !toLowerCase_app. destruct Hk as [Hk|Hk].
      - now apply includes_app_l.
      - now apply includes_app_r, includes_app_r. }
    assert (Hs : someIncluded text keywords = true).
    { unfold someIncluded. apply existsb_exists. exists keyword. auto. }
    now rewrite Hs.
  - intros earlier first fk between second sk later E He H1 _.
    rewrite Hfirst, E, Hskip by exact He.
    cbn [firstCategory]. now rewrite H1.
  - intros Ht. unfold detectJobType, titleAndDescription. rewrite Ht.
    cbn [tpl]. rewrite toLowerCase_app.
    rewrite (includes_app_l _ _ "part-time") by reflexivity. reflexivity.
  - intros Ht H. rewrite Hfirst.
    change jobTypePriority
      with (take 4 jobTypePriority ++ drop 4 jobTypePriority)%list.
    rewrite Hskip by exact H.
    cbn [drop jobTypePriority firstCategory someIncluded existsb].
    unfold text. rewrite Ht. cbn [tpl]. rewrite toLowerCase_app.
    rewrite (includes_app_l _ _ "remote") by reflexivity. reflexivity.
Qed.

(** The classifier at a record whose description alone names the job type,
    at the two titles of the specification and at a title that names two
    categories. *)
Lemma detectJobType_priority_witness :
  detectJobType accountantPartTime = "part-time"
  /\ detectJobType (mkJobData (JStr "Part-Time Accountant") JNull JNull JNull JNull
                              JNull JNull JNull JNull
                              (JStr "Remote contract role for a graduate") None None)
     = "part-time"
  /\ detectJobType (mkJobData (JStr "Remote Backend Engineer") JNull JNull JNull JNull
                              JNull JNull JNull JNull JUndefined None None)
     = "remote"
  /\ detectJobType (mkJobData (JStr "Remote Contract Developer") JNull JNull JNull JNull
                              JNull JNull JNull JNull JUndefined None None)
     = "contract".
Proof.
  split; [|split; [|split]].
  - destruct (detectJobType_priority accountantPartTime) as (_ & _ & H & _).
    apply (H [] "part-time" ["part-time"; "part time"]
             (drop 1 jobTypePriority) "part time");
      [reflexivity | constructor | right; left; reflexivity | right; reflexivity].
  - destruct (detectJobType_priority
                (mkJobData (JStr "Part-Time Accountant") JNull JNull JNull JNull
                           JNull JNull JNull JNull
                           (JStr "Remote contract role for a graduate") None None))
      as (_ & _ & _ & _ & H & _).
    apply H. reflexivity.
  - destruct (detectJobType_priority
                (mkJobData (JStr "Remote Backend Engineer") JNull JNull JNull JNull
                           JNull JNull JNull JNull JUndefined None None))
      as (_ & _ & _ & _ & _ & H).
    apply H; [reflexivity|]. repeat constructor.
  - destruct (detectJobType_priority
                (mkJobData (JStr "Remote Contract Developer") JNull JNull JNull JNull
                           JNull JNull JNull JNull JUndefined None None))
      as (_ & _ & _ & H & _).
    apply (H [("part-time", ["part-time"; "part time"])] "contract" ["contract"]
             [("temporary", ["temporary"; "temp"]); ("internship", ["intern"; "graduate"])]
             "remote" ["remote"; "work from home"] [("hybrid", ["hybrid"])]);
      [reflexivity | repeat constructor | reflexivity | reflexivity].
Defined.

Section QualityScore.

Lemma weightSum_bounds (jobData : JobData) : (0 <= weightSum jobData <= 100)%Z.
Proof.
  unfold weightSum, weight.
  destruct (truthy (title jobData) && truthy (company jobData)),
    (truthy (description jobData) && (100 <? strLength (description jobData))%nat),
    (truthy (salary jobData)), (nonEmpty (skills jobData)),
    (nonEmpty (categories jobData)); lia.
Qed.

Lemma score_min_weightSum (jobData : JobData) :
  calculateQualityScore jobData = Z.min (weightSum jobData) 100.
Proof.
  unfold calculateQualityScore, weightSum, weight.
  destruct (truthy (title jobData) && truthy (company jobData)),
    (truthy (description jobData) && (100 <? strLength (description jobData))%nat),
    (truthy (salary jobData)), (nonEmpty (skills jobData)),
    (nonEmpty (categories jobData)); reflexivity.
Qed.

Lemma score_weightSum (jobData : JobData) :
  calculateQualityScore jobData = weightSum jobData.
Proof.
  rewrite score_min_weightSum. pose proof (weightSum_bounds jobData). lia.
Qed.

End QualityScore.

Section ScoreTests.

Lemma truthy_present (v : jsval) : truthy v = present v.
Proof. destruct v as [| |[|c s]]; reflexivity. Qed.

Lemma long_description (v : jsval) :
  truthy v && (100 <? strLength v)%nat = longDescription v.
Proof.
  destruct v as [| |s]; try reflexivity. cbn [strLength longDescription].
  destruct s as [|c s]; [reflexivity|]. reflexivity.
Qed.

Lemma nonEmpty_atLeastOne (arr : option (list string)) : nonEmpty arr = atLeastOne arr.
Proof. destruct arr as [[|x l]|]; reflexivity. Qed.

Lemma disclosed_present (v : jsval) :
  SalaryRange.isDisclosed (parseSalary v) = true -> present v = true.
Proof.
  rewrite <- truthy_present. unfold parseSalary.
  destruct v as [| |text]; try discriminate.
  destruct (truthy (JStr text)); [reflexivity|discriminate].
Qed.

End ScoreTests.

(** C7, as stated, fails on the salary weight: the posting whose salary
    text is "Market related" has no disclosed salary, so the score of the
    specification is 30 for its title and company, but the scorer adds the
    20 of the salary weight for the text itself and returns 50. *)
Lemma calculateQualityScore_undisclosed_salary :
  SalaryRange.isDisclosed (parseSalary (salary marketRelated)) = false
  /\ claimedScore marketRelated = 30%Z
  /\ calculateQualityScore marketRelated = 50%Z
  /\ calculateQualityScore marketRelated <> claimedScore marketRelated.
Proof.
  split; [vm_compute; reflexivity|]. split; [vm_compute; reflexivity|].
  split; [vm_compute; reflexivity|]. vm_compute. discriminate.
Qed.

(** C7, amended. The quality score is the sum of the five weights: 30 for a
    title and a company that are present, 25 for a description of more than
    100 characters, 20 for a salary text that is present (whether or not an
    amount can be read from it; every salary that [parseSalary] discloses has
    one), 15 for at least one skill and 10 for at least one category; the
    cap at 100 never cuts the sum and the score lies between 0 and 100. The
    score is a function of the record alone; it is never below the score of
    the specification and equals it exactly when the salary text is absent
    or disclosed. A record with a title, a company, a description of 150
    characters, a disclosed salary, two skills and one category scores
    exactly 100. *)
Theorem calculateQualityScore_weights (jobData : JobData) :
  let sum :=
    (weight (present (title jobData) && present (company jobData)) 30
     + weight (longDescription (description jobData)) 25
     + weight (present (salary jobData)) 20
     + weight (atLeastOne (skills jobData)) 15
     + weight (atLeastOne (categories jobData)) 10)%Z in
  calculateQualityScore jobData = Z.min sum 100
  /\ calculateQualityScore jobData = sum
  /\ (0 <= calculateQualityScore jobData <= 100)%Z
  /\ (SalaryRange.isDisclosed (parseSalary (salary jobData)) = true ->
      present (salary jobData) = true)
  /\ (claimedScore jobData <= calculateQualityScore jobData)%Z
  /\ (calculateQualityScore jobData = claimedScore jobData <->
      (present (salary jobData) = true ->
       SalaryRange.isDisclosed (parseSalary (salary jobData)) = true))
  /\ (present (title jobData) = true ->
      present (company jobData) = true ->
      (exists d, description jobData = JStr d /\ String.length d = 150) ->
      SalaryRange.isDisclosed (parseSalary (salary jobData)) = true ->
      (exists s1 s2, skills jobData = Some [s1; s2]) ->
      (exists c, categories jobData = Some [c]) ->
      calculateQualityScore jobData = 100%Z).
Proof.
  cbv zeta.
  assert (E : calculateQualityScore jobData
              = (weight (present (title jobData) && present (company jobData)) 30
                 + weight (longDescription (description jobData)) 25
                 + weight (present (salary jobData)) 20
                 + weight (atLeastOne (skills jobData)) 15
                 + weight (atLeastOne (categories jobData)) 10)%Z).
  { rewrite score_weightSum. unfold weightSum.
    now rewrite long_description, !truthy_present, !nonEmpty_atLeastOne. }
  pose proof (weightSum_bounds jobData) as Hb. rewrite <- score_weightSum in Hb.
  pose proof (disclosed_present (salary jobData)) as Hd.
  split; [rewrite <- E; lia|]. split; [exact E|]. split; [exact Hb|].
  split; [exact Hd|].
  assert (Hc : claimedScore jobData
               = (weight (present (title jobData) && present (company jobData)) 30
                  + weight (longDescription (description jobData)) 25
                  + weight (SalaryRange.isDisclosed (parseSalary (salary jobData))) 20
                  + weight (atLeastOne (skills jobData)) 15
                  + weight (atLeastOne (categories jobData)) 10)%Z).
  { unfold claimedScore, weight.
    destruct (present (title jobData) && present (company jobData)),
      (longDescription (description jobData)),
      (SalaryRange.isDisclosed (parseSalary (salary jobData))),
      (atLeastOne (skills jobData)), (atLeastOne (categories jobData)); reflexivity. }
  split; [|split].
  - rewrite Hc, E. unfold weight.
    destruct (SalaryRange.isDisclosed (parseSalary (salary jobData)));
      [rewrite (Hd eq_refl); lia|].
    destruct (present (salary jobData)); lia.
  - rewrite Hc, E. unfold weight.
    destruct (SalaryRange.isDisclosed (parseSalary (salary jobData))) eqn:Ei.
    + rewrite (Hd eq_refl). split; [reflexivity|lia].
    + destruct (present (salary jobData)); split.
      * intros H. lia.
      * intros H. specialize (H eq_refl). discriminate H.
      * intros _ H. discriminate H.
      * reflexivity.
  - intros Ht Hco (d & Hdesc & Hlen) Hs (s1 & s2 & Hsk) (c & Hcat).
    rewrite E, Ht, Hco, (Hd Hs), Hsk, Hcat, Hdesc.
    cbn [longDescription]. rewrite Hlen. reflexivity.
Qed.

(** The score of a record with every scored field filled in. *)
Lemma calculateQualityScore_weights_witness :
  calculateQualityScore fullRecord = 100%Z.
Proof.
  destruct (calculateQualityScore_weights fullRecord) as (_ & _ & _ & _ & _ & _ & H).
  apply H; [reflexivity | reflexivity | | reflexivity | | ].
  - eexists. split; [reflexivity|]. vm_compute. reflexivity.
  - do 2 eexists. reflexivity.
  - eexists. reflexivity.
Defined.

(** ** Category tagger *)

Section Categories.

Lemma matchedCategories_In (text : string) (table : list (string * list string))
    (category : string) :
  In category (matchedCategories text table) <->
  exists keywords, In (category, keywords) table /\ someIncluded text keywords = true.
Proof.
  induction table as [|[c kws] table IH]; cbn [matchedCategories].
  - split; [intros []|intros (? & [] & _)].
  - destruct (someIncluded text kws) eqn:E; cbn [In]; rewrite IH; split.
    + intros [->|(k & Hin & Hk)]; [exists kws; auto|exists k; auto].
    + intros (k & [[= -> ->]|Hin] & Hk); [now left|right; eauto].
    + intros (k & Hin & Hk). exists k; auto.
    + intros (k & [[= -> ->]|Hin] & Hk); [congruence|eauto].
Qed.


End Categories.


(** ** Inline score at job creation *)

(** C10. The record scored at job creation is the output of
    [enhanceJobData], which copies the raw fields, cleans the company and
    adds at most a description and skills; it has no categories, so the
    category weight is never added and the score stored in
    [metadata.qualityScore] by [new Job] is at most 90. *)
Theorem inline_score_at_most_90 (w : World) (jobData : Raw.t) :
  let enhancedJob := enhanceJobData jobData in
  categories enhancedJob = None
  /\ (title enhancedJob = Raw.title jobData
      /\ location enhancedJob = Raw.location jobData
      /\ salary enhancedJob = Raw.salary jobData
      /\ summary enhancedJob = Raw.summary jobData
      /\ datePosted enhancedJob = Raw.datePosted jobData
      /\ link enhancedJob = Raw.link jobData
      /\ source enhancedJob = Raw.source jobData
      /\ scrapedAt enhancedJob = Raw.scrapedAt jobData)
  /\ Job.qualityScore (Job.metadata (createJob w enhancedJob))
     = calculateQualityScore enhancedJob
  /\ (Job.qualityScore (Job.metadata (createJob w enhancedJob)) <= 90)%Z
  /\ (forall i : nat,
        findOne w i (Raw.title jobData) (Raw.company jobData) (Raw.location jobData)
        = Return None ->
        processJob w i jobData
        = match persist w i (createJob w enhancedJob) with
          | Return job => Some job
          | Throw _ => None
          end).
Proof.
  cbv zeta. split; [reflexivity|]. split; [repeat split|].
  split; [reflexivity|]. split.
  - cbn [createJob Job.metadata Job.qualityScore].
    rewrite score_weightSum. unfold weightSum.
    change (categories (enhanceJobData jobData)) with (@None (list string)).
    cbn [nonEmpty]. unfold weight.
    destruct (truthy (title (enhanceJobData jobData))
              && truthy (company (enhanceJobData jobData))),
      (truthy (description (enhanceJobData jobData))
       && (100 <? strLength (description (enhanceJobData jobData)))%nat),
      (truthy (salary (enhanceJobData jobData))),
      (nonEmpty (skills (enhanceJobData jobData))); lia.
  - intros i H. unfold processJob. now rewrite H.
Qed.

(** The inline score at a record the store does not know. *)
Lemma inline_score_at_most_90_witness :
  processJob partialWorld 0 developerIndeed
  = Some (createJob partialWorld (enhanceJobData developerIndeed))
  /\ (Job.qualityScore
        (Job.metadata (createJob partialWorld (enhanceJobData developerIndeed)))
      <= 90)%Z.
Proof.
  destruct (inline_score_at_most_90 partialWorld developerIndeed)
    as (_ & _ & _ & Hle & Hp).
  split; [|exact Hle].
  rewrite (Hp 0 eq_refl). reflexivity.
Defined.

(** The bound is reached: a posting with a salary, a long summary and a
    known skill scores 90 at creation. *)
Example inline_score_90_reached :
  calculateQualityScore
    (enhanceJobData
       (Raw.mk (JStr "Developer") (JStr "Acme") (JStr "Cape Town") (JStr "R 20,000")
               (JStr ("We are looking for a developer with sql experience "
                      ++ JS.unchars (replicate 80 "."%char)))
               (JStr "today") JNull (JStr "Indeed South Africa")
               (JStr "2024-01-01T00:00:00.000Z")))
  = 90%Z.
Proof. vm_compute. reflexivity. Qed.

(** ** Deduplicator *)

Section Deduplicator.

Implicit Types (seen : gset string) (jobs : list Raw.t) (k : string).

Lemma dedupFrom_sublist seen jobs : sublist (dedupFrom seen jobs) jobs.
Proof.
  revert seen; induction jobs as [|job rest IH]; intros seen; cbn [dedupFrom].
  - constructor.
  - destruct (decide (dedupKey job ∈ seen)).
    + apply sublist_cons, IH.
    + apply sublist_skip, IH.
Qed.

Lemma dedupFrom_fresh seen jobs job :
  job ∈ dedupFrom seen jobs -> dedupKey job ∉ seen.
Proof.
  revert seen; induction jobs as [|j rest IH]; intros seen; cbn [dedupFrom].
  - intros H. inversion H.
  - destruct (decide (dedupKey j ∈ seen)) as [Hin|Hout].
    + apply IH.
    + intros [->|H]%elem_of_cons; [exact Hout|].
      apply IH in H. set_solver.
Qed.

Lemma dedupFrom_NoDup seen jobs : NoDup (dedupKey <$> dedupFrom seen jobs).
Proof.
  revert seen; induction jobs as [|j rest IH]; intros seen; cbn [dedupFrom].
  - constructor.
  - destruct (decide (dedupKey j ∈ seen)); [apply IH|].
    rewrite fmap_cons. constructor; [|apply IH].
    intros (j' & Hk & Hin)%list_elem_of_fmap.
    apply dedupFrom_fresh in Hin. set_solver.
Qed.

Lemma dedupFrom_filter seen jobs k :
  filter (fun job => dedupKey job = k) (dedupFrom seen jobs)
  = if decide (k ∈ seen) then []
    else option_list (head (filter (fun job => dedupKey job = k) jobs)).
Proof.
  revert seen; induction jobs as [|j rest IH]; intros seen; cbn [dedupFrom].
  - now destruct (decide (k ∈ seen)).
  - destruct (decide (dedupKey j ∈ seen)) as [Hin|Hout].
    + rewrite IH. destruct (decide (k ∈ seen)) as [|Hk]; [reflexivity|].
      rewrite (filter_cons_False _ j rest) by (intros E; apply Hk; now rewrite <- E).
      reflexivity.
    + destruct (decide (dedupKey j = k)) as [E|E].
      * rewrite !filter_cons_True by exact E. rewrite IH.
        rewrite decide_True by set_solver.
        rewrite decide_False by (rewrite <- E; exact Hout). reflexivity.
      * rewrite !filter_cons_False by exact E. rewrite IH.
        destruct (decide (k ∈ seen)) as [Hk|Hk].
        -- rewrite decide_True by set_solver. reflexivity.
        -- rewrite decide_False by set_solver. reflexivity.
Qed.

Lemma dedupFrom_app seen jobs later :
  dedupFrom seen (jobs ++ later)
  = (dedupFrom seen jobs ++ dedupFrom (seen ∪ keysOf jobs) later)%list.
Proof.
  revert seen; induction jobs as [|j rest IH]; intros seen.
  - cbn. f_equal. unfold keysOf. set_solver.
  - change ((j :: rest) ++ later)%list with (j :: (rest ++ later))%list.
    cbn [dedupFrom]. destruct (decide (dedupKey j ∈ seen)) as [Hin|Hout].
    + rewrite IH. do 2 f_equal. unfold keysOf. set_solver.
    + rewrite IH. cbn [app]. do 3 f_equal. unfold keysOf. set_solver.
Qed.

Lemma dedupFrom_seen seen job later :
  dedupKey job ∈ seen -> dedupFrom seen (job :: later) = dedupFrom seen later.
Proof.
  intros H. cbn [dedupFrom]. now rewrite decide_True.
Qed.

Lemma sameTriple_key (a b : Raw.t) : sameTriple a b -> dedupKey a = dedupKey b.
Proof.
  intros (Ht & Hc & Hl). unfold dedupKey.
  now rewrite !toLowerCase_app, Ht, Hc, Hl.
Qed.

(** The key of the code is the fingerprint. *)
Lemma dedupKey_fingerprint (job : Raw.t) : dedupKey job = fingerprint job.
Proof. unfold dedupKey, fingerprint. now rewrite !toLowerCase_app. Qed.

Lemma lower_char_hyphen (c : ascii) : lower_char c = "-"%char -> c = "-"%char.
Proof.
  destruct c as [[] [] [] [] [] [] [] []]; vm_compute; intros H;
    (reflexivity || discriminate H).
Qed.

Lemma toLowerCase_hyphen (s : string) :
  In "-"%char (chars (toLowerCase s)) -> In "-"%char (chars s).
Proof.
  induction s as [|c s IH]; cbn [toLowerCase chars In]; [tauto|].
  intros [H|H]; [left; now apply lower_char_hyphen|right; now apply IH].
Qed.

(** A text is split in one way only at its first hyphen. *)
Lemma split_at_hyphen (x x' r r' : string) :
  ~ In "-"%char (chars x) -> ~ In "-"%char (chars x') ->
  x ++ String "-" r = x' ++ String "-" r' -> x = x' /\ r = r'.
Proof.
  revert x'. induction x as [|c x IH]; intros [|c' x'] Hx Hx'.
  - intros [= ->]. now split.
  - change (String c' x' ++ String "-" r') with (String c' (x' ++ String "-" r')).
    intros [= <- _]. exfalso. apply Hx'. now left.
  - change (String c x ++ String "-" r) with (String c (x ++ String "-" r)).
    intros [= -> _]. exfalso. apply Hx. now left.
  - change (String c x ++ String "-" r) with (String c (x ++ String "-" r)).
    change (String c' x' ++ String "-" r') with (String c' (x' ++ String "-" r')).
    intros [= -> E]. destruct (IH x') as [-> ->]; [| |exact E|now split].
    + intros H. apply Hx. now right.
    + intros H. apply Hx'. now right.
Qed.

(** Records whose titles and companies hold no hyphen have the same
    fingerprint only if they agree in title, company and location up to
    case. *)
Lemma fingerprint_injective (a b : Raw.t) :
  hyphenFree (Raw.title a) -> hyphenFree (Raw.company a) ->
  hyphenFree (Raw.title b) -> hyphenFree (Raw.company b) ->
  fingerprint a = fingerprint b -> sameTriple a b.
Proof.
  unfold hyphenFree, fingerprint, sameTriple. intros Hta Hca Htb Hcb E.
  change ("-" ++ ?x) with (String "-" x) in E.
  apply split_at_hyphen in E as [Et E];
    [|intros H; apply Hta; now apply toLowerCase_hyphen
     |intros H; apply Htb; now apply toLowerCase_hyphen].
  change ("-" ++ ?x) with (String "-" x) in E.
  apply split_at_hyphen in E as [Ec El];
    [|intros H; apply Hca; now apply toLowerCase_hyphen
     |intros H; apply Hcb; now apply toLowerCase_hyphen].
  auto.
Qed.

(** The first record of a fingerprint in the batch survives. *)
Lemma first_occurrence_kept (jobs : list Raw.t) (i : nat) (a : Raw.t) :
  jobs !! i = Some a ->
  (forall j b, j < i -> jobs !! j = Some b -> fingerprint b <> fingerprint a) ->
  a ∈ dedupFrom ∅ jobs.
Proof.
  intros Hi Hfirst.
  assert (E : filter (fun job => dedupKey job = fingerprint a) (dedupFrom ∅ jobs)
              = [a]).
  { rewrite dedupFrom_filter. rewrite decide_False by set_solver.
    rewrite <- (take_drop_middle jobs i a Hi), filter_app.
    assert (Hn : filter (fun job => dedupKey job = fingerprint a) (take i jobs) = []).
    { assert (Hf : Forall (fun b => dedupKey b <> fingerprint a) (take i jobs)).
      { apply Forall_lookup. intros j b Hj. apply lookup_take_Some in Hj as [Hj Hlt].
        rewrite dedupKey_fingerprint. now apply (Hfirst j). }
      induction Hf as [|b l Hb _ IH]; [reflexivity|].
      now rewrite filter_cons_False. }
    rewrite Hn. cbn [app].
    rewrite filter_cons_True by apply dedupKey_fingerprint. reflexivity. }
  assert (Hin : a ∈ filter (fun job => dedupKey job = fingerprint a) (dedupFrom ∅ jobs))
    by (rewrite E; now left).
  now apply list_elem_of_filter in Hin as [_ Hin].
Qed.

End Deduplicator.

(** C6, as stated, fails: the fingerprint is one text in which the three
    fields are joined by hyphens, so two postings that differ in title and
    company can share it. "Sales-Rep" at "Acme" and "Sales" at "Rep-Acme" do
    not have the same title, company and location, yet the second, the first
    record of its own title, company and location, is discarded. *)
Lemma deduplicateJobs_hyphen_collision :
  ~ sameTriple salesRepAtAcme salesAtRepAcme
  /\ deduplicateJobs [salesRepAtAcme; salesAtRepAcme] = [salesRepAtAcme].
Proof.
  split; [|vm_compute; reflexivity].
  intros (H & _). vm_compute in H. discriminate H.
Qed.

(** C6, amended. The fingerprint of a record is the text made of its title,
    company and location in lower case, joined by hyphens. The deduplicator
    keeps, in batch order, exactly the first record of each fingerprint and
    drops every later record with that fingerprint, whatever its source: the
    survivors are a subsequence of the batch with pairwise distinct
    fingerprints, and a record with no earlier record of its fingerprint
    survives. Records with the same title, company and location up to case
    have the same fingerprint, so at most one of them survives and a later
    one contributes nothing; records whose titles and companies hold no
    hyphen have the same fingerprint only if they agree in all three
    fields. *)
Theorem deduplicateJobs_first_occurrence (jobs : list Raw.t) :
  sublist (deduplicateJobs jobs) jobs
  /\ NoDup (fingerprint <$> deduplicateJobs jobs)
  /\ (forall k : string,
        filter (fun job => fingerprint job = k) (deduplicateJobs jobs)
        = option_list (head (filter (fun job => fingerprint job = k) jobs)))
  /\ (forall (i : nat) (a : Raw.t),
        jobs !! i = Some a ->
        (forall j b, j < i -> jobs !! j = Some b -> fingerprint b <> fingerprint a) ->
        In a (deduplicateJobs jobs))
  /\ (forall a b : Raw.t, sameTriple a b -> fingerprint a = fingerprint b)
  /\ (forall a b : Raw.t,
        hyphenFree (Raw.title a) -> hyphenFree (Raw.company a) ->
        hyphenFree (Raw.title b) -> hyphenFree (Raw.company b) ->
        fingerprint a = fingerprint b -> sameTriple a b)
  /\ (forall (i j : nat) (a b : Raw.t),
        deduplicateJobs jobs !! i = Some a ->
        deduplicateJobs jobs !! j = Some b ->
        sameTriple a b -> i = j)
  /\ (forall (before : list Raw.t) (a : Raw.t) (between : list Raw.t) (b : Raw.t)
             (after : list Raw.t),
        jobs = (before ++ a :: between ++ b :: after)%list ->
        sameTriple a b ->
        deduplicateJobs jobs = deduplicateJobs (before ++ a :: between ++ after)%list).
Proof.
  assert (Hfilter : forall (k : string) (l : list Raw.t),
             filter (fun job => fingerprint job = k) l
             = filter (fun job => dedupKey job = k) l).
  { intros k l. apply list_filter_iff. intros job. now rewrite dedupKey_fingerprint. }
  unfold deduplicateJobs. split; [apply dedupFrom_sublist|].
  split; [|split; [|split; [|split; [|split; [|split]]]]].
  - rewrite <- (list_fmap_ext dedupKey fingerprint)
      by (intros; apply dedupKey_fingerprint).
    apply dedupFrom_NoDup.
  - intros k. rewrite !Hfilter, dedupFrom_filter.
    now rewrite decide_False by set_solver.
  - intros i a Hi Hfirst. apply list_elem_of_In.
    now apply (first_occurrence_kept jobs i a Hi).
  - intros a b H. rewrite <- !dedupKey_fingerprint. now apply sameTriple_key.
  - exact fingerprint_injective.
  - intros i j a b Hi Hj Hab. apply sameTriple_key in Hab.
    apply (NoDup_lookup (dedupKey <$> dedupFrom ∅ jobs) i j (dedupKey a)).
    + apply dedupFrom_NoDup.
    + now rewrite list_lookup_fmap, Hi.
    + now rewrite list_lookup_fmap, Hj, Hab.
  - intros before a between b after -> Hab. apply sameTriple_key in Hab.
    rewrite !dedupFrom_app. f_equal.
    change (a :: between ++ b :: after)%list
      with ((a :: between) ++ b :: after)%list.
    change (a :: between ++ after)%list with ((a :: between) ++ after)%list.
    rewrite !dedupFrom_app. f_equal.
    apply dedupFrom_seen. unfold keysOf. rewrite <- Hab. set_solver.
Qed.

(** The deduplicator on a posting scraped from two sources, and on postings
    that differ in company or in location only. *)
Lemma deduplicateJobs_first_occurrence_witness :
  deduplicateJobs [developerIndeed; developerPnet; nurseCareerjet]
  = deduplicateJobs [developerIndeed; nurseCareerjet]
  /\ deduplicateJobs [developerIndeed; developerPnet; nurseCareerjet]
     = [developerIndeed; nurseCareerjet]
  /\ fingerprint developerIndeed <> fingerprint developerAtBeta
  /\ In developerInDurban
        (deduplicateJobs [developerIndeed; developerAtBeta; developerInDurban]).
Proof.
  destruct (deduplicateJobs_first_occurrence
              [developerIndeed; developerPnet; nurseCareerjet])
    as (_ & _ & _ & _ & _ & _ & _ & H).
  destruct (deduplicateJobs_first_occurrence
              [developerIndeed; developerAtBeta; developerInDurban])
    as (_ & _ & _ & Hkept & _ & Hinj & _).
  split; [|split; [vm_compute; reflexivity|split]].
  - apply (H [] developerIndeed [] developerPnet [nurseCareerjet]); [reflexivity|].
    repeat split; reflexivity.
  - intros E. apply Hinj in E as (_ & E & _); [vm_compute in E; discriminate E| | | |];
      unfold hyphenFree; vm_compute; intuition discriminate.
  - apply (Hkept 2 developerInDurban eq_refl).
    intros [|[|j]] b Hlt Hb; [| |lia]; injection Hb as <-; vm_compute; discriminate.
Defined.

(** ** Extraction of a source *)

Section Extraction.

Lemma orElse_truthy (a : jsval) (s : string) :
  s <> "" -> truthy (orElse a (JStr s)) = true.
Proof.
  intros Hs. unfold orElse. destruct (truthy a) eqn:E; [exact E|].
  cbn. destruct s; [contradiction|reflexivity].
Qed.

Lemma extractCard_Some (w : World) (config : SiteConfig) (card : Card) (job : Raw.t) :
  extractCard w config card = Some job ->
  truthy (Raw.title job) = true
  /\ truthy (Raw.company job) = true
  /\ truthy (Raw.location job) = true
  /\ Raw.title job = card_title card
  /\ Raw.company job = card_company card
  /\ Raw.salary job = card_salary card
  /\ Raw.summary job = card_summary card
  /\ Raw.source job = JStr (name config)
  /\ Raw.scrapedAt job = JStr (nowISO w).
Proof.
  unfold extractCard.
  destruct (match card_href card with
            | JStr l =>
                if truthy (JStr l) && negb (startsWith l "http")
                then match resolveUrl w l (url config) with
                     | Return l' => Return (JStr l')
                     | Throw e => Throw e
                     end
                else Return (JStr l)
            | v => Return v
            end) as [link|e]; [|discriminate].
  destruct (truthy (card_title card) && truthy (card_company card)) eqn:E;
    [|discriminate].
  apply andb_true_iff in E as [Ht Hc]. intros [= <-]. cbn.
  repeat split; auto. now apply orElse_truthy.
Qed.

Lemma extractJobs_In (w : World) (config : SiteConfig) (cards : list Card)
    (job : Raw.t) :
  In job (extractJobs w config cards) ->
  exists card, In card cards /\ extractCard w config card = Some job.
Proof.
  unfold extractJobs. intros H. apply list_elem_of_In in H.
  apply list_elem_of_omap in H as (card & Hin & He).
  exists card. split; [now apply list_elem_of_In|exact He].
Qed.

Lemma extractJobs_length (w : World) (config : SiteConfig) (cards : list Card) :
  List.length (extractJobs w config cards) <= List.length cards.
Proof.
  unfold extractJobs. induction cards as [|card rest IH]; [reflexivity|].
  cbn [omap list_omap]. destruct (extractCard w config card); cbn [List.length]; lia.
Qed.

Lemma slice0_length {A : Type} (arr : list A) (finish : Z) :
  List.length (slice0 arr finish) <= List.length arr
  /\ ((0 <= finish)%Z -> List.length (slice0 arr finish) <= Z.to_nat finish).
Proof.
  unfold slice0. destruct (finish <? 0)%Z eqn:E; cbv iota.
  - split; [rewrite length_take; lia|]. intros H. apply Z.ltb_lt in E. lia.
  - split; [rewrite length_take; lia|]. intros _. rewrite length_take. lia.
Qed.

Lemma scrapeSite_outcome (w : World) (site keywords location : string) (limit : Z)
    (st : State) :
  scrapeSite w site keywords location limit st
  = (match browser st with
     | None => Throw "Cannot read properties of null (reading 'newPage')"
     | Some _ =>
         match openPage w site with
         | Throw e => Throw e
         | Return _ =>
             match jobSites !! site with
             | None => Throw "Cannot read properties of undefined (reading 'name')"
             | Some config =>
                 match readCards w config
                                 (buildSearchUrl w config keywords location) with
                 | Return cards => Return (slice0 (extractJobs w config cards) limit)
                 | Throw e => Throw e
                 end
             end
         end
     end,
     logged st [EvScrapeSite site]).
Proof.
  unfold scrapeSite, bind, emit, get, lift, throw, ret, logged. unfold modify.
  cbn [browser].
  destruct (browser st) as [b|]; [|reflexivity].
  destruct (openPage w site) as [[]|e]; [|reflexivity].
  destruct (jobSites !! site) as [config|]; [|reflexivity].
  destruct (readCards w config (buildSearchUrl w config keywords location));
    reflexivity.
Qed.

End Extraction.

(** ** Processing and storing *)

Section Processing.

Variable w : World.

Lemma processJob_Some (i : nat) (raw : Raw.t) (job : Job.t) :
  processJob w i raw = Some job ->
  (findOne w i (Raw.title raw) (Raw.company raw) (Raw.location raw) = Return (Some job)
   /\ Job.isActive job = true)
  \/ (findOne w i (Raw.title raw) (Raw.company raw) (Raw.location raw) = Return None
      /\ persist w i (createJob w (enhanceJobData raw)) = Return job).
Proof.
  unfold processJob.
  destruct (findOne w i (Raw.title raw) (Raw.company raw) (Raw.location raw))
    as [[existing|]|e]; [| |discriminate].
  - destruct (Job.isActive existing) eqn:Ea; [|discriminate].
    intros [= <-]. left. auto.
  - destruct (persist w i (createJob w (enhanceJobData raw))) as [saved|e];
      [|discriminate].
    intros [= <-]. right. auto.
Qed.

Lemma processFrom_origin (i : nat) (batch : list Raw.t) (job : Job.t) :
  In job (processFrom w i batch) ->
  exists n raw, batch !! n = Some raw /\ processJob w (i + n) raw = Some job.
Proof.
  revert i; induction batch as [|raw rest IH]; intros i; cbn [processFrom];
    [intros []|].
  assert (Hrest : In job (processFrom w (S i) rest) ->
                  exists n raw', (raw :: rest) !! n = Some raw'
                                 /\ processJob w (i + n) raw' = Some job).
  { intros H. destruct (IH _ H) as (n & raw' & Hn & Hp).
    exists (S n), raw'. split; [exact Hn|]. now replace (i + S n) with (S i + n) by lia. }
  destruct (processJob w i raw) as [job'|] eqn:E; [|exact Hrest].
  intros [<-|H]; [|now apply Hrest].
  exists 0, raw. split; [reflexivity|]. now rewrite Nat.add_0_r.
Qed.




Lemma processFrom_length (i : nat) (batch : list Raw.t) :
  List.length (processFrom w i batch) <= List.length batch.
Proof.
  revert i; induction batch as [|raw rest IH]; intros i; cbn [processFrom];
    [reflexivity|].
  specialize (IH (S i)).
  destruct (processJob w i raw); cbn [List.length]; lia.
Qed.

End Processing.

(** ** Run orchestration *)

Section Orchestration.

Variable w : World.
Variables keywords location : string.
Variable limit : Z.

Lemma scrapeSite_run (site : string) (st : State) (b : Browser) :
  browser st = Some b ->
  scrapeSite w site keywords location
             (ceilDiv limit (Z.of_nat (List.length sitesToScrape))) st
  = (siteOutcome w keywords location limit site, logged st [EvScrapeSite site]).
Proof.
  intros Hb.
  unfold scrapeSite, siteOutcome, bind, emit, get, lift, throw, ret, logged.
  unfold modify. cbn [browser]. rewrite Hb.
  destruct (openPage w site) as [[]|e]; [|reflexivity].
  destruct (jobSites !! site) as [config|]; [|reflexivity].
  destruct (readCards w config (buildSearchUrl w config keywords location));
    reflexivity.
Qed.

Lemma logged_logged (st : State) (evs evs' : list Event) :
  logged (logged st evs) evs' = logged st (evs ++ evs')%list.
Proof. unfold logged. cbn. now rewrite app_assoc. Qed.

Lemma logged_nil (st : State) : logged st [] = st.
Proof. destruct st. unfold logged. cbn. now rewrite app_nil_r. Qed.

(** With the session open, the loop attempts every source and never
    raises. *)
Lemma scrapeSites_run (sites : list string) (allJobs : list Raw.t)
    (errs : list ErrorEntry) (st : State) (b : Browser) :
  browser st = Some b ->
  scrapeSites w keywords location limit (List.length sitesToScrape) sites allJobs errs st
  = (Return ((allJobs ++ gathered w keywords location limit sites)%list,
             (errs ++ failures w keywords location limit sites)%list),
     logged st (EvScrapeSite <$> sites)).
Proof.
  revert allJobs errs st.
  induction sites as [|site rest IH]; intros allJobs errs st Hb.
  - cbn. now rewrite !app_nil_r, logged_nil.
  - cbn [scrapeSites gathered failures fmap list_fmap].
    unfold bind at 1. unfold tryCatch. unfold bind at 1.
    rewrite (scrapeSite_run site st b Hb).
    destruct (siteOutcome w keywords location limit site) as [siteJobs|e];
      cbn [ret fst snd]; rewrite IH by exact Hb; rewrite logged_logged.
    + now rewrite <- app_assoc.
    + now rewrite <- app_assoc.
Qed.

Lemma initialize_cases (st : State) :
  (exists b,
      initialize w st = (Return b, st)
      /\ browser st = Some b /\ isInitialized st = true)
  \/ (exists b,
        initialize w st
        = (Return b, mkState (Some b) true (scrapingStats st) (events st ++ [EvLaunch])%list)
        /\ launch w = Return b)
  \/ (exists e,
        initialize w st
        = (Throw e, mkState (browser st) false (scrapingStats st) (events st ++ [EvLaunch])%list)
        /\ launch w = Throw e).
Proof.
  unfold initialize, bind, get.
  destruct (isInitialized st) eqn:Ei; [destruct (browser st) as [b|] eqn:Eb|].
  - left. exists b. auto.
  - right. unfold tryCatch, bind, emit, modify, lift, setBrowser, setInitialized, ret, throw.
    cbn. destruct (launch w) as [b|e]; [left; exists b|right; exists e];
      rewrite ?Eb; auto.
  - right. unfold tryCatch, bind, emit, modify, lift, setBrowser, setInitialized, ret, throw.
    cbn. destruct (launch w) as [b|e]; [left; exists b|right; exists e]; auto.
Qed.

(** After [initialize] has returned, the service holds the browser. *)
Lemma initialize_browser (st st1 : State) (b : Browser) :
  initialize w st = (Return b, st1) -> browser st1 = Some b.
Proof.
  destruct (initialize_cases st) as [(b' & E & Hb & _)|[(b' & E & _)|(e & E & _)]];
    rewrite E; intros [= <- <-]; [exact Hb|reflexivity].
Qed.

(** A run whose session starts completes with the normal result. *)
Lemma scrapeJobs_completed (st st1 : State) (b : Browser) :
  initialize w st = (Return b, st1) ->
  scrapeJobs w keywords location limit st
  = (Return (completedResult w keywords location limit st1),
     completedState w keywords location limit st1).
Proof.
  intros Hinit. pose proof (initialize_browser st st1 b Hinit) as Hb.
  unfold scrapeJobs. unfold bind at 1. rewrite Hinit.
  unfold tryCatch. unfold bind at 1. rewrite (scrapeSites_run _ _ _ st1 b Hb).
  unfold bind, get, setStats, auditLog, emit, ret, logged. unfold modify.
  unfold completedResult, completedState, completedStats.
  cbn [fst snd app browser isInitialized scrapingStats events].
  rewrite <- app_assoc. reflexivity.
Qed.

(** A run whose session cannot start raises the launch error. *)
Lemma scrapeJobs_launch_failure (st st1 : State) (e : string) :
  initialize w st = (Throw e, st1) ->
  scrapeJobs w keywords location limit st = (Throw e, st1).
Proof.
  intros Hinit. unfold scrapeJobs. unfold bind at 1. now rewrite Hinit.
Qed.


Lemma take_In {A : Type} (n : nat) (arr : list A) (x : A) :
  In x (take n arr) -> In x arr.
Proof.
  revert n; induction arr as [|y arr IH]; intros [|n]; cbn; try tauto.
  intros [->|H]; eauto.
Qed.

Lemma slice0_In {A : Type} (arr : list A) (finish : Z) (x : A) :
  In x (slice0 arr finish) -> In x arr.
Proof.
  unfold slice0. destruct (finish <? 0)%Z; apply take_In.
Qed.


End Orchestration.

Section RunProperties.





End RunProperties.

(** C1. When the browser process cannot be started, [scrapeJobs] attempts no
    source, but it does not return a result object: the launch error leaves
    [scrapeJobs] as an exception, because [initialize] is awaited before the
    [try] block whose handler builds the [success: false] result. *)
Theorem launch_failure_escapes_scrapeJobs :
  scrapeJobs launchFailsWorld "developer" "South Africa" 50 initial
  = (Throw "Failed to launch the browser process",
     mkState None false (scrapingStats initial) [EvLaunch]).
Proof.
  apply scrapeJobs_launch_failure. reflexivity.
Qed.




(** ** Run statistics *)

(** C3, as stated, fails: in the run where two records are found and one is
    processed the reported success rate is 50, not the ratio 1/2. *)
Lemma successRate_is_not_the_ratio :
  exists result st2 stats,
    scrapeJobs halfWorld "developer" "South Africa" 50 initial = (Return result, st2)
    /\ statistics result = Some stats
    /\ jobsFound result = 1
    /\ foundCount halfWorld "developer" "South Africa" 50 = 2
    /\ Stats.successRate stats = 50%float
    /\ Stats.successRate stats
       <> ratio (jobsFound result) (foundCount halfWorld "developer" "South Africa" 50).
Proof.
  eexists _, _, _. split; [vm_compute; reflexivity|].
  split; [reflexivity|]. split; [reflexivity|].
  split; [vm_compute; reflexivity|]. split; [vm_compute; reflexivity|].
  intros H. apply (f_equal (PrimFloat.ltb 1%float)) in H.
  vm_compute in H. discriminate H.
Qed.

(** C3, amended. In every completed run the reported success rate is the
    percentage (processedCount / foundCount) * 100 in double precision, with
    0 in place of a NaN or zero value; processedCount is the number of jobs
    returned and foundCount the number of raw records gathered across the
    sources; the rate is 0 when foundCount is 0. *)
Theorem successRate_is_a_percentage (w : World) (keywords location : string)
    (limit : Z) (st st1 : State) (b : Browser) :
  initialize w st = (Return b, st1) ->
  exists result st2 stats,
    scrapeJobs w keywords location limit st = (Return result, st2)
    /\ statistics result = Some stats
    /\ scrapingStats st2 = stats
    /\ jobsFound result = List.length (jobs result)
    /\ Stats.successRate stats
       = orZero (PrimFloat.mul
                   (PrimFloat.div (ofLength (jobsFound result))
                                  (ofLength (foundCount w keywords location limit)))
                   100%float)
    /\ (foundCount w keywords location limit = 0 -> Stats.successRate stats = 0%float).
Proof.
  intros Hinit.
  exists (completedResult w keywords location limit st1),
         (completedState w keywords location limit st1),
         (completedStats w keywords location limit st1).
  split; [now apply (scrapeJobs_completed w keywords location limit st st1 b)|].
  repeat split.
  unfold foundCount. intros H0.
  cbn [completedStats Stats.successRate].
  destruct (gathered w keywords location limit sitesToScrape); [|discriminate H0].
  unfold deduplicateJobs, slice0. cbn [dedupFrom List.length].
  rewrite !take_nil. destruct (limit <? 0)%Z; reflexivity.
Qed.

(** The rate of the run in which one of two found records is processed. *)
Lemma successRate_is_a_percentage_witness :
  exists result st2 stats,
    scrapeJobs halfWorld "developer" "South Africa" 50 initial = (Return result, st2)
    /\ statistics result = Some stats
    /\ Stats.successRate stats = 50%float.
Proof.
  destruct (successRate_is_a_percentage halfWorld "developer" "South Africa" 50
              initial (mkState (Some 7) true (scrapingStats initial) [EvLaunch]) 7
              eq_refl)
    as (result & st2 & stats & Hrun & Hstats & _ & _ & Hrate & _).
  exists result, st2, stats. split; [exact Hrun|]. split; [exact Hstats|].
  rewrite Hrate.
  assert (E : scrapeJobs halfWorld "developer" "South Africa" 50 initial
              = (Return (completedResult halfWorld "developer" "South Africa" 50
                           (mkState (Some 7) true (scrapingStats initial) [EvLaunch])),
                 completedState halfWorld "developer" "South Africa" 50
                   (mkState (Some 7) true (scrapingStats initial) [EvLaunch])))
    by (vm_compute; reflexivity).
  rewrite E in Hrun. injection Hrun as <- _.
  vm_compute. reflexivity.
Defined.

(** ** Browser session *)

(** C8, as stated, fails: the run below completes with the browser session
    still open and without a call of [browser.close()]. *)
Lemma session_left_open_after_run :
  exists result st2,
    scrapeJobs partialWorld "developer" "South Africa" 50 initial = (Return result, st2)
    /\ browser st2 = Some 7
    /\ isInitialized st2 = true
    /\ ~ In EvBrowserClose (events st2).
Proof.
  eexists _, _. split; [vm_compute; reflexivity|].
  split; [reflexivity|]. split; [reflexivity|].
  cbn. intros [H|[H|[H|[H|[H|[]]]]]]; discriminate H.
Qed.

(** C8, amended. No exit path of a run closes the browser session:
    [scrapeJobs] leaves the session as [initialize] left it and never calls
    [browser.close()]. A run that returns a result leaves the session open
    and initialised; a run that fails at launch acquired no session and
    leaves the service uninitialised. Only [close] releases the session. *)
Theorem scrapeJobs_never_closes (w : World) (keywords location : string)
    (limit : Z) (st : State) :
  let outcome := fst (scrapeJobs w keywords location limit st) in
  let after := snd (scrapeJobs w keywords location limit st) in
  let started := snd (initialize w st) in
  browser after = browser started
  /\ isInitialized after = isInitialized started
  /\ (exists evs, events after = (events st ++ evs)%list /\ ~ In EvBrowserClose evs)
  /\ (forall result, outcome = Return result ->
        exists b, browser after = Some b /\ isInitialized after = true)
  /\ (forall e, outcome = Throw e ->
        launch w = Throw e /\ browser after = browser st
        /\ isInitialized after = false)
  /\ (forall b, browser after = Some b -> closeBrowser w = Return tt ->
        close w after
        = (Return tt,
           mkState None false (scrapingStats after)
                   (events after ++ [EvBrowserClose])%list)).
Proof.
  cbv zeta.
  assert (Hclose : forall s b, browser s = Some b -> closeBrowser w = Return tt ->
            close w s = (Return tt, mkState None false (scrapingStats s)
                                            (events s ++ [EvBrowserClose])%list)).
  { intros s b Hb Hc. unfold close, bind, get. rewrite Hb.
    unfold emit, lift, setBrowser, setInitialized. unfold modify. rewrite Hc.
    reflexivity. }
  match goal with
  | |- ?A /\ ?B /\ ?C /\ ?D /\ ?E /\ ?F =>
      assert (HF : F) by (intros b' Hb' Hc; exact (Hclose _ b' Hb' Hc));
      assert (H5 : A /\ B /\ C /\ D /\ E);
      [clear HF | destruct H5 as (? & ? & ? & ? & ?); repeat (split; [assumption|]);
                  exact HF]
  end.
  destruct (initialize_cases w st) as [(b & Hi & Hb & Hinit)|[(b & Hi & Hl)|(e & Hi & Hl)]].
  - rewrite (scrapeJobs_completed w keywords location limit st st b Hi), Hi.
    cbn [fst snd completedState browser isInitialized events].
    split; [reflexivity|]. split; [reflexivity|]. split; [|split].
    + eexists. split; [reflexivity|].
      cbn. intros [H|[H|[H|[H|[]]]]]; discriminate H.
    + intros _ _. exists b. auto.
    + intros e [=].
  - rewrite (scrapeJobs_completed w keywords location limit st _ b Hi), Hi.
    cbn [fst snd completedState browser isInitialized events].
    split; [reflexivity|]. split; [reflexivity|]. split; [|split].
    + eexists. split; [now rewrite <- app_assoc|].
      cbn. intros [H|[H|[H|[H|[H|[]]]]]]; discriminate H.
    + intros _ _. exists b. auto.
    + intros e [=].
  - rewrite (scrapeJobs_launch_failure w keywords location limit st _ e Hi), Hi.
    cbn [fst snd browser isInitialized events].
    split; [reflexivity|]. split; [reflexivity|]. split; [|split].
    + eexists. split; [reflexivity|]. cbn. intros [H|[]]; discriminate H.
    + intros r [=].
    + intros e' [= <-]. auto.
Qed.

(** The session after the run in which PNet times out, and after an explicit
    [close]. *)
Lemma scrapeJobs_never_closes_witness :
  browser (snd (scrapeJobs partialWorld "developer" "South Africa" 50 initial)) = Some 7
  /\ browser
       (snd (close partialWorld
               (snd (scrapeJobs partialWorld "developer" "South Africa" 50 initial))))
     = None.
Proof.
  destruct (scrapeJobs_never_closes partialWorld "developer" "South Africa" 50 initial)
    as (Hb & _ & _ & _ & _ & Hc).
  split; [rewrite Hb; reflexivity|].
  rewrite (Hc 7); [reflexivity | rewrite Hb; reflexivity | reflexivity].
Defined.

(** * Further properties of the service *)

Import Drivers Tables.

(** ** Session life cycle *)

Section Session.

Lemma close_open (w : World) (st : State) (b : Browser) :
  browser st = Some b ->
  close w st
  = match closeBrowser w with
    | Return _ =>
        (Return tt,
         mkState None false (scrapingStats st) (events st ++ [EvBrowserClose])%list)
    | Throw e => (Throw e, logged st [EvBrowserClose])
    end.
Proof.
  intros Hb. unfold close, bind, get. rewrite Hb.
  unfold emit, lift, setBrowser, setInitialized, logged. unfold modify.
  destruct (closeBrowser w) as [[]|e]; reflexivity.
Qed.

Lemma close_closed (w : World) (st : State) :
  browser st = None -> close w st = (Return tt, st).
Proof.
  intros Hb. unfold close, bind, get. now rewrite Hb.
Qed.

Lemma initialize_open (w : World) (st : State) (b : Browser) :
  sessionOpen st b -> initialize w st = (Return b, st).
Proof.
  intros [Hb Hi]. unfold initialize, bind, get. now rewrite Hi, Hb.
Qed.

Lemma initialize_not_open (w : World) (st : State) :
  (if isInitialized st then browser st else None) = None ->
  initialize w st
  = match launch w with
    | Return b =>
        (Return b, mkState (Some b) true (scrapingStats st) (events st ++ [EvLaunch])%list)
    | Throw e =>
        (Throw e,
         mkState (browser st) false (scrapingStats st) (events st ++ [EvLaunch])%list)
    end.
Proof.
  intros H. unfold initialize, bind, get. rewrite H.
  unfold tryCatch, bind, emit, lift, setBrowser, setInitialized, ret, throw.
  unfold modify. destruct (launch w); reflexivity.
Qed.

Lemma initialize_returns_open (w : World) (st st1 : State) (b : Browser) :
  initialize w st = (Return b, st1) ->
  sessionOpen st1 b /\ scrapingStats st1 = scrapingStats st.
Proof.
  intros H.
  destruct (initialize_cases w st) as [(b' & Hi & Hb & Ho)|[(b' & Hi & _)|(e & Hi & _)]];
    rewrite Hi in H; injection H as <- <- || discriminate H; repeat split; auto.
Qed.

End Session.

(** X1. Once [initialize] has returned a browser, every later [initialize]
    returns that same browser without launching anything and without
    touching the service, whatever the environment would answer. *)
Theorem initialize_reuses_session (w w' : World) (st st1 : State) (b : Browser) :
  initialize w st = (Return b, st1) ->
  browser st1 = Some b
  /\ isInitialized st1 = true
  /\ initialize w' st1 = (Return b, st1).
Proof.
  intros H. apply initialize_returns_open in H as [[Hb Hi] _].
  split; [exact Hb|]. split; [exact Hi|].
  apply initialize_open. now split.
Qed.

(** The second initialisation in an environment whose launch would fail. *)
Lemma initialize_reuses_session_witness :
  initialize launchFailsWorld
    (mkState (Some 7) true (scrapingStats initial) [EvLaunch])
  = (Return 7, mkState (Some 7) true (scrapingStats initial) [EvLaunch]).
Proof.
  exact (proj2 (proj2 (initialize_reuses_session partialWorld launchFailsWorld
                         initial _ 7 eq_refl))).
Defined.

(** X2. [close] releases an open session: the browser is closed once, the
    service forgets it and is no longer initialised, the statistics are
    kept, a second [close] does nothing, and the next [initialize] launches
    a new browser. On a service without a browser [close] does nothing. *)
Theorem close_releases_session (w : World) (st : State) :
  (browser st = None -> close w st = (Return tt, st))
  /\ (forall b, browser st = Some b -> closeBrowser w = Return tt ->
        let closed :=
          mkState None false (scrapingStats st) (events st ++ [EvBrowserClose])%list in
        close w st = (Return tt, closed)
        /\ close w closed = (Return tt, closed)
        /\ forall w' b', launch w' = Return b' ->
             initialize w' closed
             = (Return b',
                mkState (Some b') true (scrapingStats st)
                        (events st ++ [EvBrowserClose; EvLaunch])%list)).
Proof.
  split; [apply close_closed|].
  intros b Hb Hc. cbv zeta. split; [|split].
  - rewrite (close_open w st b Hb), Hc. reflexivity.
  - now apply close_closed.
  - intros w' b' Hl. rewrite initialize_not_open by reflexivity.
    rewrite Hl. cbn [scrapingStats events]. now rewrite <- app_assoc.
Qed.

(** Closing the session a run has opened, and starting it again. *)
Lemma close_releases_session_witness :
  close partialWorld (mkState (Some 7) true (scrapingStats initial) [EvLaunch])
  = (Return tt, mkState None false (scrapingStats initial) [EvLaunch; EvBrowserClose])
  /\ initialize partialWorld
       (mkState None false (scrapingStats initial) [EvLaunch; EvBrowserClose])
     = (Return 7,
        mkState (Some 7) true (scrapingStats initial)
                [EvLaunch; EvBrowserClose; EvLaunch]).
Proof.
  destruct (close_releases_session partialWorld
              (mkState (Some 7) true (scrapingStats initial) [EvLaunch]))
    as [_ H].
  destruct (H 7 eq_refl eq_refl) as (H1 & _ & H3).
  split; [exact H1|]. exact (H3 partialWorld 7 eq_refl).
Defined.

(** X3. When [browser.close()] raises, [close] raises too and the service
    still records the browser and its initialised flag, so the next
    [initialize] hands out the same browser again without launching. *)
Theorem close_failure_keeps_session (w w' : World) (st : State) (b : Browser)
    (e : string) :
  sessionOpen st b ->
  closeBrowser w = Throw e ->
  exists st',
    close w st = (Throw e, st')
    /\ browser st' = Some b
    /\ isInitialized st' = true
    /\ events st' = (events st ++ [EvBrowserClose])%list
    /\ initialize w' st' = (Return b, st').
Proof.
  intros [Hb Hi] Hc. exists (logged st [EvBrowserClose]).
  rewrite (close_open w st b Hb), Hc.
  split; [reflexivity|]. split; [exact Hb|]. split; [exact Hi|].
  split; [reflexivity|]. apply initialize_open. now split.
Qed.

(** A browser that cannot be closed stays recorded as the session. *)
Lemma close_failure_keeps_session_witness :
  exists st',
    close stuckBrowserWorld (mkState (Some 7) true (scrapingStats initial) [EvLaunch])
    = (Throw "Protocol error: Target closed", st')
    /\ browser st' = Some 7.
Proof.
  destruct (close_failure_keeps_session stuckBrowserWorld launchFailsWorld
              (mkState (Some 7) true (scrapingStats initial) [EvLaunch]) 7
              "Protocol error: Target closed" (conj eq_refl eq_refl) eq_refl)
    as (st' & H1 & H2 & _).
  exists st'. split; assumption.
Defined.

(** ** Health check *)

(** X4. [healthCheck] never raises: it reports healthy exactly when the
    session starts (or is already open) and the probe page loads, and
    otherwise reports unhealthy with the message of the launch or of the
    probe; in every case it leaves the session as [initialize] left it and
    closes nothing. *)
Theorem healthCheck_never_raises (w : World) (probe : Result unit) (st : State) :
  exists h,
    healthCheck w probe st = (Return h, snd (initialize w st))
    /\ (Health.status h = "healthy"
        <-> (exists b, fst (initialize w st) = Return b) /\ probe = Return tt)
    /\ (Health.status h = "healthy" \/ Health.status h = "unhealthy")
    /\ (forall e, fst (initialize w st) = Throw e ->
          Health.status h = "unhealthy" /\ Health.error h = Some e)
    /\ (forall b e, fst (initialize w st) = Return b -> probe = Throw e ->
          Health.status h = "unhealthy" /\ Health.error h = Some e).
Proof.
  unfold healthCheck, tryCatch. unfold bind at 1.
  destruct (initialize w st) as [[b|e] st1] eqn:Hi; cbn [fst snd].
  - unfold bind, lift, ret. destruct probe as [[]|e].
    + eexists. split; [reflexivity|]. cbn [Health.status Health.error].
      split; [split; [intros _; split; [eauto|reflexivity]|reflexivity]|].
      split; [now left|]. split; [intros e [=]|intros b' e _ [=]].
    + eexists. split; [reflexivity|]. cbn [Health.status Health.error].
      split; [split; [intros [=]|intros [_ [=]]]|].
      split; [now right|]. split; [intros e' [=]|intros b' e' _ [= <-]; auto].
  - unfold ret. eexists. split; [reflexivity|]. cbn [Health.status Health.error].
    split; [split; [intros [=]|intros [[b [=]] _]]|].
    split; [now right|]. split; [intros e' [= <-]; auto|intros b e' [=]].
Qed.

(** ** Records of a source *)

(** X5. [scrapeSite] opens its page on the browser of the service: without
    a browser it raises the [TypeError] of the call on [null] and returns no
    record. When it returns, the service holds a browser, the page was
    opened, the source is one of [jobSites] and its cards were read; the
    records come from those cards, each with a title, a company and a
    location that are present, the source's display name and the time of the
    scrape; there are no more of them than cards, and no more than the limit
    when the limit is not negative. *)
Theorem scrapeSite_records (w : World) (site keywords location : string)
    (limit : Z) (st : State) :
  (browser st = None ->
   scrapeSite w site keywords location limit st
   = (Throw "Cannot read properties of null (reading 'newPage')",
      logged st [EvScrapeSite site]))
  /\ (forall (found : list Raw.t) (st' : State),
        scrapeSite w site keywords location limit st = (Return found, st') ->
        exists b config cards,
          browser st = Some b
          /\ openPage w site = Return tt
          /\ jobSites !! site = Some config
          /\ readCards w config (buildSearchUrl w config keywords location)
             = Return cards
          /\ List.length found <= List.length cards
          /\ ((0 <= limit)%Z -> List.length found <= Z.to_nat limit)
          /\ forall job, In job found ->
               (exists card, In card cards /\ Raw.title job = card_title card
                             /\ Raw.company job = card_company card)
               /\ truthy (Raw.title job) = true
               /\ truthy (Raw.company job) = true
               /\ truthy (Raw.location job) = true
               /\ Raw.source job = JStr (name config)
               /\ Raw.scrapedAt job = JStr (nowISO w)).
Proof.
  rewrite scrapeSite_outcome. split.
  - intros ->. reflexivity.
  - intros found st'.
    destruct (browser st) as [b|]; [|intros [=]].
    destruct (openPage w site) as [[]|e0]; [|intros [=]].
    destruct (jobSites !! site) as [config|]; [|intros [=]].
    destruct (readCards w config (buildSearchUrl w config keywords location))
      as [cards|e] eqn:Er; intros [= <- _].
    exists b, config, cards. split; [reflexivity|]. split; [reflexivity|].
    split; [reflexivity|]. split; [exact Er|].
    pose proof (slice0_length (extractJobs w config cards) limit) as [Hl1 Hl2].
    pose proof (extractJobs_length w config cards).
    split; [lia|]. split; [exact Hl2|].
    intros job Hin. apply slice0_In, extractJobs_In in Hin as (card & Hc & He).
    apply extractCard_Some in He as (Ht & Hco & Hlo & Et & Ec & _ & _ & Hs & Hn).
    split; [exists card; auto|]. auto.
Qed.

(** The records Indeed yields in the sample run, once the session is open,
    and the error on a service that was never initialised. *)
Lemma scrapeSite_records_witness :
  (exists found st',
     scrapeSite partialWorld "indeed" "developer" "South Africa" 1
                (snd (initialize partialWorld initial))
     = (Return found, st')
     /\ List.length found <= 1
     /\ forall job, In job found -> Raw.source job = JStr "Indeed South Africa")
  /\ fst (scrapeSite partialWorld "indeed" "developer" "South Africa" 1 initial)
     = Throw "Cannot read properties of null (reading 'newPage')".
Proof.
  destruct (scrapeSite_records partialWorld "indeed" "developer" "South Africa" 1
              (snd (initialize partialWorld initial))) as [_ Hopen].
  destruct (scrapeSite_records partialWorld "indeed" "developer" "South Africa" 1
              initial) as [Hnull _].
  split; [|now rewrite (Hnull eq_refl)].
  eexists _, _. split; [vm_compute; reflexivity|].
  destruct (Hopen _ _ ltac:(vm_compute; reflexivity))
    as (b & config & cards & _ & _ & Hc & _ & _ & Hl & Hj).
  split; [apply Hl; lia|].
  intros job Hin. destruct (Hj job Hin) as (_ & _ & _ & _ & Hs & _).
  rewrite Hs. vm_compute in Hc. injection Hc as <-. reflexivity.
Defined.

(** ** Search URLs *)

Section SearchUrl.

Lemma startsWith_self_app (k t : string) : startsWith (k ++ t) k = true.
Proof.
  induction k as [|c k IH]; [now destruct t|].
  change (String c k ++ t) with (String c (k ++ t)). cbn [startsWith].
  now rewrite Ascii.eqb_refl.
Qed.

Lemma includes_prefix (k t : string) : includes (k ++ t) k = true.
Proof.
  destruct k as [|c k].
  - cbn. destruct t; reflexivity.
  - change (String c k ++ t) with (String c (k ++ t)). cbn [includes].
    change (String c (k ++ t)) with (String c k ++ t).
    now rewrite startsWith_self_app.
Qed.

End SearchUrl.

(** X6. For every site configuration the search URL is the site's URL and
    search path followed by a query string, and the query string carries
    both the encoded keywords and the encoded location. *)
Theorem buildSearchUrl_carries_terms (w : World) (siteConfig : SiteConfig)
    (keywords location : string) :
  exists query,
    buildSearchUrl w siteConfig keywords location
    = url siteConfig ++ searchPath siteConfig ++ "?" ++ query
    /\ includes query (encodeURIComponent w keywords) = true
    /\ includes query (encodeURIComponent w location) = true.
Proof.
  unfold buildSearchUrl. cbv zeta.
  set (ek := encodeURIComponent w keywords).
  set (el := encodeURIComponent w location).
  pose proof string_app_assoc as Hassoc.
  assert (Hk : forall p q, includes (p ++ ek ++ q) ek = true).
  { intros p q. apply includes_app_r, includes_prefix. }
  assert (Hl : forall p m q, includes (p ++ ek ++ m ++ el ++ q) el = true).
  { intros p m q. do 2 apply includes_app_r. apply includes_app_r, includes_prefix. }
  assert (Hl0 : forall p m, includes (p ++ ek ++ m ++ el) el = true).
  { intros p m. do 3 apply includes_app_r.
    rewrite <- (includes_prefix el ""). now rewrite string_app_nil_r. }
  destruct (String.eqb (name siteConfig) "Indeed South Africa");
    [exists ("q=" ++ ek ++ "&l=" ++ el ++ "&sort=date"); rewrite Hassoc;
     split; [reflexivity|split; [apply Hk|apply Hl]]|].
  destruct (String.eqb (name siteConfig) "PNet South Africa");
    [exists ("keywords=" ++ ek ++ "&location=" ++ el); rewrite Hassoc;
     split; [reflexivity|split; [apply Hk|apply Hl0]]|].
  destruct (String.eqb (name siteConfig) "CareerJet South Africa");
    [exists ("s=" ++ ek ++ "&l=" ++ el); rewrite Hassoc;
     split; [reflexivity|split; [apply Hk|apply Hl0]]|].
  destruct (String.eqb (name siteConfig) "Careers24");
    [exists ("keywords=" ++ ek ++ "&location=" ++ el); rewrite Hassoc;
     split; [reflexivity|split; [apply Hk|apply Hl0]]|].
  exists ("q=" ++ ek ++ "&l=" ++ el); rewrite Hassoc;
    split; [reflexivity|split; [apply Hk|apply Hl0]].
Qed.

(** ** Provenance of the processed jobs *)

(** X7. [processAndStoreJobs] returns at most one job per record of the
    batch, and every job it returns is accounted for by the record at some
    position of the batch: either the store's lookup at that position found
    this job and the job is active, or the lookup found nothing and this job
    is what the store saved for the newly created document. Failed lookups,
    inactive matches and failed saves leave nothing behind. *)
Theorem processAndStoreJobs_provenance (w : World) (batch : list Raw.t) :
  List.length (processAndStoreJobs w batch) <= List.length batch
  /\ forall job, In job (processAndStoreJobs w batch) ->
       exists n raw,
         batch !! n = Some raw
         /\ ((findOne w n (Raw.title raw) (Raw.company raw) (Raw.location raw)
              = Return (Some job)
              /\ Job.isActive job = true)
             \/ (findOne w n (Raw.title raw) (Raw.company raw) (Raw.location raw)
                 = Return None
                 /\ persist w n (createJob w (enhanceJobData raw)) = Return job)).
Proof.
  unfold processAndStoreJobs. split; [apply processFrom_length|].
  intros job H. apply processFrom_origin in H as (n & raw & Hn & Hp).
  exists n, raw. split; [exact Hn|]. now apply processJob_Some.
Qed.

(** ** Size of a run and its statistics *)

Section RunSize.

Variable w : World.
Variables keywords location : string.
Variable limit : Z.

Lemma ceilDiv_nonneg (a b : Z) : (0 <= a)%Z -> (0 < b)%Z -> (0 <= ceilDiv a b)%Z.
Proof.
  intros Ha Hb. unfold ceilDiv.
  assert ((- a) / b <= 0)%Z by (apply Z.div_le_upper_bound; lia). lia.
Qed.

Lemma siteOutcome_length (site : string) (siteJobs : list Raw.t) :
  (0 <= limit)%Z ->
  siteOutcome w keywords location limit site = Return siteJobs ->
  List.length siteJobs <= Z.to_nat (ceilDiv limit 3).
Proof.
  intros Hl. unfold siteOutcome.
  destruct (openPage w site); [|discriminate].
  destruct (jobSites !! site) as [config|]; [|discriminate].
  destruct (readCards w config (buildSearchUrl w config keywords location));
    [|discriminate].
  intros [= <-]. apply slice0_length. now apply ceilDiv_nonneg.
Qed.

Lemma gathered_length (sites : list string) :
  (0 <= limit)%Z ->
  List.length (gathered w keywords location limit sites)
  <= List.length sites * Z.to_nat (ceilDiv limit 3).
Proof.
  intros Hl. induction sites as [|site rest IH]; cbn [gathered List.length];
    [lia|].
  destruct (siteOutcome w keywords location limit site) as [siteJobs|e] eqn:E.
  - apply siteOutcome_length in E; [|exact Hl]. rewrite length_app. lia.
  - lia.
Qed.

Lemma failures_length (sites : list string) :
  List.length (failures w keywords location limit sites) <= List.length sites.
Proof.
  induction sites as [|site rest IH]; cbn [failures List.length]; [lia|].
  destruct (siteOutcome w keywords location limit site); cbn [List.length]; lia.
Qed.

Lemma processed_length (st1 : State) :
  jobsFound (completedResult w keywords location limit st1)
  <= foundCount w keywords location limit
  /\ ((0 <= limit)%Z ->
      jobsFound (completedResult w keywords location limit st1) <= Z.to_nat limit).
Proof.
  cbn [completedResult jobsFound]. unfold foundCount, processAndStoreJobs.
  pose proof (processFrom_length w 0
                (slice0 (deduplicateJobs
                           (gathered w keywords location limit sitesToScrape)) limit)).
  pose proof (slice0_length
                (deduplicateJobs (gathered w keywords location limit sitesToScrape))
                limit) as [Hs1 Hs2].
  pose proof (sublist_length _ _
                (dedupFrom_sublist ∅ (gathered w keywords location limit sitesToScrape))).
  unfold deduplicateJobs in *. split; [lia|]. intros Hl. specialize (Hs2 Hl). lia.
Qed.

Lemma all_failed (sites : list string) :
  (forall site, In site sites ->
     exists e, siteOutcome w keywords location limit site = Throw e) ->
  gathered w keywords location limit sites = []
  /\ List.length (failures w keywords location limit sites) = List.length sites.
Proof.
  induction sites as [|site rest IH]; intros H; [now split|].
  destruct (H site) as [e He]; [now left|].
  destruct IH as [Hg Hf]; [intros s Hs; apply H; now right|].
  cbn [gathered failures]. rewrite He. cbn [List.length]. now rewrite Hg, Hf.
Qed.

End RunSize.

(** X8. A completed run never returns more jobs than raw records were
    gathered, and it reports at most three source errors; when the limit is
    not negative it returns at most [limit] jobs and gathers at most
    [ceil(limit / 3)] raw records from each of the three sources. *)
Theorem scrapeJobs_respects_limit (w : World) (keywords location : string)
    (limit : Z) (st st1 : State) (b : Browser) :
  initialize w st = (Return b, st1) ->
  exists result st2,
    scrapeJobs w keywords location limit st = (Return result, st2)
    /\ jobsFound result = List.length (jobs result)
    /\ jobsFound result <= foundCount w keywords location limit
    /\ List.length (errors result) <= 3
    /\ ((0 <= limit)%Z ->
        jobsFound result <= Z.to_nat limit
        /\ foundCount w keywords location limit <= 3 * Z.to_nat (ceilDiv limit 3)).
Proof.
  intros Hinit.
  exists (completedResult w keywords location limit st1),
         (completedState w keywords location limit st1).
  split; [now apply (scrapeJobs_completed w keywords location limit st st1 b)|].
  split; [reflexivity|].
  destruct (processed_length w keywords location limit st1) as [H1 H2].
  split; [exact H1|].
  split; [apply (failures_length w keywords location limit sitesToScrape)|].
  intros Hl. split; [now apply H2|].
  apply (gathered_length w keywords location limit sitesToScrape Hl).
Qed.

(** The sample run with a limit of two jobs. *)
Lemma scrapeJobs_respects_limit_witness :
  exists result st2,
    scrapeJobs partialWorld "developer" "South Africa" 2 initial = (Return result, st2)
    /\ jobsFound result <= 2.
Proof.
  destruct (scrapeJobs_respects_limit partialWorld "developer" "South Africa" 2
              initial (mkState (Some 7) true (scrapingStats initial) [EvLaunch]) 7
              eq_refl)
    as (result & st2 & Hrun & _ & _ & _ & Hl).
  exists result, st2. split; [exact Hrun|].
  destruct Hl as [Hl _]; [lia|]. exact Hl.
Defined.

(** X9. A run in which every source raises still completes: it returns
    [success: true] with no jobs, one error entry per source and a success
    rate of 0, and the statistics record three errors. *)
Theorem scrapeJobs_all_sources_fail (w : World) (keywords location : string)
    (limit : Z) (st st1 : State) (b : Browser) :
  initialize w st = (Return b, st1) ->
  (forall site, In site sitesToScrape ->
     exists e, siteOutcome w keywords location limit site = Throw e) ->
  exists result st2,
    scrapeJobs w keywords location limit st = (Return result, st2)
    /\ success result = true
    /\ jobs result = []
    /\ jobsFound result = 0
    /\ List.length (errors result) = 3
    /\ Stats.errors (scrapingStats st2) = 3
    /\ Stats.successRate (scrapingStats st2) = 0%float
    /\ Stats.totalJobsScraped (scrapingStats st2)
       = Stats.totalJobsScraped (scrapingStats st).
Proof.
  intros Hinit Hall.
  exists (completedResult w keywords location limit st1),
         (completedState w keywords location limit st1).
  split; [now apply (scrapeJobs_completed w keywords location limit st st1 b)|].
  destruct (all_failed w keywords location limit sitesToScrape Hall) as [Hg Hf].
  apply initialize_returns_open in Hinit as [_ Hstats].
  unfold completedResult, completedState, completedStats.
  cbn [success jobs jobsFound errors scrapingStats Stats.errors Stats.successRate
       Stats.totalJobsScraped].
  rewrite Hg, Hf, Hstats. unfold deduplicateJobs, slice0. cbn [dedupFrom List.length].
  rewrite !take_nil.
  destruct (limit <? 0)%Z; cbn; repeat split; lia.
Qed.

(** The run in which every source refuses the connection. *)
Lemma scrapeJobs_all_sources_fail_witness :
  exists result st2,
    scrapeJobs allSourcesDownWorld "developer" "South Africa" 50 initial
    = (Return result, st2)
    /\ success result = true /\ jobs result = [] /\ List.length (errors result) = 3.
Proof.
  destruct (scrapeJobs_all_sources_fail allSourcesDownWorld "developer" "South Africa"
              50 initial (mkState (Some 7) true (scrapingStats initial) [EvLaunch]) 7
              eq_refl)
    as (result & st2 & Hrun & Hs & Hj & _ & He & _).
  - intros site [<-|[<-|[<-|[]]]]; eexists; vm_compute; reflexivity.
  - exists result, st2. auto.
Defined.

(** X10. The statistics of the service change only when a run completes: a
    completed run adds the number of jobs it returns to [totalJobsScraped],
    overwrites [errors] with the number of its error entries, stamps the
    run, and returns these statistics; a run that fails at launch leaves
    the statistics as they were. *)
Theorem scrapeJobs_statistics (w : World) (keywords location : string)
    (limit : Z) (st : State) :
  match scrapeJobs w keywords location limit st with
  | (Return result, st2) =>
      Stats.totalJobsScraped (scrapingStats st2)
      = Stats.totalJobsScraped (scrapingStats st) + jobsFound result
      /\ Stats.errors (scrapingStats st2) = List.length (errors result)
      /\ Stats.lastScrapingRun (scrapingStats st2) = Some DateNow
      /\ statistics result = Some (scrapingStats st2)
  | (Throw _, st2) => scrapingStats st2 = scrapingStats st
  end.
Proof.
  destruct (initialize_cases w st) as [(b & Hi & _)|[(b & Hi & _)|(e & Hi & _)]].
  - rewrite (scrapeJobs_completed w keywords location limit st _ b Hi).
    repeat split.
  - rewrite (scrapeJobs_completed w keywords location limit st _ b Hi).
    repeat split.
  - rewrite (scrapeJobs_launch_failure w keywords location limit st _ e Hi).
    reflexivity.
Qed.

(** ** Continuous scraping *)

Section ContinuousScan.

Variable worlds : string -> string -> World.

(** One pair of the scan either completes its run or records the launch
    error; it never raises. *)
Lemma scrapePair_cases (keyword location : string) (allJobs : list Job.t)
    (errs : list Continuous.Failure) (st : State) :
  (exists b st1,
      initialize (worlds keyword location) st = (Return b, st1)
      /\ scrapePair worlds keyword location allJobs errs st
         = (Return ((allJobs
                     ++ jobs (completedResult (worlds keyword location) keyword
                                              location 10 st1))%list,
                    errs),
            completedState (worlds keyword location) keyword location 10 st1))
  \/ (exists e st1,
        initialize (worlds keyword location) st = (Throw e, st1)
        /\ scrapePair worlds keyword location allJobs errs st
           = (Return (allJobs,
                      (errs ++ [Continuous.mkFailure keyword location (Some e)])%list),
              st1)).
Proof.
  unfold scrapePair, tryCatch, bind. cbv beta.
  destruct (initialize (worlds keyword location) st) as [[b|e] st1] eqn:Hi.
  - left. exists b, st1. split; [reflexivity|].
    now rewrite (scrapeJobs_completed _ keyword location 10 st st1 b Hi).
  - right. exists e, st1. split; [reflexivity|].
    now rewrite (scrapeJobs_launch_failure _ keyword location 10 st st1 e Hi).
Qed.

Lemma scanLocations_returns (keyword : string) (locs : list string)
    (allJobs : list Job.t) (errs : list Continuous.Failure) (st : State) :
  exists found failed st',
    scanLocations worlds keyword locs allJobs errs st
    = (Return ((allJobs ++ found)%list, (errs ++ failed)%list), st')
    /\ List.length failed <= List.length locs
    /\ Forall (fun f => Continuous.keyword f = keyword
                        /\ In (Continuous.location f) locs
                        /\ exists e, Continuous.error f = Some e) failed.
Proof.
  revert allJobs errs st.
  induction locs as [|location rest IH]; intros allJobs errs st.
  - exists [], [], st. cbn. rewrite !app_nil_r. repeat split; auto.
  - cbn [scanLocations]. unfold bind at 1.
    destruct (scrapePair_cases keyword location allJobs errs st)
      as [(b & st1 & _ & ->)|(e & st1 & _ & ->)]; cbn [fst snd].
    + destruct (IH (allJobs ++ jobs (completedResult (worlds keyword location) keyword
                                                     location 10 st1))%list
                   errs (completedState (worlds keyword location) keyword location 10 st1))
        as (found & failed & st' & -> & Hl & Hf).
      eexists _, failed, st'. rewrite <- app_assoc. split; [reflexivity|].
      split; [cbn [List.length]; lia|].
      eapply Forall_impl; [exact Hf|]. intros f (Hk & Hin & He).
      split; [exact Hk|]. split; [now right|exact He].
    + destruct (IH allJobs
                   (errs ++ [Continuous.mkFailure keyword location (Some e)])%list st1)
        as (found & failed & st' & -> & Hl & Hf).
      exists found, (Continuous.mkFailure keyword location (Some e) :: failed), st'.
      rewrite <- app_assoc. split; [reflexivity|].
      split; [cbn [List.length]; lia|].
      constructor; [cbn; split; [reflexivity|split; [now left|eauto]]|].
      eapply Forall_impl; [exact Hf|]. intros f (Hk & Hin & He).
      split; [exact Hk|]. split; [now right|exact He].
Qed.

Lemma scanKeywords_returns (keywords locs : list string)
    (allJobs : list Job.t) (errs : list Continuous.Failure) (st : State) :
  exists found failed st',
    scanKeywords worlds keywords locs allJobs errs st
    = (Return ((allJobs ++ found)%list, (errs ++ failed)%list), st')
    /\ List.length failed <= List.length keywords * List.length locs
    /\ Forall (fun f => In (Continuous.keyword f) keywords
                        /\ In (Continuous.location f) locs
                        /\ exists e, Continuous.error f = Some e) failed.
Proof.
  revert allJobs errs st.
  induction keywords as [|keyword rest IH]; intros allJobs errs st.
  - exists [], [], st. cbn. rewrite !app_nil_r. repeat split; auto.
  - cbn [scanKeywords]. unfold bind at 1.
    destruct (scanLocations_returns keyword locs allJobs errs st)
      as (found1 & failed1 & st1 & -> & Hl1 & Hf1). cbn [fst snd].
    destruct (IH (allJobs ++ found1)%list (errs ++ failed1)%list st1)
      as (found2 & failed2 & st2 & -> & Hl2 & Hf2).
    exists (found1 ++ found2)%list, (failed1 ++ failed2)%list, st2.
    rewrite !app_assoc. split; [reflexivity|].
    split; [rewrite length_app; cbn [List.length]; lia|].
    apply Forall_app. split.
    + eapply Forall_impl; [exact Hf1|]. intros f (Hk & Hin & He).
      split; [left; now rewrite Hk|]. auto.
    + eapply Forall_impl; [exact Hf2|]. intros f (Hk & Hin & He).
      split; [now right|]. auto.
Qed.

(** With an open session every pair completes, keeps the session, adds its
    jobs to the statistics and logs three source attempts and one audit
    record. *)
Lemma scanLocations_open (b : Browser) (keyword : string) (locs : list string)
    (allJobs : list Job.t) (errs : list Continuous.Failure) (st : State) :
  sessionOpen st b ->
  exists found st' evs,
    scanLocations worlds keyword locs allJobs errs st
    = (Return ((allJobs ++ found)%list, errs), st')
    /\ sessionOpen st' b
    /\ Stats.totalJobsScraped (scrapingStats st')
       = Stats.totalJobsScraped (scrapingStats st) + List.length found
    /\ events st' = (events st ++ evs)%list
    /\ List.length evs = 4 * List.length locs
    /\ Forall (fun ev => ev <> EvLaunch /\ ev <> EvBrowserClose) evs.
Proof.
  revert allJobs st.
  induction locs as [|location rest IH]; intros allJobs st Hopen.
  - exists [], st, []. cbn. rewrite !app_nil_r. repeat split; auto. apply Hopen. apply Hopen.
  - cbn [scanLocations]. unfold bind at 1.
    pose proof (initialize_open (worlds keyword location) st b Hopen) as Hi.
    destruct (scrapePair_cases keyword location allJobs errs st)
      as [(b' & st1 & Hi' & ->)|(e & st1 & Hi' & _)];
      rewrite Hi in Hi'; [injection Hi' as <- <-|discriminate Hi'].
    cbn [fst snd].
    destruct (IH (allJobs ++ jobs (completedResult (worlds keyword location) keyword
                                                   location 10 st))%list
                 (completedState (worlds keyword location) keyword location 10 st))
      as (found & st' & evs & -> & Ho & Ht & He & Hl & Hq).
    { exact Hopen. }
    eexists _, st', _. rewrite <- app_assoc. split; [reflexivity|].
    split; [exact Ho|]. split; [|split; [|split]].
    + rewrite Ht, length_app. cbn. lia.
    + rewrite He. cbn [completedState events]. now rewrite <- app_assoc.
    + rewrite length_app, Hl. cbn [List.length]. lia.
    + apply Forall_app. split; [|exact Hq].
      repeat constructor; discriminate.
Qed.

Lemma scanKeywords_open (b : Browser) (keywords locs : list string)
    (allJobs : list Job.t) (errs : list Continuous.Failure) (st : State) :
  sessionOpen st b ->
  exists found st' evs,
    scanKeywords worlds keywords locs allJobs errs st
    = (Return ((allJobs ++ found)%list, errs), st')
    /\ sessionOpen st' b
    /\ Stats.totalJobsScraped (scrapingStats st')
       = Stats.totalJobsScraped (scrapingStats st) + List.length found
    /\ events st' = (events st ++ evs)%list
    /\ List.length evs = 4 * (List.length keywords * List.length locs)
    /\ Forall (fun ev => ev <> EvLaunch /\ ev <> EvBrowserClose) evs.
Proof.
  revert allJobs st.
  induction keywords as [|keyword rest IH]; intros allJobs st Hopen.
  - exists [], st, []. cbn. rewrite !app_nil_r. repeat split; auto. apply Hopen. apply Hopen.
  - cbn [scanKeywords]. unfold bind at 1.
    destruct (scanLocations_open b keyword locs allJobs errs st Hopen)
      as (found1 & st1 & evs1 & -> & Ho1 & Ht1 & He1 & Hl1 & Hq1). cbn [fst snd].
    destruct (IH (allJobs ++ found1)%list st1 Ho1)
      as (found2 & st2 & evs2 & -> & Ho2 & Ht2 & He2 & Hl2 & Hq2).
    exists (found1 ++ found2)%list, st2, (evs1 ++ evs2)%list.
    rewrite !app_assoc. split; [reflexivity|]. split; [exact Ho2|].
    split; [rewrite Ht2, Ht1, length_app; lia|].
    split; [rewrite He2, He1; reflexivity|].
    split; [rewrite length_app, Hl1, Hl2; cbn [List.length]; lia|].
    apply Forall_app. now split.
Qed.

(** Without a session and with a launch that always fails every pair records
    the launch error. *)
Lemma scanLocations_launch_fails (e keyword : string) (locs : list string)
    (allJobs : list Job.t) (errs : list Continuous.Failure) (st : State) :
  (forall k l, launch (worlds k l) = Throw e) ->
  isInitialized st = false ->
  scanLocations worlds keyword locs allJobs errs st
  = (Return (allJobs,
             (errs ++ map (fun l => Continuous.mkFailure keyword l (Some e)) locs)%list),
     mkState (browser st) false (scrapingStats st)
             (events st ++ replicate (List.length locs) EvLaunch)%list).
Proof.
  intros Hl. revert errs st.
  induction locs as [|location rest IH]; intros errs st Hi.
  - cbn. rewrite !app_nil_r. destruct st; cbn in *. now subst.
  - cbn [scanLocations]. unfold bind at 1.
    assert (Hinit : initialize (worlds keyword location) st
                    = (Throw e, mkState (browser st) false (scrapingStats st)
                                        (events st ++ [EvLaunch])%list)).
    { rewrite initialize_not_open by now rewrite Hi. now rewrite Hl. }
    destruct (scrapePair_cases keyword location allJobs errs st)
      as [(b' & st1 & Hi' & _)|(e' & st1 & Hi' & ->)];
      rewrite Hinit in Hi'; [discriminate Hi'|injection Hi' as <- <-].
    cbn [fst snd]. rewrite IH by reflexivity.
    cbn [browser scrapingStats events map List.length replicate].
    now rewrite <- !app_assoc.
Qed.

Lemma scanKeywords_launch_fails (e : string) (keywords locs : list string)
    (allJobs : list Job.t) (errs : list Continuous.Failure) (st : State) :
  (forall k l, launch (worlds k l) = Throw e) ->
  isInitialized st = false ->
  scanKeywords worlds keywords locs allJobs errs st
  = (Return (allJobs, (errs ++ allPairsFail keywords locs e)%list),
     mkState (browser st) false (scrapingStats st)
             (events st
              ++ replicate (List.length keywords * List.length locs) EvLaunch)%list).
Proof.
  intros Hl. revert errs st.
  induction keywords as [|keyword rest IH]; intros errs st Hi.
  - cbn. rewrite !app_nil_r. destruct st; cbn in *. now subst.
  - cbn [scanKeywords]. unfold bind at 1.
    rewrite (scanLocations_launch_fails e) by assumption. cbn [fst snd].
    rewrite IH by reflexivity.
    change (List.length (keyword :: rest) * List.length locs)
      with (List.length locs + List.length rest * List.length locs).
    unfold allPairsFail. cbn [browser scrapingStats events flat_map].
    now rewrite replicate_add, <- !app_assoc.
Qed.

End ContinuousScan.

(** X11. [continuousScraping] never raises, whatever happens in its runs:
    it returns a report with at most one failure per keyword and location,
    96 at most, each naming a keyword and a location of the two lists and
    carrying the message of the run that failed, together with the
    statistics of the service as the last run left them. *)
Theorem continuousScraping_never_raises (worlds : string -> string -> World)
    (st : State) :
  exists report st',
    continuousScraping worlds st = (Return report, st')
    /\ List.length (Continuous.errors report) <= 96
    /\ Continuous.statistics report = scrapingStats st'
    /\ Forall (fun f => In (Continuous.keyword f) popularKeywords
                        /\ In (Continuous.location f) locations
                        /\ exists e, Continuous.error f = Some e)
              (Continuous.errors report).
Proof.
  unfold continuousScraping. unfold bind at 1.
  destruct (scanKeywords_returns worlds popularKeywords locations [] [] st)
    as (found & failed & st1 & -> & Hl & Hf).
  unfold bind, auditLog, emit, get, ret. unfold modify.
  eexists _, _. split; [reflexivity|].
  cbn [fst snd Continuous.errors Continuous.statistics scrapingStats app].
  split; [exact Hl|]. split; [reflexivity|exact Hf].
Qed.

(** X12. When the session is open at the start, [continuousScraping] runs
    all 96 searches on that one session: no run fails, no browser is
    launched or closed, every run attempts its three sources and writes its
    audit record, the session is still open at the end, and the statistics
    have grown by exactly the number of jobs reported. *)
Theorem continuousScraping_reuses_session (worlds : string -> string -> World)
    (st : State) (b : Browser) :
  sessionOpen st b ->
  exists report st' evs,
    continuousScraping worlds st = (Return report, st')
    /\ Continuous.errors report = []
    /\ browser st' = Some b /\ isInitialized st' = true
    /\ Stats.totalJobsScraped (scrapingStats st')
       = Stats.totalJobsScraped (scrapingStats st) + Continuous.totalJobs report
    /\ events st' = (events st ++ evs)%list
    /\ List.length evs = 96 * 4 + 1
    /\ Forall (fun ev => ev <> EvLaunch /\ ev <> EvBrowserClose) evs.
Proof.
  intros Hopen. unfold continuousScraping. unfold bind at 1.
  destruct (scanKeywords_open worlds b popularKeywords locations [] [] st Hopen)
    as (found & st1 & evs & -> & [Hb Hi] & Ht & He & Hl & Hq).
  unfold bind, auditLog, emit, get, ret. unfold modify.
  eexists _, _, (evs ++ [EvAudit "CONTINUOUS_SCRAPING_COMPLETED"])%list.
  split; [reflexivity|].
  cbn [fst snd Continuous.errors Continuous.totalJobs browser isInitialized
       scrapingStats events app].
  split; [reflexivity|]. split; [exact Hb|]. split; [exact Hi|].
  split; [exact Ht|]. split; [rewrite He; now rewrite <- app_assoc|].
  split; [rewrite length_app, Hl; reflexivity|].
  apply Forall_app. split; [exact Hq|]. repeat constructor; discriminate.
Qed.

(** A continuous scan on the session a run has left open. *)
Lemma continuousScraping_reuses_session_witness :
  exists report st',
    continuousScraping (fun _ _ => partialWorld)
      (mkState (Some 7) true (scrapingStats initial) [EvLaunch])
    = (Return report, st')
    /\ Continuous.errors report = []
    /\ browser st' = Some 7.
Proof.
  destruct (continuousScraping_reuses_session (fun _ _ => partialWorld)
              (mkState (Some 7) true (scrapingStats initial) [EvLaunch]) 7
              (conj eq_refl eq_refl))
    as (report & st' & evs & Hrun & He & Hb & _).
  exists report, st'. auto.
Defined.

(** X13. When the service is not initialised and the browser cannot be
    launched, [continuousScraping] tries to launch it once for every keyword
    and location, attempts no source, and reports no job and 96 failures
    that carry the launch error, in the order of the scan; the statistics
    and the recorded browser are untouched. *)
Theorem continuousScraping_launch_always_fails (worlds : string -> string -> World)
    (e : string) (st : State) :
  (forall keyword location, launch (worlds keyword location) = Throw e) ->
  isInitialized st = false ->
  continuousScraping worlds st
  = (Return (Continuous.mk 0 (allPairsFail popularKeywords locations e)
                           (scrapingStats st)),
     mkState (browser st) false (scrapingStats st)
             (events st ++ replicate 96 EvLaunch
              ++ [EvAudit "CONTINUOUS_SCRAPING_COMPLETED"])%list)
  /\ List.length (allPairsFail popularKeywords locations e) = 96.
Proof.
  intros Hl Hi. split; [|reflexivity].
  unfold continuousScraping. unfold bind at 1.
  rewrite (scanKeywords_launch_fails worlds e) by assumption.
  unfold bind, auditLog, emit, get, ret. unfold modify.
  cbn [fst snd browser isInitialized scrapingStats events app List.length].
  now rewrite <- app_assoc.
Qed.

(** The continuous scan on a host without a browser. *)
Lemma continuousScraping_launch_always_fails_witness :
  exists report st',
    continuousScraping (fun _ _ => launchFailsWorld) initial = (Return report, st')
    /\ Continuous.totalJobs report = 0
    /\ List.length (Continuous.errors report) = 96.
Proof.
  destruct (continuousScraping_launch_always_fails (fun _ _ => launchFailsWorld)
              "Failed to launch the browser process" initial
              (fun _ _ => eq_refl) eq_refl)
    as [Hrun Hlen].
  eexists _, _. split; [exact Hrun|]. split; [reflexivity|exact Hlen].
Defined.

(** ** Substrings *)

Section Substrings.

Lemma startsWith_iff (s k : string) :
  startsWith s k = true <-> exists b, s = k ++ b.
Proof.
  revert s; induction k as [|c k IH]; intros s.
  - split; [exists s; reflexivity|]. intros _. now destruct s.
  - destruct s as [|a s]; cbn [startsWith].
    + split; [discriminate|]. intros [b [=]].
    + destruct (Ascii.eqb_spec c a) as [->|Hne].
      * rewrite IH. split; intros [b Hb]; exists b.
        -- now rewrite Hb.
        -- now injection Hb.
      * split; [discriminate|]. intros [b [= E _]]. congruence.
Qed.

Lemma includes_iff (s k : string) :
  includes s k = true <-> exists a b, s = a ++ k ++ b.
Proof.
  induction s as [|c s IH]; cbn [includes].
  - rewrite orb_false_r, startsWith_iff. split.
    + intros [b Hb]. exists "", b. exact Hb.
    + intros ([|x a] & b & E); [exists b; exact E|discriminate E].
  - rewrite orb_true_iff, startsWith_iff, IH. split.
    + intros [[b Hb]|(a & b & E)].
      * exists "", b. exact Hb.
      * exists (String c a), b. now rewrite E.
    + intros ([|x a] & b & E).
      * left. exists b. exact E.
      * right. injection E as _ E. exists a, b. exact E.
Qed.

Lemma includes_trans (s k k' : string) :
  includes s k = true -> includes k k' = true -> includes s k' = true.
Proof.
  rewrite !includes_iff. intros (a & b & ->) (a' & b' & ->).
  exists (a ++ a'), (b' ++ b). now rewrite !string_app_assoc.
Qed.

End Substrings.

(** ** Experience level and remoteness *)

(** X14. The experience level is the first level, in the order entry,
    senior, executive, mid, with a keyword in the lower-cased title and
    description, and not-specified when there is none. The keyword
    "graduate" belongs to this classifier and to the job-type classifier:
    a text that mentions it is always an entry-level job of type part-time,
    contract, temporary or internship. *)
Theorem detectExperienceLevel_priority (jobData : JobData) :
  let text := toLowerCase (titleAndDescription jobData) in
  detectExperienceLevel jobData = firstCategory text experiencePriority "not-specified"
  /\ (Forall (fun rule => someIncluded text (snd rule) = false) experiencePriority ->
      detectExperienceLevel jobData = "not-specified")
  /\ (forall earlier first firstKeywords later,
        experiencePriority = (earlier ++ (first, firstKeywords) :: later)%list ->
        Forall (fun rule => someIncluded text (snd rule) = false) earlier ->
        someIncluded text firstKeywords = true ->
        detectExperienceLevel jobData = first)
  /\ (includes text "graduate" = true ->
      detectExperienceLevel jobData = "entry"
      /\ In (detectJobType jobData) ["part-time"; "contract"; "temporary"; "internship"]).
Proof.
  intros text.
  assert (Hfirst : detectExperienceLevel jobData
                   = firstCategory text experiencePriority "not-specified").
  { unfold detectExperienceLevel. fold text.
    unfold experiencePriority, firstCategory, someIncluded.
    cbn [existsb]. rewrite !orb_false_r, !orb_assoc. reflexivity. }
  assert (Hskip : forall rules rest default,
             Forall (fun rule => someIncluded text (snd rule) = false) rules ->
             firstCategory text (rules ++ rest)%list default
             = firstCategory text rest default).
  { intros rules rest default H.
    induction H as [|[cat kws] rules Hr _ IH]; [reflexivity|].
    cbn [app firstCategory]. cbn [snd] in Hr. now rewrite Hr. }
  split; [exact Hfirst|]. split; [|split].
  - intros H. rewrite Hfirst.
    rewrite <- (app_nil_r experiencePriority). now rewrite Hskip.
  - intros earlier first fk later E He H1.
    rewrite Hfirst, E, Hskip by exact He. cbn [firstCategory]. now rewrite H1.
  - intros Hg. split.
    + unfold detectExperienceLevel. fold text. rewrite Hg, !orb_true_r. reflexivity.
    + unfold detectJobType. fold text. rewrite Hg, orb_true_r.
      destruct (includes text "part-time" || includes text "part time");
        [cbn; auto|].
      destruct (includes text "contract"); [cbn; auto|].
      destruct (includes text "temporary" || includes text "temp"); cbn; auto.
Qed.

(** The classifier at a senior role that also names a director and at a
    graduate programme. *)
Lemma detectExperienceLevel_priority_witness :
  detectExperienceLevel
    (mkJobData (JStr "Senior Analyst") JNull JNull JNull JNull JNull JNull JNull JNull
               (JStr "Reports to the finance director") None None)
  = "senior"
  /\ detectExperienceLevel
       (mkJobData (JStr "Graduate Programme") JNull JNull JNull JNull JNull JNull JNull
                  JNull JUndefined None None)
     = "entry".
Proof.
  split.
  - destruct (detectExperienceLevel_priority
                (mkJobData (JStr "Senior Analyst") JNull JNull JNull JNull JNull JNull
                           JNull JNull (JStr "Reports to the finance director")
                           None None))
      as (_ & _ & H & _).
    apply (H [("entry", ["junior"; "entry level"; "graduate"])] "senior"
             ["senior"; "lead"; "principal"; "head of"]
             [("executive", ["executive"; "director"; "vp"; "c-level"]);
              ("mid", ["mid"; "intermediate"])]);
      [reflexivity | repeat constructor | reflexivity].
  - destruct (detectExperienceLevel_priority
                (mkJobData (JStr "Graduate Programme") JNull JNull JNull JNull JNull
                           JNull JNull JNull JUndefined None None))
      as (_ & _ & _ & H).
    apply H. reflexivity.
Defined.

(** X15. The two remote detectors agree in one direction: a record that
    [detectJobType] classifies as remote is a remote job for [isRemoteJob],
    and so is every record whose location mentions "remote", "anywhere" or
    "virtual", whatever its job type. *)
Theorem remote_type_is_remote_job (jobData : JobData) :
  (detectJobType jobData = "remote" -> isRemoteJob jobData = true)
  /\ (includes (toLowerCase (tpl (location jobData))) "remote" = true
      \/ includes (toLowerCase (tpl (location jobData))) "anywhere" = true
      \/ includes (toLowerCase (tpl (location jobData))) "virtual" = true ->
      isRemoteJob jobData = true).
Proof.
  unfold isRemoteJob. rewrite !toLowerCase_app.
  set (text := toLowerCase (titleAndDescription jobData)).
  set (rest := toLowerCase " " ++ toLowerCase (tpl (location jobData))).
  split.
  - unfold detectJobType. fold text.
    destruct (includes text "part-time" || includes text "part time");
      [discriminate|].
    destruct (includes text "contract"); [discriminate|].
    destruct (includes text "temporary" || includes text "temp"); [discriminate|].
    destruct (includes text "intern" || includes text "graduate"); [discriminate|].
    destruct (includes text "remote") eqn:Er.
    + intros _. now rewrite (includes_app_l text rest "remote" Er).
    + destruct (includes text "work from home") eqn:Ew.
      * intros _. rewrite (includes_app_l text rest "work from home" Ew).
        now rewrite orb_true_r.
      * cbn. destruct (includes text "hybrid"); discriminate.
  - unfold rest.
    intros [H|[H|H]];
      apply (includes_app_r (toLowerCase " ")), (includes_app_r text) in H;
      rewrite H, ?orb_true_r; reflexivity.
Qed.

(** A remote posting by its title, and one by its location only. *)
Lemma remote_type_is_remote_job_witness :
  isRemoteJob (mkJobData (JStr "Remote Backend Engineer") JNull (JStr "Cape Town")
                         JNull JNull JNull JNull JNull JNull JUndefined None None)
  = true
  /\ isRemoteJob (mkJobData (JStr "Accountant") JNull (JStr "Anywhere in South Africa")
                            JNull JNull JNull JNull JNull JNull JUndefined None None)
     = true.
Proof.
  split.
  - apply (proj1 (remote_type_is_remote_job _)). reflexivity.
  - apply (proj2 (remote_type_is_remote_job _)). right. left. reflexivity.
Defined.

(** ** Categories *)

Section CategoryList.

Lemma matchedCategories_sublist (text : string) (table : list (string * list string)) :
  sublist (matchedCategories text table) (table.*1).
Proof.
  induction table as [|[c kws] table IH]; cbn [matchedCategories fmap list_fmap fst].
  - constructor.
  - destruct (someIncluded text kws); [now apply sublist_skip|now apply sublist_cons].
Qed.

Lemma categoryKeywords_NoDup : NoDup (categoryKeywords.*1).
Proof. apply (bool_decide_unpack _). vm_compute. reflexivity. Qed.

Lemma matchedCategories_nil (text : string) (table : list (string * list string)) :
  matchedCategories text table = [] <->
  Forall (fun rule => someIncluded text (snd rule) = false) table.
Proof.
  induction table as [|[c kws] table IH]; cbn [matchedCategories].
  - split; [constructor|reflexivity].
  - destruct (someIncluded text kws) eqn:E.
    + split; [discriminate|]. intros H. inversion H as [|? ? H1 _]; subst.
      cbn [snd] in H1. rewrite E in H1. discriminate H1.
    + rewrite IH. split; [now constructor|]. intros H. now inversion H.
Qed.

End CategoryList.

(** X16. The category list of a record is never empty and never repeats a
    category; it is drawn, in table order, from the seven categories of the
    table, or it is exactly ['General'], which happens precisely when no
    keyword of the table occurs in the lower-cased title and description. *)
Theorem detectCategories_shape (jobData : JobData) :
  let text := toLowerCase (titleAndDescription jobData) in
  detectCategories jobData <> []
  /\ NoDup (detectCategories jobData)
  /\ (sublist (detectCategories jobData) (categoryKeywords.*1)
      \/ detectCategories jobData = ["General"])
  /\ (In "General" (detectCategories jobData) <-> detectCategories jobData = ["General"])
  /\ (detectCategories jobData = ["General"]
      <-> Forall (fun rule => someIncluded text (snd rule) = false) categoryKeywords).
Proof.
  intros text. unfold detectCategories. fold text.
  pose proof (matchedCategories_sublist text categoryKeywords) as Hsub.
  pose proof (matchedCategories_nil text categoryKeywords) as Hnil.
  assert (Hgen : ~ In "General" (matchedCategories text categoryKeywords)).
  { intros H. apply list_elem_of_In in H.
    apply (fun H => elem_of_sublist _ _ _ H Hsub) in H.
    apply list_elem_of_In in H. cbn in H.
    repeat (destruct H as [H|H]; [discriminate H|]). exact H. }
  destruct (matchedCategories text categoryKeywords) as [|c cs] eqn:E;
    cbn [List.length Nat.ltb Nat.leb].
  - split; [discriminate|]. split; [apply NoDup_singleton|].
    split; [now right|]. split; [split; [reflexivity|intros _; now left]|].
    split; [intros _; now apply Hnil|reflexivity].
  - split; [discriminate|].
    split; [exact (sublist_NoDup _ _ categoryKeywords_NoDup Hsub)|].
    split; [now left|]. split; [split; [contradiction|]|].
    + intros [= -> ->]. exfalso. apply Hgen. now left.
    + split.
      * intros [= -> ->]. exfalso. apply Hgen. now left.
      * intros H. apply Hnil in H. discriminate H.
Qed.

(** X17. The keyword "engineer" sits in the lists of two categories: every
    record whose lower-cased title and description mention it is tagged both
    'IT' and 'Engineering', with 'IT' first. *)
Theorem detectCategories_engineer (jobData : JobData) :
  includes (toLowerCase (titleAndDescription jobData)) "engineer" = true ->
  In "IT" (detectCategories jobData)
  /\ In "Engineering" (detectCategories jobData)
  /\ head (detectCategories jobData) = Some "IT".
Proof.
  intros H. unfold detectCategories.
  set (text := toLowerCase (titleAndDescription jobData)) in *.
  assert (Hit : someIncluded text itKeywords = true).
  { unfold someIncluded, itKeywords. cbn [existsb]. rewrite H, !orb_true_r. reflexivity. }
  assert (H1 : In "IT" (matchedCategories text categoryKeywords)).
  { apply matchedCategories_In. exists itKeywords. split; [now left|exact Hit]. }
  assert (H2 : In "Engineering" (matchedCategories text categoryKeywords)).
  { apply matchedCategories_In.
    exists ["engineer"; "technical"; "manufacturing"; "production"].
    split; [cbn; tauto|]. unfold someIncluded. cbn [existsb]. now rewrite H. }
  assert (H3 : head (matchedCategories text categoryKeywords) = Some "IT").
  { unfold categoryKeywords. cbn [matchedCategories]. now rewrite Hit. }
  destruct (matchedCategories text categoryKeywords) as [|c cs]; [destruct H1|].
  cbn [List.length Nat.ltb Nat.leb]. auto.
Qed.

(** The categories of an engineering posting. *)
Lemma detectCategories_engineer_witness :
  detectCategories
    (mkJobData (JStr "Civil Engineer") JNull JNull JNull JNull JNull JNull JNull JNull
               JUndefined None None)
  = ["IT"; "Engineering"].
Proof.
  destruct (detectCategories_engineer
              (mkJobData (JStr "Civil Engineer") JNull JNull JNull JNull JNull JNull
                         JNull JNull JUndefined None None) eq_refl)
    as (_ & _ & _).
  vm_compute. reflexivity.
Defined.

(** ** Skills *)

Section Skills.

Lemma commonSkills_NoDup : NoDup commonSkills.
Proof. apply (bool_decide_unpack _). vm_compute. reflexivity. Qed.

Lemma setAdd_fresh (skills : list string) (skill : string) :
  ~ In skill skills -> setAdd skills skill = (skills ++ [skill])%list.
Proof.
  intros H. unfold setAdd.
  destruct (existsb (String.eqb skill) skills) eqn:E; [|reflexivity].
  apply existsb_exists in E as (x & Hin & Hx). apply String.eqb_eq in Hx. now subst.
Qed.

Lemma fold_setAdd (P : string -> bool) (vocabulary acc : list string) :
  NoDup (acc ++ vocabulary) ->
  fold_left (fun (skills : list string) (skill : string) =>
               if P skill then setAdd skills skill else skills)
            vocabulary acc
  = (acc ++ List.filter P vocabulary)%list.
Proof.
  revert acc; induction vocabulary as [|x rest IH]; intros acc Hnd.
  - cbn. now rewrite app_nil_r.
  - cbn [fold_left List.filter].
    assert (Hx : ~ In x acc).
    { intros Hin. apply NoDup_app in Hnd as (_ & Hd & _).
      apply (Hd x); [now apply list_elem_of_In|left]. }
    destruct (P x).
    + rewrite setAdd_fresh by exact Hx. rewrite IH.
      * now rewrite <- app_assoc.
      * now rewrite <- app_assoc.
    + apply IH. apply NoDup_app in Hnd as (Ha & Hd & Hr).
      apply NoDup_app. split; [exact Ha|]. split.
      * intros y Hy Hin. apply (Hd y Hy). now right.
      * now inversion Hr.
Qed.

End Skills.

(** X18. [extractSkills] returns exactly the skills of the vocabulary whose
    lower-cased name occurs in the lower-cased title and description, each
    once and in vocabulary order; so a skill whose name contains the name of
    another skill of the vocabulary always brings that one along, as
    'JavaScript' brings 'Java'. *)
Theorem extractSkills_filter (jobData : JobData) :
  let text := toLowerCase (titleAndDescription jobData) in
  extractSkills jobData
  = List.filter (fun skill => includes text (toLowerCase skill)) commonSkills
  /\ NoDup (extractSkills jobData)
  /\ (forall skill, In skill (extractSkills jobData) <->
        In skill commonSkills /\ includes text (toLowerCase skill) = true)
  /\ (forall skill other,
        In skill (extractSkills jobData) -> In other commonSkills ->
        includes (toLowerCase skill) (toLowerCase other) = true ->
        In other (extractSkills jobData))
  /\ (In "JavaScript" (extractSkills jobData) -> In "Java" (extractSkills jobData)).
Proof.
  intros text.
  assert (E : extractSkills jobData
              = List.filter (fun skill => includes text (toLowerCase skill)) commonSkills).
  { unfold extractSkills. fold text.
    now rewrite (fold_setAdd (fun skill => includes text (toLowerCase skill))
                   commonSkills [] commonSkills_NoDup). }
  assert (Hin : forall skill, In skill (extractSkills jobData) <->
                  In skill commonSkills /\ includes text (toLowerCase skill) = true).
  { intros skill. rewrite E.
    exact (List.filter_In (fun skill => includes text (toLowerCase skill))
             skill commonSkills). }
  assert (Hsub : forall skill other,
             In skill (extractSkills jobData) -> In other commonSkills ->
             includes (toLowerCase skill) (toLowerCase other) = true ->
             In other (extractSkills jobData)).
  { intros skill other Hs Ho Hi. destruct (proj1 (Hin skill) Hs) as [_ Hs'].
    apply (proj2 (Hin other)).
    split; [exact Ho|]. exact (includes_trans _ _ _ Hs' Hi). }
  split; [exact E|]. split; [|split; [exact Hin|split; [exact Hsub|]]].
  - rewrite E. apply NoDup_ListNoDup, List.NoDup_filter, NoDup_ListNoDup.
    exact commonSkills_NoDup.
  - intros H. apply (Hsub "JavaScript" "Java" H); [|reflexivity].
    unfold commonSkills. right. right. left. reflexivity.
Qed.

(** The skills of a JavaScript posting. *)
Lemma extractSkills_filter_witness :
  In "Java"
     (extractSkills
        (mkJobData (JStr "JavaScript Developer") JNull JNull JNull JNull JNull JNull
                   JNull JNull JUndefined None None)).
Proof.
  destruct (extractSkills_filter
              (mkJobData (JStr "JavaScript Developer") JNull JNull JNull JNull JNull
                         JNull JNull JNull JUndefined None None))
    as (_ & _ & _ & _ & H).
  apply H. vm_compute. left. reflexivity.
Defined.

(** ** Clean-up of a scraped record *)

Section Trimming.

Lemma trimStart_In (s : string) (a : ascii) :
  In a (chars (trimStart s)) -> In a (chars s).
Proof.
  induction s as [|c s IH]; cbn [trimStart]; [intros H; exact H|].
  destruct (is_space c); [intros H; right; now apply IH|intros H; exact H].
Qed.

Lemma trimStart_first (s : string) (a : ascii) :
  firstChar (trimStart s) = Some a -> is_space a = false.
Proof.
  induction s as [|c s IH]; cbn [trimStart]; [discriminate|].
  destruct (is_space c) eqn:E; [exact IH|]. intros [= <-]. exact E.
Qed.

Lemma trimEnd_In (s : string) (a : ascii) :
  In a (chars (trimEnd s)) -> In a (chars s).
Proof.
  unfold trimEnd. rewrite chars_unchars. intros H.
  apply list_elem_of_In in H. rewrite elem_of_reverse in H.
  apply list_elem_of_In, trimStart_In in H. rewrite chars_unchars in H.
  apply list_elem_of_In in H. rewrite elem_of_reverse in H.
  apply list_elem_of_In. exact H.
Qed.

Lemma trimStart_snoc (l : list ascii) (c : ascii) :
  is_space c = false ->
  exists l', chars (trimStart (unchars (l ++ [c]))) = (l' ++ [c])%list.
Proof.
  intros Hc. induction l as [|x l IH]; cbn [app unchars trimStart].
  - rewrite Hc. now exists [].
  - destruct (is_space x); [exact IH|].
    exists (x :: l). cbn [chars]. now rewrite chars_unchars.
Qed.

Lemma trimEnd_first (s : string) (c : ascii) :
  firstChar s = Some c -> is_space c = false -> firstChar (trimEnd s) = Some c.
Proof.
  destruct s as [|x s]; [discriminate|]. intros [= ->] Hc.
  unfold trimEnd. cbn [chars]. rewrite reverse_cons.
  destruct (trimStart_snoc (reverse (chars s)) c Hc) as [l' ->].
  now rewrite reverse_app.
Qed.

Lemma lastChar_snoc (l : list ascii) (c : ascii) :
  lastChar (unchars (l ++ [c])) = Some c.
Proof.
  induction l as [|x l IH]; [reflexivity|].
  cbn [app unchars lastChar]. rewrite IH.
  destruct (unchars (l ++ [c])) eqn:E; [|reflexivity].
  destruct l; discriminate E.
Qed.

Lemma lastChar_reverse (l : list ascii) :
  lastChar (unchars (reverse l)) = head l.
Proof.
  destruct l as [|x l]; [reflexivity|].
  rewrite reverse_cons. apply lastChar_snoc.
Qed.

Lemma trimEnd_last (s : string) (a : ascii) :
  lastChar (trimEnd s) = Some a -> is_space a = false.
Proof.
  unfold trimEnd. rewrite lastChar_reverse. intros H.
  apply (trimStart_first (unchars (reverse (chars s)))).
  destruct (trimStart (unchars (reverse (chars s)))); [discriminate H|exact H].
Qed.

Lemma trim_first (s : string) (a : ascii) :
  firstChar (trim s) = Some a -> is_space a = false.
Proof.
  unfold trim. destruct (trimStart s) as [|c t] eqn:E; [discriminate|].
  assert (Hc : is_space c = false)
    by (apply (trimStart_first s); now rewrite E).
  rewrite (trimEnd_first (String c t) c eq_refl Hc). now intros [= <-].
Qed.

Lemma replaceNewlinesTabs_In (s : string) (a : ascii) :
  In a (chars (replaceNewlinesTabs s)) ->
  nat_of_ascii a <> 10 /\ nat_of_ascii a <> 9.
Proof.
  induction s as [|c s IH]; cbn [replaceNewlinesTabs chars]; [intros []|].
  intros [<-|H]; [|now apply IH].
  destruct ((nat_of_ascii c =? 10)%nat || (nat_of_ascii c =? 9)%nat) eqn:E.
  - split; discriminate.
  - apply orb_false_iff in E as [E1 E2].
    apply Nat.eqb_neq in E1, E2. now split.
Qed.

Lemma extractSkillsFromText_fold (text : string) (vocabulary acc : list string) :
  fold_left (fun (skills : list string) (skill : string) =>
               if includes (toLowerCase text) skill
               then (skills ++ [capitalize skill])%list else skills)
            vocabulary acc
  = (acc ++ map capitalize
              (List.filter (fun skill => includes (toLowerCase text) skill)
                           vocabulary))%list.
Proof.
  revert acc; induction vocabulary as [|k rest IH]; intros acc.
  - cbn. now rewrite app_nil_r.
  - cbn [fold_left List.filter].
    destruct (includes (toLowerCase text) k); rewrite IH; [|reflexivity].
    cbn [map]. now rewrite <- app_assoc.
Qed.

End Trimming.

(** X19. [enhanceJobData] cleans the company name: the cleaned name holds no
    line feed and no tab and neither starts nor ends with white space. The
    description it adds is the non-empty summary, and the skills it adds are
    never an empty list: they are the capitalised keywords of the short
    vocabulary that occur in the lower-cased summary, in vocabulary
    order. *)
Theorem enhanceJobData_cleans (jobData : Raw.t) :
  let enhanced := enhanceJobData jobData in
  (forall s, Raw.company jobData = JStr s -> s <> "" ->
     exists c,
       company enhanced = JStr c
       /\ (forall a, In a (chars c) -> nat_of_ascii a <> 10 /\ nat_of_ascii a <> 9)
       /\ (forall a, firstChar c = Some a -> is_space a = false)
       /\ (forall a, lastChar c = Some a -> is_space a = false))
  /\ (truthy (Raw.company jobData) = false ->
      company enhanced = Raw.company jobData)
  /\ description enhanced
     = (if truthy (Raw.summary jobData) then Raw.summary jobData else JUndefined)
  /\ (forall found, skills enhanced = Some found ->
        found <> []
        /\ exists text,
             Raw.summary jobData = JStr text /\ text <> ""
             /\ found
                = map capitalize
                    (List.filter (fun skill => includes (toLowerCase text) skill)
                                 skillKeywords)).
Proof.
  cbv zeta. unfold enhanceJobData. cbn [company description skills].
  split; [|split; [|split]].
  - intros s -> Hs. assert (Ht : truthy (JStr s) = true) by (now destruct s).
    rewrite Ht. eexists. split; [reflexivity|]. split; [|split].
    + intros a Ha. unfold trim in Ha.
      apply trimEnd_In, trimStart_In in Ha. now apply replaceNewlinesTabs_In in Ha.
    + apply trim_first.
    + unfold trim. apply trimEnd_last.
  - destruct (Raw.company jobData) as [| |s]; try reflexivity.
    intros ->. reflexivity.
  - reflexivity.
  - intros found. destruct (Raw.summary jobData) as [| |text]; try discriminate.
    destruct (truthy (JStr text)) eqn:Ht; [|discriminate].
    destruct (0 <? List.length (extractSkillsFromText text))%nat eqn:El;
      [|discriminate].
    intros [= <-]. split.
    + intros E. rewrite E in El. discriminate El.
    + exists text. split; [reflexivity|]. split; [now destruct text|].
      unfold extractSkillsFromText. now rewrite extractSkillsFromText_fold.
Qed.

(** The clean-up of a company name scraped with a line break. *)
Lemma enhanceJobData_cleans_witness :
  company (enhanceJobData
             (Raw.mk (JStr "Developer")
                     (JStr (String "009" ("Acme" ++ String "010" "Holdings ")))
                     (JStr "Durban") JNull JNull (JStr "today") JNull
                     (JStr "PNet South Africa") (JStr "2024-01-01T00:00:00.000Z")))
  = JStr "Acme Holdings".
Proof.
  destruct (enhanceJobData_cleans
              (Raw.mk (JStr "Developer")
                      (JStr (String "009" ("Acme" ++ String "010" "Holdings ")))
                      (JStr "Durban") JNull JNull (JStr "today") JNull
                      (JStr "PNet South Africa") (JStr "2024-01-01T00:00:00.000Z")))
    as [H _].
  destruct (H _ eq_refl ltac:(discriminate)) as (c & Hc & _).
  vm_compute. reflexivity.
Defined.

(** ** Deduplicator, continued *)

Section DeduplicatorMore.

Lemma dedupFrom_distinct (seen : gset string) (batch : list Raw.t) :
  NoDup (dedupKey <$> batch) ->
  (forall job, job ∈ batch -> dedupKey job ∉ seen) ->
  dedupFrom seen batch = batch.
Proof.
  revert seen; induction batch as [|j rest IH]; intros seen Hnd Hfresh;
    [reflexivity|].
  cbn [dedupFrom]. rewrite fmap_cons in Hnd. apply NoDup_cons in Hnd as [Hj Hnd].
  rewrite decide_False by (apply Hfresh; left).
  f_equal. apply IH; [exact Hnd|].
  intros job Hin. specialize (Hfresh job ltac:(now right)).
  assert (dedupKey job <> dedupKey j).
  { intros E. apply Hj. rewrite <- E. now apply list_elem_of_fmap_2. }
  set_solver.
Qed.

End DeduplicatorMore.

(** X20. Deduplicating is idempotent and never lengthens a batch, and it
    leaves a batch unchanged exactly when the fingerprints of the batch are
    already pairwise distinct. *)
Theorem deduplicateJobs_idempotent (batch : list Raw.t) :
  deduplicateJobs (deduplicateJobs batch) = deduplicateJobs batch
  /\ List.length (deduplicateJobs batch) <= List.length batch
  /\ (deduplicateJobs batch = batch <-> NoDup (dedupKey <$> batch)).
Proof.
  assert (Hid : forall l, NoDup (dedupKey <$> l) -> deduplicateJobs l = l).
  { intros l H. apply dedupFrom_distinct; [exact H|set_solver]. }
  split; [apply Hid, dedupFrom_NoDup|].
  split; [apply sublist_length, dedupFrom_sublist|].
  split; [|apply Hid].
  intros E. rewrite <- E. apply dedupFrom_NoDup.
Qed.

(** X21. Records appended to a batch never displace a survivor: the
    survivors of [earlier ++ later] are the survivors of [earlier] followed
    by records of [later], in order, whose fingerprints do not occur in
    [earlier]. *)
Theorem deduplicateJobs_append (earlier later : list Raw.t) :
  exists added,
    deduplicateJobs (earlier ++ later)%list = (deduplicateJobs earlier ++ added)%list
    /\ sublist added later
    /\ forall job, In job added -> ~ In (dedupKey job) (map dedupKey earlier).
Proof.
  exists (dedupFrom (∅ ∪ keysOf earlier) later).
  split; [apply dedupFrom_app|]. split; [apply dedupFrom_sublist|].
  intros job Hin Hk. apply list_elem_of_In, dedupFrom_fresh in Hin.
  apply Hin. unfold keysOf. apply elem_of_union_r, elem_of_list_to_set.
  now apply list_elem_of_In.
Qed.

(** ** Extremes of the quality score *)

(** X22. The inline quality score is 100 exactly when all five criteria
    hold and 0 exactly when none holds, and it is always a multiple of 5. *)
Theorem calculateQualityScore_extremes (jobData : JobData) :
  let c1 := truthy (title jobData) && truthy (company jobData) in
  let c2 := truthy (description jobData)
            && (100 <? strLength (description jobData))%nat in
  let c3 := truthy (salary jobData) in
  let c4 := nonEmpty (skills jobData) in
  let c5 := nonEmpty (categories jobData) in
  (calculateQualityScore jobData = 100%Z <-> c1 && c2 && c3 && c4 && c5 = true)
  /\ (calculateQualityScore jobData = 0%Z <-> c1 || c2 || c3 || c4 || c5 = false)
  /\ (calculateQualityScore jobData mod 5 = 0)%Z.
Proof.
  cbv zeta. rewrite score_weightSum. unfold weightSum, weight.
  destruct (truthy (title jobData) && truthy (company jobData)),
    (truthy (description jobData) && (100 <? strLength (description jobData))%nat),
    (truthy (salary jobData)), (nonEmpty (skills jobData)),
    (nonEmpty (categories jobData)); cbn;
    (split; [split; intros H; (reflexivity || discriminate H)|]);
    (split; [split; intros H; (reflexivity || discriminate H)|reflexivity]).
Qed.

(** X23. A disclosed salary is never negative: whenever [parseSalary]
    discloses a range, its bounds are numbers (not [NaN]) and 0 <= min <= max
    in the order of the binary64 numbers, also for amounts that are rounded
    or that overflow to an infinity. When the text matches the single format
    but not the range format, the range is degenerate: min = max. *)
Theorem parseSalary_nonnegative (salaryText : jsval) :
  (SalaryRange.isDisclosed (parseSalary salaryText) = true ->
   isNumber (SalaryRange.min (parseSalary salaryText)) = true
   /\ isNumber (SalaryRange.max (parseSalary salaryText)) = true
   /\ SFleb (ofZ 0) (SalaryRange.min (parseSalary salaryText)) = true
   /\ SFleb (SalaryRange.min (parseSalary salaryText))
            (SalaryRange.max (parseSalary salaryText)) = true)
  /\ (forall text c,
        salaryText = JStr text -> text <> "" ->
        Regex.exec rangeFormat text = None ->
        Regex.exec singleFormat text = Some c ->
        SalaryRange.isDisclosed (parseSalary salaryText) = true
        /\ SalaryRange.min (parseSalary salaryText)
           = SalaryRange.max (parseSalary salaryText)).
Proof.
  split.
  - intros H. destruct (parseSalary_nonnegative_aux salaryText H) as (Hmin & Hmax & Hle).
    split; [now apply notNegative_isNumber|]. split; [now apply notNegative_isNumber|].
    split; [now apply zero_le_notNegative|exact Hle].
  - intros text c -> Ht Hr Hs. unfold parseSalary.
    assert (Htr : truthy (JStr text) = true) by (now destruct text).
    rewrite Htr. unfold formats. cbn [tryFormats]. rewrite Hr, Hs.
    apply singleFormat_caps in Hs as (g1 & g2 & -> & H1 & H2). split.
    + unfold salaryOfMatch. cbn [Regex.group Nat.eqb].
      reflexivity.
    + now apply salaryOfMatch_amounts; [|right|].
Qed.

(** The range of a monthly amount, and of an amount too large for a finite
    number. *)
Lemma parseSalary_nonnegative_witness :
  SalaryRange.min (parseSalary (JStr "R 25,000 per month"))
  = SalaryRange.max (parseSalary (JStr "R 25,000 per month"))
  /\ SFleb (ofZ 0) (SalaryRange.min (parseSalary (JStr "R 25,000 per month"))) = true
  /\ SFleb (SalaryRange.min
              (parseSalary (JStr ("R 1 - R 1" ++ JS.unchars (replicate 400 "0"%char)))))
           (SalaryRange.max
              (parseSalary (JStr ("R 1 - R 1" ++ JS.unchars (replicate 400 "0"%char)))))
     = true.
Proof.
  destruct (parseSalary_nonnegative (JStr "R 25,000 per month")) as [H1 H2].
  destruct (parseSalary_nonnegative
              (JStr ("R 1 - R 1" ++ JS.unchars (replicate 400 "0"%char)))) as [H3 _].
  split; [|split].
  - refine (proj2 (H2 "R 25,000 per month" _ eq_refl _ _ _));
      [discriminate | vm_compute; reflexivity | vm_compute; reflexivity].
  - apply H1. vm_compute. reflexivity.
  - apply H3. vm_compute. reflexivity.
Defined.

(** ** Created documents and the job schema *)

Section Schema.

Lemma isRemoteJob_location (jobData : JobData) :
  includes (toLowerCase (tpl (location jobData))) "remote" = true
  \/ includes (toLowerCase (tpl (location jobData))) "anywhere" = true
  \/ includes (toLowerCase (tpl (location jobData))) "virtual" = true ->
  isRemoteJob jobData = true.
Proof.
  unfold isRemoteJob. rewrite !toLowerCase_app.
  intros [H|[H|H]];
    apply (includes_app_r (toLowerCase " ")),
          (includes_app_r (toLowerCase (titleAndDescription jobData))) in H;
    rewrite H, ?orb_true_r; reflexivity.
Qed.

Lemma parseSalary_shape (salaryText : jsval) :
  parseSalary salaryText = undisclosed
  \/ (SalaryRange.isDisclosed (parseSalary salaryText) = true
      /\ SalaryRange.currency (parseSalary salaryText) = Some "ZAR"
      /\ (SalaryRange.period (parseSalary salaryText) = Some "yearly"
          \/ SalaryRange.period (parseSalary salaryText) = Some "monthly")).
Proof.
  destruct salaryText as [| |text]; [now left|now left|].
  unfold parseSalary. destruct (truthy (JStr text)); [|now left].
  induction formats as [|f fs IH]; cbn [tryFormats]; [now left|].
  destruct (Regex.exec f text) as [c|]; [|exact IH].
  unfold salaryOfMatch. destruct (Regex.group 1 c); [|now left].
  right. cbn [SalaryRange.isDisclosed SalaryRange.currency SalaryRange.period].
  split; [reflexivity|]. split; [reflexivity|].
  destruct (includes (toLowerCase text) "year" || includes (toLowerCase text) "annum");
    [now left|now right].
Qed.

(** The bounds of every parsed salary, disclosed or not, are not negative. *)
Lemma parseSalary_bounds (salaryText : jsval) :
  notNegative (SalaryRange.min (parseSalary salaryText)) = true
  /\ notNegative (SalaryRange.max (parseSalary salaryText)) = true.
Proof.
  destruct (SalaryRange.isDisclosed (parseSalary salaryText)) eqn:E.
  - destruct (parseSalary_nonnegative_aux salaryText E) as (H1 & H2 & _). auto.
  - destruct (parseSalary_shape salaryText) as [->|[H _]]; [now split|congruence].
Qed.

Lemma trimStart_empty (s : string) :
  trimStart s = "" -> allChars is_space s = true.
Proof.
  unfold allChars. induction s as [|c s IH]; [reflexivity|].
  cbn [trimStart chars forallb]. destruct (is_space c); [exact IH|discriminate].
Qed.

(** Only white space trims to the empty string. *)
Lemma trim_empty (s : string) : trim s = "" -> allChars is_space s = true.
Proof.
  unfold trim. destruct (trimStart s) as [|c t] eqn:E.
  - intros _. now apply trimStart_empty.
  - assert (Hc : is_space c = false)
      by (apply (trimStart_first s); now rewrite E).
    intros H. pose proof (trimEnd_first (String c t) c eq_refl Hc) as Hf.
    rewrite H in Hf. discriminate Hf.
Qed.

Lemma trimStart_blank (s : string) :
  allChars is_space s = true -> trimStart s = "".
Proof.
  unfold allChars. induction s as [|c s IH]; [reflexivity|].
  cbn [chars forallb trimStart]. intros [Hc Hs]%andb_true_iff.
  rewrite Hc. now apply IH.
Qed.

(** After the trim of the schema a value is present exactly when it is a
    string that is not blank. *)
Lemma truthy_trimValue (v : jsval) : truthy (JobSchema.trimValue v) = notBlank v.
Proof.
  destruct v as [| |s]; try reflexivity. cbn [JobSchema.trimValue truthy notBlank].
  destruct (allChars is_space s) eqn:E.
  - unfold trim. now rewrite (trimStart_blank s E).
  - destruct (trim s) eqn:Et; [|reflexivity].
    apply trim_empty in Et. congruence.
Qed.

(** The description [new Job] is given is never empty. *)
Lemma descriptionGiven_truthy (enhancedJob : JobData) :
  truthy (descriptionGiven enhancedJob) = true.
Proof.
  unfold descriptionGiven, orElse.
  destruct (truthy (description enhancedJob)) eqn:Ed; [exact Ed|].
  destruct (truthy (summary enhancedJob)) eqn:Es; [exact Es|reflexivity].
Qed.

(** It is blank only for a record whose own description or summary is
    white space. *)
Lemma descriptionGiven_blank (enhancedJob : JobData) :
  notBlank (descriptionGiven enhancedJob) = false ->
  exists s, orElse (description enhancedJob) (summary enhancedJob) = JStr s
            /\ s <> "" /\ allChars is_space s = true.
Proof.
  unfold descriptionGiven, orElse.
  destruct (truthy (description enhancedJob)) eqn:Ed.
  - destruct (description enhancedJob) as [| |s]; try discriminate Ed.
    cbn [notBlank]. intros H. exists s. split; [reflexivity|].
    split; [now destruct s|]. now destruct (allChars is_space s).
  - destruct (truthy (summary enhancedJob)) eqn:Es; [|discriminate].
    destruct (summary enhancedJob) as [| |s]; try discriminate Es.
    cbn [notBlank]. intros H. exists s. split; [reflexivity|].
    split; [now destruct s|]. now destruct (allChars is_space s).
Qed.

End Schema.

(** X24. Every document [new Job] builds in the service, after the casts of
    the schema, passes the validators that the service decides: the job type
    and the experience level are members of their enumerations, the salary
    bounds are numbers that are not negative, the currency is ZAR and the
    period a member of its enumeration (by the parser or by the defaults of
    the schema), the quality score lies in [0,100], the scraped accuracy is
    85 and there is at least one category. The title, the company, the
    location and the description are stored trimmed, so each is present, as
    [required] demands, exactly when the text given is not blank. The
    description given to [new Job] is never empty; it is blank only when the
    record's own description or summary consists of white space. *)
Theorem createJob_fits_schema (w : World) (enhancedJob : JobData) :
  let job := JobSchema.cast (createJob w enhancedJob) in
  In (Job.jobType job) JobSchema.jobTypeEnum
  /\ In (Job.experienceLevel job) JobSchema.experienceLevelEnum
  /\ SFleb (ofZ 0) (SalaryRange.min (Job.salaryRange job)) = true
  /\ SFleb (ofZ 0) (SalaryRange.max (Job.salaryRange job)) = true
  /\ SalaryRange.currency (Job.salaryRange job) = Some "ZAR"
  /\ (exists period,
        SalaryRange.period (Job.salaryRange job) = Some period
        /\ In period JobSchema.periodEnum)
  /\ (0 <= Job.qualityScore (Job.metadata job) <= 100)%Z
  /\ Job.scrapedAccuracy (Job.metadata job) = 85%Z
  /\ Job.categories job <> []
  /\ (forall t, title enhancedJob = JStr t -> Job.title job = JStr (trim t))
  /\ truthy (Job.title job) = notBlank (title enhancedJob)
  /\ truthy (Job.company job) = notBlank (company enhancedJob)
  /\ truthy (Job.location job) = notBlank (location enhancedJob)
  /\ truthy (Job.description job) = notBlank (descriptionGiven enhancedJob)
  /\ truthy (descriptionGiven enhancedJob) = true
  /\ (truthy (Job.description job) = false ->
      exists s, orElse (description enhancedJob) (summary enhancedJob) = JStr s
                /\ s <> "" /\ allChars is_space s = true).
Proof.
  cbv zeta.
  assert (Hd : truthy (Job.description (JobSchema.cast (createJob w enhancedJob)))
               = notBlank (descriptionGiven enhancedJob)).
  { cbn [JobSchema.cast createJob Job.description]. apply truthy_trimValue. }
  cbn [JobSchema.cast createJob Job.jobType Job.experienceLevel Job.salaryRange
       Job.metadata Job.qualityScore Job.scrapedAccuracy Job.categories
       Job.title Job.company Job.location
       JobSchema.salaryDefaults SalaryRange.min SalaryRange.max
       SalaryRange.currency SalaryRange.period] in *.
  split.
  { unfold detectJobType, JobSchema.jobTypeEnum.
    repeat match goal with
           | |- context [if ?b then _ else _] => destruct b
           end;
      cbn [In]; repeat (first [left; reflexivity | right]). }
  split.
  { unfold detectExperienceLevel, JobSchema.experienceLevelEnum.
    repeat match goal with
           | |- context [if ?b then _ else _] => destruct b
           end;
      cbn [In]; repeat (first [left; reflexivity | right]). }
  split; [apply zero_le_notNegative, parseSalary_bounds|].
  split; [apply zero_le_notNegative, parseSalary_bounds|].
  split.
  { destruct (parseSalary_shape (salary enhancedJob)) as [->|(_ & -> & _)];
      reflexivity. }
  split.
  { unfold JobSchema.periodEnum.
    destruct (parseSalary_shape (salary enhancedJob)) as [->|(_ & _ & [->| ->])];
      eexists; (split; [reflexivity|]); cbn [In];
      repeat (first [left; reflexivity | right]). }
  split; [rewrite score_weightSum; apply weightSum_bounds|].
  split; [reflexivity|].
  split.
  { unfold detectCategories.
    destruct (0 <? List.length
                     (matchedCategories (toLowerCase (titleAndDescription enhancedJob))
                                        categoryKeywords))%nat eqn:E; [|discriminate].
    intros H. apply fmap_nil_inv in H. rewrite H in E. discriminate E. }
  split; [intros t ->; reflexivity|].
  split; [apply truthy_trimValue|]. split; [apply truthy_trimValue|].
  split; [apply truthy_trimValue|]. split; [exact Hd|].
  split; [apply descriptionGiven_truthy|].
  rewrite Hd. apply descriptionGiven_blank.
Qed.

(** A posting whose summary is white space: the description given to
    [new Job] is that summary, and the stored description is empty. *)
Lemma createJob_fits_schema_witness :
  Job.description (createJob partialWorld blankSummary) = JStr "   "
  /\ truthy (Job.description (JobSchema.cast (createJob partialWorld blankSummary)))
     = false
  /\ SalaryRange.period
       (Job.salaryRange (JobSchema.cast (createJob partialWorld blankSummary)))
     = Some "monthly".
Proof.
  destruct (createJob_fits_schema partialWorld blankSummary)
    as (_ & _ & _ & _ & _ & _ & _ & _ & _ & _ & _ & _ & _ & Hd & _).
  split; [reflexivity|]. split; [rewrite Hd; reflexivity|reflexivity].
Defined.

(** X25. The score the model recomputes after the save reads fields the
    service never sets. For a document as [new Job] builds it in the
    service, with no requirements, responsibilities, benefits or contact,
    that score is 30 when the title, the company and the description given
    are not blank (the schema stores them trimmed), plus 20 for a salary
    that [parseSalary] disclosed, so at most 50. For every document and
    details the score lies in [0,100]. *)
Theorem model_score_of_created_job (w : World) (enhancedJob : JobData) :
  let job := JobSchema.cast (createJob w enhancedJob) in
  JobSchema.calculateQualityScore job JobSchema.noDetails
  = (weight (notBlank (title enhancedJob) && notBlank (company enhancedJob)
             && notBlank (descriptionGiven enhancedJob)) 30
     + weight (SalaryRange.isDisclosed (parseSalary (salary enhancedJob))) 20)%Z
  /\ (JobSchema.calculateQualityScore job JobSchema.noDetails <= 50)%Z
  /\ (forall (doc : Job.t) (details : JobSchema.Details),
        (0 <= JobSchema.calculateQualityScore doc details <= 100)%Z).
Proof.
  cbv zeta.
  assert (E : JobSchema.calculateQualityScore (JobSchema.cast (createJob w enhancedJob))
                JobSchema.noDetails
              = (weight (notBlank (title enhancedJob) && notBlank (company enhancedJob)
                         && notBlank (descriptionGiven enhancedJob)) 30
                 + weight (SalaryRange.isDisclosed (parseSalary (salary enhancedJob)))
                          20)%Z).
  { unfold JobSchema.calculateQualityScore.
    cbn [JobSchema.cast createJob Job.title Job.company Job.description
         Job.salaryRange
         JobSchema.salaryDefaults SalaryRange.isDisclosed JobSchema.noDetails
         JobSchema.requirements JobSchema.responsibilities JobSchema.benefits
         JobSchema.contactEmail JobSchema.contactPhone List.length Nat.ltb Nat.leb
         truthy orb].
    rewrite !truthy_trimValue. fold (descriptionGiven enhancedJob).
    unfold weight.
    destruct (notBlank (title enhancedJob) && notBlank (company enhancedJob)
              && notBlank (descriptionGiven enhancedJob)),
      (SalaryRange.isDisclosed (parseSalary (salary enhancedJob))); reflexivity. }
  split; [exact E|]. split.
  - rewrite E. unfold weight.
    destruct (notBlank (title enhancedJob) && notBlank (company enhancedJob)
              && notBlank (descriptionGiven enhancedJob)),
      (SalaryRange.isDisclosed (parseSalary (salary enhancedJob))); lia.
  - intros doc details. unfold JobSchema.calculateQualityScore.
    destruct (truthy (Job.title doc) && truthy (Job.company doc)
              && truthy (Job.description doc)),
      (SalaryRange.isDisclosed (Job.salaryRange doc)),
      (0 <? List.length (JobSchema.requirements details))%nat,
      (0 <? List.length (JobSchema.responsibilities details))%nat,
      (0 <? List.length (JobSchema.benefits details))%nat,
      (truthy (JobSchema.contactEmail details)
       || truthy (JobSchema.contactPhone details)); cbn; lia.
Qed.

(** The recomputed score of the sample posting, which has a disclosed
    salary, and of the posting whose summary is blank. *)
Lemma model_score_of_created_job_witness :
  JobSchema.calculateQualityScore
    (JobSchema.cast (createJob partialWorld (enhanceJobData developerIndeed)))
    JobSchema.noDetails
  = 50%Z
  /\ JobSchema.calculateQualityScore
       (JobSchema.cast (createJob partialWorld blankSummary)) JobSchema.noDetails
     = 0%Z.
Proof.
  split.
  - now rewrite (proj1 (model_score_of_created_job partialWorld
                          (enhanceJobData developerIndeed))).
  - now rewrite (proj1 (model_score_of_created_job partialWorld blankSummary)).
Defined.

Section TrimSubstring.

Lemma unchars_app (a b : list ascii) : unchars (a ++ b) = unchars a ++ unchars b.
Proof.
  induction a as [|c a IH]; [reflexivity|].
  cbn [app unchars]. now rewrite IH.
Qed.

Lemma trimStart_suffix (s : string) : exists a, s = a ++ trimStart s.
Proof.
  induction s as [|c s IH]; [now exists ""|].
  cbn [trimStart]. destruct (is_space c); [|now exists ""].
  destruct IH as [a Ha]. exists (String c a).
  change (String c a ++ trimStart s) with (String c (a ++ trimStart s)).
  now rewrite <- Ha.
Qed.

Lemma trimEnd_prefix (s : string) : exists b, s = trimEnd s ++ b.
Proof.
  unfold trimEnd.
  destruct (trimStart_suffix (unchars (reverse (chars s)))) as [a Ha].
  exists (unchars (reverse (chars a))).
  rewrite <- unchars_app, <- reverse_app, <- chars_app, <- Ha.
  now rewrite chars_unchars, reverse_involutive, unchars_chars.
Qed.

Lemma trim_includes (s k : string) :
  includes (toLowerCase (trim s)) k = true -> includes (toLowerCase s) k = true.
Proof.
  unfold trim.
  destruct (trimStart_suffix s) as [a Ha].
  destruct (trimEnd_prefix (trimStart s)) as [b Hb].
  rewrite !includes_iff. intros (x & y & E).
  exists (toLowerCase a ++ x), (y ++ toLowerCase b).
  rewrite Ha at 1. rewrite Hb at 1.
  rewrite !toLowerCase_app, E. now rewrite !string_app_assoc.
Qed.

End TrimSubstring.

(** X26. The remote detection of the pre-save hook never changes a document
    the service creates: [isRemoteJob] has already looked at the location,
    so [isRemote] is the same after the hook, also when the schema has
    trimmed the stored location. On any document the hook can only set the
    flag, never clear it. *)
Theorem remoteAfterSave_of_created_job (w : World) (enhancedJob : JobData) :
  JobSchema.remoteAfterSave (createJob w enhancedJob)
  = Job.isRemote (createJob w enhancedJob)
  /\ (forall (stored : Job.t) (s : string),
        location enhancedJob = JStr s ->
        Job.location stored = JStr (trim s) ->
        Job.isRemote stored = Job.isRemote (createJob w enhancedJob) ->
        JobSchema.remoteAfterSave stored = Job.isRemote (createJob w enhancedJob))
  /\ (forall doc : Job.t,
        Job.isRemote doc = true -> JobSchema.remoteAfterSave doc = true).
Proof.
  split; [|split].
  - unfold JobSchema.remoteAfterSave.
    cbn [createJob Job.location Job.isRemote].
    destruct (truthy (location enhancedJob)
              && (includes (toLowerCase (tpl (location enhancedJob))) "remote"
                  || includes (toLowerCase (tpl (location enhancedJob))) "anywhere"
                  || includes (toLowerCase (tpl (location enhancedJob))) "virtual"))
      eqn:E; [|reflexivity].
    apply andb_true_iff in E as [_ E].
    symmetry. apply isRemoteJob_location.
    apply orb_true_iff in E as [E|E]; [apply orb_true_iff in E as [E|E]|]; auto.
  - intros stored s Hs Hl Hr. unfold JobSchema.remoteAfterSave. rewrite Hl, Hr.
    cbn [tpl createJob Job.isRemote].
    destruct (truthy (JStr (trim s))
              && (includes (toLowerCase (trim s)) "remote"
                  || includes (toLowerCase (trim s)) "anywhere"
                  || includes (toLowerCase (trim s)) "virtual"))
      eqn:E; [|reflexivity].
    apply andb_true_iff in E as [_ E].
    symmetry. apply isRemoteJob_location. rewrite Hs. cbn [tpl].
    apply orb_true_iff in E as [E|E]; [apply orb_true_iff in E as [E|E]|];
      apply trim_includes in E; auto.
  - intros doc H. unfold JobSchema.remoteAfterSave. rewrite H.
    now destruct (truthy (Job.location doc) && _).
Qed.

(** The hook on a posting whose location is padded with spaces. *)
Lemma remoteAfterSave_of_created_job_witness :
  JobSchema.remoteAfterSave
    (createJob partialWorld
       (mkJobData (JStr "Accountant") (JStr "Acme") (JStr " Remote, South Africa ")
                  JNull JNull (JStr "today") JNull (JStr "PNet South Africa")
                  (JStr "2024-01-01T00:00:00.000Z") JUndefined None None))
  = true.
Proof.
  apply (proj2 (proj2 (remoteAfterSave_of_created_job partialWorld
                         (mkJobData (JStr "Accountant") (JStr "Acme")
                                    (JStr " Remote, South Africa ") JNull JNull
                                    (JStr "today") JNull (JStr "PNet South Africa")
                                    (JStr "2024-01-01T00:00:00.000Z")
                                    JUndefined None None)))).
  reflexivity.
Defined.

(** ** Audit log sanitisers *)

Section RequestSanitizer.

Variable V : Type.
Variable truthyV : V -> bool.
Variable redacted : V.

Lemma redactValue_twice (v : option V) :
  AuditLogger.redactValue V truthyV redacted
    (AuditLogger.redactValue V truthyV redacted v)
  = AuditLogger.redactValue V truthyV redacted v.
Proof.
  destruct v as [x|]; [|reflexivity]. cbn.
  destruct (truthyV x) eqn:E; [|now rewrite E].
  now destruct (truthyV redacted).
Qed.

Lemma redactField_lookup (fields : gmap string V) (field k : string) :
  AuditLogger.redactField V truthyV redacted fields field !! k
  = if decide (k = field)
    then AuditLogger.redactValue V truthyV redacted (fields !! k)
    else fields !! k.
Proof.
  unfold AuditLogger.redactField.
  destruct (decide (k = field)) as [->|Hne].
  - destruct (fields !! field) as [x|] eqn:E; [|now rewrite E].
    cbn. destruct (truthyV x); [now rewrite lookup_insert_eq|now rewrite E].
  - destruct (fields !! field) as [x|]; [|reflexivity].
    destruct (truthyV x); [now rewrite lookup_insert_ne|reflexivity].
Qed.

Lemma redactFields_lookup (names : list string) (fields : gmap string V) (k : string) :
  fold_left (AuditLogger.redactField V truthyV redacted) names fields !! k
  = if decide (k ∈ names)
    then AuditLogger.redactValue V truthyV redacted (fields !! k)
    else fields !! k.
Proof.
  revert fields; induction names as [|field rest IH]; intros fields.
  - cbn. now rewrite decide_False by set_solver.
  - cbn [fold_left]. rewrite IH, redactField_lookup.
    destruct (decide (k = field)) as [->|Hne].
    + rewrite (decide_True (P := field ∈ field :: rest)) by set_solver.
      destruct (decide (field ∈ rest)); [apply redactValue_twice|reflexivity].
    + destruct (decide (k ∈ rest)) as [Hin|Hout].
      * now rewrite decide_True by set_solver.
      * now rewrite decide_False by set_solver.
Qed.

End RequestSanitizer.

Section ResponseSanitizer.

Variable V : Type.
Variable isUndefined : V -> bool.

Lemma copyField_lookup (body sanitized : gmap string V) (field k : string) :
  AuditLogger.copyField V isUndefined body sanitized field !! k
  = if decide (k = field)
    then match body !! k with
         | Some v => if isUndefined v then sanitized !! k else Some v
         | None => sanitized !! k
         end
    else sanitized !! k.
Proof.
  unfold AuditLogger.copyField.
  destruct (decide (k = field)) as [->|Hne].
  - destruct (body !! field) as [v|]; [|reflexivity].
    destruct (isUndefined v); [reflexivity|now rewrite lookup_insert_eq].
  - destruct (body !! field) as [v|]; [|reflexivity].
    destruct (isUndefined v); [reflexivity|now rewrite lookup_insert_ne].
Qed.

Lemma copyFields_lookup (names : list string) (body sanitized : gmap string V)
    (k : string) :
  fold_left (AuditLogger.copyField V isUndefined body) names sanitized !! k
  = if decide (k ∈ names)
    then match body !! k with
         | Some v => if isUndefined v then sanitized !! k else Some v
         | None => sanitized !! k
         end
    else sanitized !! k.
Proof.
  revert sanitized; induction names as [|field rest IH]; intros sanitized.
  - cbn. now rewrite decide_False by set_solver.
  - cbn [fold_left]. rewrite IH, copyField_lookup.
    destruct (decide (k = field)) as [->|Hne].
    + rewrite (decide_True (P := field ∈ field :: rest)) by set_solver.
      destruct (decide (field ∈ rest)); [|reflexivity].
      destruct (body !! field) as [v|]; [|reflexivity].
      now destruct (isUndefined v).
    + destruct (decide (k ∈ rest)) as [Hin|Hout].
      * now rewrite decide_True by set_solver.
      * now rewrite decide_False by set_solver.
Qed.

End ResponseSanitizer.

(** X27. [sanitizeRequestBody] returns a falsy body as it is and, for an
    object, an object with the same properties in which every sensitive
    property with a truthy value holds ['***REDACTED***'] and every other
    property keeps its value; sanitising a sanitised body changes
    nothing. *)
Theorem sanitizeRequestBody_redacts (V : Type) (truthyV : V -> bool) (redacted : V)
    (fields : gmap string V) :
  AuditLogger.sanitizeRequestBody V truthyV redacted None = None
  /\ exists sanitized,
       AuditLogger.sanitizeRequestBody V truthyV redacted (Some fields) = Some sanitized
       /\ dom sanitized = dom fields
       /\ (forall k, k ∉ AuditLogger.sensitiveFields -> sanitized !! k = fields !! k)
       /\ (forall k v, k ∈ AuditLogger.sensitiveFields -> fields !! k = Some v ->
             sanitized !! k = Some (if truthyV v then redacted else v))
       /\ AuditLogger.sanitizeRequestBody V truthyV redacted (Some sanitized)
          = Some sanitized.
Proof.
  split; [reflexivity|]. eexists. split; [reflexivity|].
  set (sanitized := fold_left (AuditLogger.redactField V truthyV redacted)
                              AuditLogger.sensitiveFields fields).
  assert (Hl : forall k,
             sanitized !! k
             = if decide (k ∈ AuditLogger.sensitiveFields)
               then AuditLogger.redactValue V truthyV redacted (fields !! k)
               else fields !! k).
  { intros k. unfold sanitized. apply redactFields_lookup. }
  split; [|split; [|split]].
  - apply set_eq. intros k. rewrite !elem_of_dom, Hl.
    destruct (decide (k ∈ AuditLogger.sensitiveFields)); [|reflexivity].
    destruct (fields !! k); cbn; split; intros [x Hx]; eauto; discriminate Hx.
  - intros k Hk. now rewrite Hl, decide_False.
  - intros k v Hk Hv. now rewrite Hl, decide_True, Hv.
  - cbn [AuditLogger.sanitizeRequestBody]. f_equal. apply map_eq. intros k.
    rewrite redactFields_lookup, Hl.
    destruct (decide (k ∈ AuditLogger.sensitiveFields)); [|reflexivity].
    apply redactValue_twice.
Qed.

(** X28. [sanitizeResponseBody] lets nothing through but the safe fields: of
    an object it returns exactly the properties named success, message, id,
    count or status whose value is not [undefined], with their values; a
    falsy body comes back as it is and any other body as the placeholder
    string. *)
Theorem sanitizeResponseBody_keeps_safe_fields (V : Type) (isUndefined : V -> bool)
    (fields : gmap string V) :
  AuditLogger.sanitizeResponseBody V isUndefined (AuditLogger.Falsy V)
  = AuditLogger.Unchanged V
  /\ AuditLogger.sanitizeResponseBody V isUndefined (AuditLogger.Other V)
     = AuditLogger.Placeholder V
  /\ exists sanitized,
       AuditLogger.sanitizeResponseBody V isUndefined (AuditLogger.Object V fields)
       = AuditLogger.SafeObject V sanitized
       /\ forall k v,
            sanitized !! k = Some v <->
            k ∈ AuditLogger.safeFields /\ fields !! k = Some v
            /\ isUndefined v = false.
Proof.
  split; [reflexivity|]. split; [reflexivity|].
  eexists. split; [reflexivity|]. intros k v.
  rewrite copyFields_lookup, lookup_empty.
  destruct (decide (k ∈ AuditLogger.safeFields)) as [Hin|Hout].
  - destruct (fields !! k) as [u|].
    + destruct (isUndefined u) eqn:Eu.
      * split; [discriminate|]. intros (_ & [= ->] & Hv). congruence.
      * split; [intros [= ->]; auto|]. now intros (_ & H & _).
    + split; [discriminate|]. now intros (_ & H & _).
  - split; [discriminate|]. now intros (H & _).
Qed.
